(** * challengequest-frontend: the QR-code scanner session, the admin route
      guard, the language switcher and the forms of the profile page

    A shallow embedding of [src/components/QRCodeScanner.tsx], of the
    [AdminRoute] component, of [src/components/LanguageSwitcher.tsx] and of
    the form handlers of [src/pages/Profile.tsx].  The scanner, the guard
    and the profile page are React components whose logic lives in
    [async] functions: bodies that run synchronously up to an [await], hand an
    operation to the browser, and are resumed later with its outcome.  The
    embedding keeps that shape:

    - an [async] body is a term of a small free monad ([Async.async]) with
      state access, [throw], [await] and the call of an async function whose
      promise is dropped ([Spawn]);
    - [Async.exec] runs a task up to its first [await] and parks the rest in
      the list of pending continuations of the configuration;
    - the browser, the decoding engine and the user are the environment: they
      settle pending operations, fire the engine's callbacks, click buttons and
      change the [open] prop.

    Every call that crosses the component's boundary is appended to a trace,
    so that orderings ("stop before notify") are statements about lists.

    Conventions.  The [useState] cells are fields of one record, written by
    the setters; in the scanner no body reads them, only the render does,
    and a handler of the profile page reads them once, when it is called.  [await f()] on an
    async function [f] of the component itself is sequencing ([bind]); an
    [await] on a promise of the browser or of the engine is an [Await], and a
    failure of such a call, thrown or rejected, is its [Rejected] outcome,
    delivered when the environment settles the operation.
    [new Html5Qrcode] hands out a fresh handle when its element is in the
    document, and throws otherwise.  The caller's [onScanSuccess] and
    [onClose] are events of the trace. *)

From Stdlib Require Import List String Ascii Bool Arith NArith Lia FunctionalExtensionality.
Import ListNotations.
Open Scope string_scope.
Open Scope list_scope.

(** ** JavaScript values crossing an [await] *)

(** What a [catch] clause can receive: an object for which
    [err instanceof Error] holds, with its [name] and [message], or any other
    thrown value (html5-qrcode rejects with plain strings). *)
Inductive thrown : Type :=
| JsError (name message : string)
| JsOther (text : string).

(** [s.includes(sub)] on strings. *)
Fixpoint includes (s sub : string) : bool :=
  String.prefix sub s ||
  match s with
  | EmptyString => false
  | String _ s' => includes s' sub
  end.

(** JavaScript truthiness of a [string | null]: [null] and the empty string
    are falsy. *)
Definition truthy (v : option string) : bool :=
  match v with
  | Some s => negb (s =? "")
  | None => false
  end.

(** [a || b] on strings. *)
Definition or_else (a b : string) : string :=
  if a =? "" then b else a.

(** ** Async function bodies *)

Module Async.
Section Machine.
Context {St Op Val : Type}.

(** How an awaited operation settles. *)
Inductive outcome : Type :=
| Resolved (v : Val)
| Rejected (e : thrown).

Inductive async (A : Type) : Type :=
| Ret (a : A)
| Throw (e : thrown)
| Get (k : St -> async A)
| Put (s : St) (k : async A)
| Await (op : Op) (k : outcome -> async A)
| Spawn (q : async unit) (k : async A).

Arguments Ret {A} a.
Arguments Throw {A} e.
Arguments Get {A} k.
Arguments Put {A} s k.
Arguments Await {A} op k.
Arguments Spawn {A} q k.

Fixpoint bind {A B : Type} (m : async A) (f : A -> async B) : async B :=
  match m with
  | Ret a => f a
  | Throw e => Throw e
  | Get k => Get (fun s => bind (k s) f)
  | Put s k => Put s (bind k f)
  | Await op k => Await op (fun o => bind (k o) f)
  | Spawn q k => Spawn q (bind k f)
  end.

(** [try { m } catch (err) { h err }].  A dropped promise ([Spawn]) never
    throws into its caller. *)
Fixpoint try_catch {A : Type} (m : async A) (h : thrown -> async A) : async A :=
  match m with
  | Ret a => Ret a
  | Throw e => h e
  | Get k => Get (fun s => try_catch (k s) h)
  | Put s k => Put s (try_catch k h)
  | Await op k => Await op (fun o => try_catch (k o) h)
  | Spawn q k => Spawn q (try_catch k h)
  end.

(** [await p] for a promise [p] handed out by the environment: a rejection
    is rethrown at the [await]. *)
Definition await (op : Op) : async Val :=
  Await op (fun o => match o with Resolved v => Ret v | Rejected e => Throw e end).

Definition modify (f : St -> St) : async unit :=
  Get (fun s => Put (f s) (Ret tt)).

(** *** Configurations and the run-to-suspension semantics *)

Record config : Type := mkConfig {
  st : St;
  pending : list (Op * (outcome -> async unit));
  unhandled : list thrown
}.

Variable on_call : Op -> St -> St.
Variable on_settle : Op -> outcome -> St -> St.

Definition park (op : Op) (k : outcome -> async unit) (c : config) : config :=
  mkConfig (on_call op (st c)) (pending c ++ [(op, k)]) (unhandled c).

Definition reject (e : thrown) (c : config) : config :=
  mkConfig (st c) (pending c) (unhandled c ++ [e]).

(** Runs a task until it returns, throws or reaches an [await].  At an
    [await] the operation is issued (logged by [on_call]) and the rest of the
    body is parked.  An exception that escapes the task is an unhandled
    rejection of its promise; it never reaches the code that started it. *)
Fixpoint exec (p : async unit) (c : config) : config :=
  match p with
  | Ret _ => c
  | Throw e => reject e c
  | Get k => exec (k (st c)) c
  | Put s k => exec k (mkConfig s (pending c) (unhandled c))
  | Await op k => park op k c
  | Spawn q k => exec k (exec q c)
  end.

Fixpoint remove_nth {X} (i : nat) (l : list X) : list X :=
  match l, i with
  | [], _ => []
  | _ :: t, O => t
  | x :: t, S j => x :: remove_nth j t
  end.

(** The environment settles the [i]-th pending operation with [o]. *)
Definition settle (i : nat) (o : outcome) (c : config) : config :=
  match nth_error (pending c) i with
  | Some (op, k) =>
      exec (k o)
        (mkConfig (on_settle op o (st c)) (remove_nth i (pending c)) (unhandled c))
  | None => c
  end.

(** *** Relations kept by a body

    [keeps R s p]: started in state [s], every write of [p] takes a state to
    an [R]-related one, also after it has been resumed (in whatever state the
    component is by then, right after [on_settle]) and in the bodies it
    spawns. *)
Fixpoint keeps (R : St -> St -> Prop) {A : Type} (s : St) (p : async A) : Prop :=
  match p with
  | Ret _ => True
  | Throw _ => True
  | Get k => keeps R s (k s)
  | Put s' k => R s s' /\ keeps R s' k
  | Await op k => forall o s', keeps R (on_settle op o s') (k o)
  | Spawn q k => keeps R s q /\ forall s', keeps R s' k
  end.

Definition quiet (R : St -> St -> Prop) {A : Type} (p : async A) : Prop :=
  forall s, keeps R s p.

Definition parked_ok (R : St -> St -> Prop) (e : Op * (outcome -> async unit)) : Prop :=
  forall o s, keeps R (on_settle (fst e) o s) (snd e o).

(** [never_throws p]: however its awaits settle and whatever the state, [p]
    does not end in a [throw], and neither does a body it spawns. *)
Fixpoint never_throws {A : Type} (p : async A) : Prop :=
  match p with
  | Ret _ => True
  | Throw _ => False
  | Get k => forall s, never_throws (k s)
  | Put _ k => never_throws k
  | Await _ k => forall o, never_throws (k o)
  | Spawn q k => never_throws q /\ never_throws k
  end.

(** [spawns_calm p]: the bodies spawned by [p] never throw; [p] itself
    may. *)
Fixpoint spawns_calm {A : Type} (p : async A) : Prop :=
  match p with
  | Ret _ => True
  | Throw _ => True
  | Get k => forall s, spawns_calm (k s)
  | Put _ k => spawns_calm k
  | Await _ k => forall o, spawns_calm (k o)
  | Spawn q k => never_throws q /\ spawns_calm k
  end.

Definition parked_calm (e : Op * (outcome -> async unit)) : Prop :=
  forall o, never_throws (snd e o).

(** *** Invariants at rest

    An invariant [I] of the state and of the operations pending holds "at
    rest": whenever control is back with the event loop.  [rest I p s ops K]
    says that the task [p], started in state [s] with [ops] pending, hands
    control back to its starter in a situation where [K] holds, and that
    every later resumption of what it parked, from a situation where [I]
    holds and its operation is among those pending, hands control back
    where [I] holds again. *)
Fixpoint rest (I : St -> list Op -> Prop) (p : async unit) (s : St) (ops : list Op)
  (K : St -> list Op -> Prop) : Prop :=
  match p with
  | Ret _ => K s ops
  | Throw _ => K s ops
  | Get k => rest I (k s) s ops K
  | Put s' k => rest I k s' ops K
  | Await op k =>
      K (on_call op s) (ops ++ [op]) /\
      forall o s' ops' i,
        I s' ops' -> nth_error ops' i = Some op ->
        rest I (k o) (on_settle op o s') (remove_nth i ops') I
  | Spawn q k => rest I q s ops (fun s1 ops1 => rest I k s1 ops1 K)
  end.

Definition parked_rest (I : St -> list Op -> Prop)
  (e : Op * (outcome -> async unit)) : Prop :=
  forall o s' ops' i,
    I s' ops' -> nth_error ops' i = Some (fst e) ->
    rest I (snd e o) (on_settle (fst e) o s') (remove_nth i ops') I.

(** Induction on tasks (bodies of type [unit]). *)
Fixpoint task_ind (P : async unit -> Prop)
  (HRet : forall a, P (Ret a))
  (HThrow : forall e, P (Throw e))
  (HGet : forall k, (forall s, P (k s)) -> P (Get k))
  (HPut : forall s k, P k -> P (Put s k))
  (HAwait : forall op k, (forall o, P (k o)) -> P (Await op k))
  (HSpawn : forall q k, P q -> P k -> P (Spawn q k))
  (p : async unit) : P p :=
  match p with
  | Ret a => HRet a
  | Throw e => HThrow e
  | Get k => HGet k (fun s => task_ind P HRet HThrow HGet HPut HAwait HSpawn (k s))
  | Put s k => HPut s k (task_ind P HRet HThrow HGet HPut HAwait HSpawn k)
  | Await op k =>
      HAwait op k (fun o => task_ind P HRet HThrow HGet HPut HAwait HSpawn (k o))
  | Spawn q k =>
      HSpawn q k (task_ind P HRet HThrow HGet HPut HAwait HSpawn q)
                 (task_ind P HRet HThrow HGet HPut HAwait HSpawn k)
  end.

End Machine.

Arguments async : clear implicits.
Arguments outcome : clear implicits.
Arguments config : clear implicits.
Arguments Ret {St Op Val A} a.
Arguments Throw {St Op Val A} e.
Arguments Get {St Op Val A} k.
Arguments Put {St Op Val A} s k.
Arguments Await {St Op Val A} op k.
Arguments Spawn {St Op Val A} q k.
Arguments Resolved {Val} v.
Arguments Rejected {Val} e.
Arguments keeps {St Op Val} on_settle R {A} s p.
Arguments quiet {St Op Val} on_settle R {A} p.
Arguments parked_ok {St Op Val} on_settle R e.
Arguments never_throws {St Op Val A} p.
Arguments parked_calm {St Op Val} e.
Arguments spawns_calm {St Op Val A} p.
Arguments rest {St Op Val} on_call on_settle I p s ops K.
Arguments parked_rest {St Op Val} on_call on_settle I e.

End Async.

Import Async.

Declare Scope async_scope.
Delimit Scope async_scope with async.
Notation "x <- m ;; k" := (bind m (fun x => k))
  (at level 61, m at next level, right associativity) : async_scope.
Notation "m ;; k" := (bind m (fun _ => k))
  (at level 61, right associativity) : async_scope.
Open Scope async_scope.

(** [list.forEach(f)] for a callback that does not throw into the loop. *)
Fixpoint forEach {St Op Val X : Type} (f : X -> async St Op Val unit) (l : list X)
  : async St Op Val unit :=
  match l with
  | [] => Ret tt
  | x :: t => f x ;; forEach f t
  end.

(** ** The QR-code scanner, [src/components/QRCodeScanner.tsx] *)

Module Scanner.

(** The operations the component awaits: the permission query, the probe
    acquisition [getUserMedia], and [start], [stop], [clear] of a decoding
    engine, identified by the handle of the [Html5Qrcode] instance. *)
Inductive op : Type :=
| PermQuery
| GetUserMedia
| EngStart (h : nat)
| EngStop (h : nat)
| EngClear (h : nat).

(** What these operations resolve with: a [PermissionStatus] with its
    [state], a [MediaStream] with its tracks, or nothing of interest. *)
Inductive value : Type :=
| VUndefined
| VPermission (state : string)
| VStream (tracks : list nat).

(** Calls that cross the component's boundary, in the order they happen. *)
Inductive event : Type :=
| Call (o : op)
| Settled (o : op) (r : outcome value)
| TrackStop (t : nat)
| NewScanner (h : nat)
| ScanSuccess (text : string)
| Close
| ConsoleLog (msg : string)
| ConsoleError (msg : string).

(** The [open] prop of the last render, the four [useState] cells, the
    [scannerRef], a supply of handles for [new Html5Qrcode], and the trace. *)
Record state : Type := mkState {
  open : bool;
  isScanning : bool;
  error : option string;
  permissionError : bool;
  isRequestingPermission : bool;
  scannerRef : option nat;
  nextId : nat;
  trace : list event
}.

(** [navigator.mediaDevices.getUserMedia] and [navigator.permissions.query]
    may be missing. *)
Record platform : Type := mkPlatform {
  hasGetUserMedia : bool;
  hasPermQuery : bool
}.

Definition task : Type -> Type := async state op value.
Definition conf : Type := config state op value.

Definition with_open (b : bool) (s : state) : state :=
  mkState b (isScanning s) (error s) (permissionError s)
          (isRequestingPermission s) (scannerRef s) (nextId s) (trace s).
Definition with_isScanning (b : bool) (s : state) : state :=
  mkState (open s) b (error s) (permissionError s)
          (isRequestingPermission s) (scannerRef s) (nextId s) (trace s).
Definition with_error (e : option string) (s : state) : state :=
  mkState (open s) (isScanning s) e (permissionError s)
          (isRequestingPermission s) (scannerRef s) (nextId s) (trace s).
Definition with_permissionError (b : bool) (s : state) : state :=
  mkState (open s) (isScanning s) (error s) b
          (isRequestingPermission s) (scannerRef s) (nextId s) (trace s).
Definition with_isRequestingPermission (b : bool) (s : state) : state :=
  mkState (open s) (isScanning s) (error s) (permissionError s)
          b (scannerRef s) (nextId s) (trace s).
Definition with_scannerRef (r : option nat) (s : state) : state :=
  mkState (open s) (isScanning s) (error s) (permissionError s)
          (isRequestingPermission s) r (nextId s) (trace s).
Definition with_nextId (n : nat) (s : state) : state :=
  mkState (open s) (isScanning s) (error s) (permissionError s)
          (isRequestingPermission s) (scannerRef s) n (trace s).
Definition log (e : event) (s : state) : state :=
  mkState (open s) (isScanning s) (error s) (permissionError s)
          (isRequestingPermission s) (scannerRef s) (nextId s) (trace s ++ [e]).

Definition setIsScanning (b : bool) : task unit := modify (with_isScanning b).
Definition setError (e : option string) : task unit := modify (with_error e).
Definition setPermissionError (b : bool) : task unit := modify (with_permissionError b).
Definition setIsRequestingPermission (b : bool) : task unit :=
  modify (with_isRequestingPermission b).
Definition setScannerRef (r : option nat) : task unit := modify (with_scannerRef r).
Definition emit (e : event) : task unit := modify (log e).

(** The caller's callbacks. *)
Definition onScanSuccess (decodedText : string) : task unit := emit (ScanSuccess decodedText).
Definition onClose : task unit := emit Close.

(** [new Html5Qrcode(scannerId)]: a fresh engine instance on the element
    [#qr-scanner].  That element (lines 196-200) is a child of
    [DialogContent], so it is in the document while the dialog is rendered
    open; when it is not there the constructor of html5-qrcode throws a
    plain string, inside the [try] of [startScanning]. *)
Definition newHtml5Qrcode : task nat :=
  Get (fun s =>
    if open s then
      Put (log (NewScanner (nextId s)) (with_nextId (S (nextId s)) s))
          (Ret (nextId s))
    else Throw (JsOther "HTML Element with id=qr-scanner not found")).

(** The [TypeError] thrown when a property is read off [undefined] or
    [null], or when something that is not a function is called, with the
    message V8 gives it. *)
Definition type_error (message : string) : thrown := JsError "TypeError" message.

(** *** Lines 38-94: [checkCameraPermissions] *)

(** Lines 46-59, the permission query.  [Some b] stands for [return b] out
    of the enclosing function, [None] for falling through to line 61. *)
Definition queryPermission (pf : platform) : task (option bool) :=
  if hasPermQuery pf then
    try_catch
      (permissionStatus <- await PermQuery ;;
       match permissionStatus with
       | VPermission st =>
           if st =? "denied" then
             setPermissionError true ;;
             setError (Some "Camera permission is denied. Please enable camera access in your browser settings and try again.") ;;
             Ret (Some false)
           else Ret None
       | VStream _ => Ret None
       | VUndefined =>
           Throw (type_error "Cannot read properties of undefined (reading 'state')")
       end)
      (fun permError =>
         emit (ConsoleLog "Permission query not supported, trying getUserMedia directly") ;;
         Ret None)
  else Ret None.

(** [stream.getTracks()]. *)
Definition getTracks (v : value) : task (list nat) :=
  match v with
  | VStream tracks => Ret tracks
  | VUndefined =>
      Throw (type_error "Cannot read properties of undefined (reading 'getTracks')")
  | VPermission _ => Throw (type_error "stream.getTracks is not a function")
  end.

(** Lines 67-70: the test stream is stopped at once. *)
Definition releaseProbe (stream : value) : task bool :=
  tracks <- getTracks stream ;;
  forEach (fun track => emit (TrackStop track)) tracks ;;
  setIsRequestingPermission false ;;
  Ret true.

(** Lines 61-70, the probe acquisition. *)
Definition acquireProbe : task bool :=
  setIsRequestingPermission true ;;
  stream <- await GetUserMedia ;;
  releaseProbe stream.

(** Lines 71-93, the classification of an acquisition failure. *)
Definition classifyAcquisitionError (err : thrown) : task bool :=
  setIsRequestingPermission false ;;
  match err with
  | JsError name message =>
      if (name =? "NotAllowedError") || (name =? "PermissionDeniedError") then
        setPermissionError true ;;
        setError (Some "Camera permission is required to scan QR codes. Please allow camera access and try again.") ;;
        Ret false
      else if (name =? "NotFoundError") || (name =? "DevicesNotFoundError") then
        setError (Some "No camera found. Please connect a camera and try again.") ;;
        Ret false
      else if (name =? "NotReadableError") || (name =? "TrackStartError") then
        setError (Some "Camera is already in use by another application. Please close other apps using the camera and try again.") ;;
        Ret false
      else
        setError (Some (or_else message "Failed to access camera. Please check your browser settings.")) ;;
        Ret false
  | JsOther _ =>
      setError (Some "Failed to access camera. Please ensure camera permissions are granted.") ;;
      Ret false
  end.

Definition checkCameraPermissions (pf : platform) : task bool :=
  try_catch
    (if negb (hasGetUserMedia pf) then
       Throw (JsError "Error" "Camera API is not supported in this browser")
     else
       early <- queryPermission pf ;;
       match early with
       | Some b => Ret b
       | None => acquireProbe
       end)
    classifyAcquisitionError.

(** *** Lines 165-176: [stopScanning] *)

(** [scannerRef.current] is read again after the first [await]. *)
Definition stopScanning : task unit :=
  Get (fun s =>
    match scannerRef s with
    | Some h =>
        try_catch
          (await (EngStop h) ;;
           Get (fun s' =>
             match scannerRef s' with
             | Some h' => await (EngClear h') ;; setScannerRef None
             | None =>
                 Throw (type_error "Cannot read properties of null (reading 'clear')")
             end))
          (fun err => emit (ConsoleError "Error stopping QR scanner:"))
    | None => Ret tt
    end) ;;
  setIsScanning false.

(** *** Lines 121-144: the two callbacks handed to [start] *)

Definition onDecoded (decodedText : string) : task unit :=
  Spawn stopScanning
    (onScanSuccess decodedText ;;
     onClose).

Definition benign (errorMessage : string) : bool :=
  includes errorMessage "NotFoundException" ||
  includes errorMessage "No QR code found" ||
  includes errorMessage "QR code parse error" ||
  includes errorMessage "No MultiFormat Readers".

Definition permissionLike (errorMessage : string) : bool :=
  includes errorMessage "Permission" ||
  includes errorMessage "camera" ||
  includes errorMessage "NotAllowedError" ||
  includes errorMessage "PermissionDeniedError".

Definition onFrameError (errorMessage : string) : task unit :=
  if negb (benign errorMessage) then
    if permissionLike errorMessage then
      setPermissionError true ;;
      setError (Some "Camera permission was denied. Please allow camera access and try again.") ;;
      setIsScanning false
    else Ret tt
  else Ret tt.

(** *** Lines 103-163: [startScanning] *)

(** Lines 146-162, the classification of a start-up failure. *)
Definition classifyStartError (err : thrown) : task unit :=
  emit (ConsoleError "Error starting QR scanner:") ;;
  match err with
  | JsError name message =>
      if (name =? "NotAllowedError") || includes message "Permission"
         || includes message "permission" then
        setPermissionError true ;;
        setError (Some "Camera permission is required. Please allow camera access and try again.")
      else if includes message "camera" || includes message "Camera" then
        setError (Some message)
      else
        setError (Some "Failed to start camera. Please ensure camera permissions are granted.")
  | JsOther _ =>
      setError (Some "Failed to start camera. Please ensure camera permissions are granted.")
  end ;;
  setIsScanning false.

Definition startScanning : task unit :=
  try_catch
    (setError None ;;
     setPermissionError false ;;
     setIsScanning true ;;
     html5QrCode <- newHtml5Qrcode ;;
     setScannerRef (Some html5QrCode) ;;
     await (EngStart html5QrCode) ;;
     Ret tt)
    classifyStartError.

(** *** Lines 96-101 and 178-182 *)

Definition startIfPermitted (hasPermission : bool) : task unit :=
  if hasPermission then Spawn startScanning (Ret tt) else Ret tt.

Definition checkPermissionsAndStart (pf : platform) : task unit :=
  hasPermission <- checkCameraPermissions pf ;;
  startIfPermitted hasPermission.

(** What [checkPermissionsAndStart] has parked while [getUserMedia] is in
    flight: the rest of the [try] of [checkCameraPermissions] (lines 63-70)
    under its [catch], then lines 98-100. *)
Definition resumeAcquisition (r : outcome value) : task unit :=
  hasPermission <-
    try_catch
      (stream <- match r with Resolved v => Ret v | Rejected e => Throw e end ;;
       releaseProbe stream)
      classifyAcquisitionError ;;
  startIfPermitted hasPermission.

Definition handleRetry (pf : platform) : task unit :=
  setError None ;;
  setPermissionError false ;;
  checkPermissionsAndStart pf ;;
  Ret tt.

(** *** Lines 21-35: the effect on [open] and its cleanup *)

Definition effect (pf : platform) (isOpen : bool) : task unit :=
  if isOpen then
    setError None ;;
    setPermissionError false ;;
    Spawn (checkPermissionsAndStart pf) (Ret tt)
  else
    Spawn stopScanning (Ret tt).

Definition cleanup : task unit := Spawn stopScanning (Ret tt).

(** *** The rendered surface, lines 184-278

    What the render offers depends on the state cells only.  The phase of
    the session is read off the same conditions: the spinner (line 204), the
    error box with or without the permission hint (lines 220-227), the
    scanning hint (line 270), the "Start Camera" button (line 262). *)

Inductive phase : Type :=
| Idle
| RequestingPermission
| Scanning
| Error
| PermissionDenied.

Definition phase_of (s : state) : phase :=
  if isRequestingPermission s then RequestingPermission
  else if truthy (error s) then
    if permissionError s then PermissionDenied else Error
  else if isScanning s then Scanning
  else Idle.

(** Line 262: the "Start Camera" button is rendered, inside the open dialog. *)
Definition startOffered (s : state) : bool :=
  open s && negb (truthy (error s)) && negb (isScanning s)
  && negb (isRequestingPermission s).

(** Lines 247-248: the "Retry" button is rendered and not disabled. *)
Definition retryOffered (s : state) : bool :=
  open s && truthy (error s) && negb (isRequestingPermission s).

(** *** The component in its environment *)

Definition on_call (o : op) : state -> state := log (Call o).
Definition on_settle (o : op) (r : outcome value) : state -> state := log (Settled o r).

Definition run (p : task unit) (c : conf) : conf := exec on_call p c.
Definition resolve (i : nat) (r : outcome value) (c : conf) : conf :=
  settle on_call on_settle i r c.

(** What the environment can do to a mounted component: render it with a new
    [open] prop, unmount it, click a button, settle a pending operation, or
    (the decoding engine) call one of the two callbacks given to [start]. *)
Inductive input : Type :=
| SetOpen (b : bool)
| Unmount
| ClickStart
| ClickRetry
| ClickCancel
| Settle (i : nat) (r : outcome value)
| Decoded (decodedText : string)
| FrameError (errorMessage : string).

Definition render_open (b : bool) (c : conf) : conf :=
  mkConfig (with_open b (st c)) (pending c) (unhandled c).

(** [useEffect(..., [open])] runs only when [open] differs from the last
    render: first the previous effect's cleanup, then the effect. *)
Definition step (pf : platform) (i : input) (c : conf) : conf :=
  match i with
  | SetOpen b =>
      if Bool.eqb b (open (st c)) then c
      else run (effect pf b) (run cleanup (render_open b c))
  | Unmount => run cleanup c
  | ClickStart =>
      if startOffered (st c) then run (checkPermissionsAndStart pf) c else c
  | ClickRetry =>
      if retryOffered (st c) then run (handleRetry pf) c else c
  | ClickCancel =>
      if open (st c) then run onClose c else c
  | Settle i r => resolve i r c
  | Decoded decodedText => run (onDecoded decodedText) c
  | FrameError errorMessage => run (onFrameError errorMessage) c
  end.

Definition steps (pf : platform) (ins : list input) (c : conf) : conf :=
  fold_left (fun c i => step pf i c) ins c.

Definition initial (isOpen : bool) : conf :=
  mkConfig (mkState isOpen false None false false None 0 []) [] [].

(** The first render runs the effect without a cleanup. *)
Definition mount (pf : platform) (isOpen : bool) : conf :=
  run (effect pf isOpen) (initial isOpen).

(** *** Observations on traces and inputs *)

(** The texts handed to [onScanSuccess], in order. *)
Fixpoint successes (tr : list event) : list string :=
  match tr with
  | [] => []
  | ScanSuccess text :: t => text :: successes t
  | _ :: t => successes t
  end.

(** The texts the engine handed to the decode callback, in order. *)
Fixpoint decodedTexts (ins : list input) : list string :=
  match ins with
  | [] => []
  | Decoded text :: t => text :: decodedTexts t
  | _ :: t => decodedTexts t
  end.

(** The number of [getUserMedia] calls. *)
Fixpoint acquisitions (tr : list event) : nat :=
  match tr with
  | [] => 0
  | Call GetUserMedia :: t => S (acquisitions t)
  | _ :: t => acquisitions t
  end.

(** The number of [start] calls on decoding engines. *)
Fixpoint engineStarts (tr : list event) : nat :=
  match tr with
  | [] => 0
  | Call (EngStart _) :: t => S (engineStarts t)
  | _ :: t => engineStarts t
  end.

Definition is_notify (e : event) : bool :=
  match e with ScanSuccess _ => true | _ => false end.
Definition is_stop_call (e : event) : bool :=
  match e with Call (EngStop _) => true | _ => false end.
Definition is_start_call (e : event) : bool :=
  match e with Call (EngStart _) => true | _ => false end.
Definition is_stop_done (e : event) : bool :=
  match e with Settled (EngStop _) (Resolved _) => true | _ => false end.
Definition is_clear_call (e : event) : bool :=
  match e with Call (EngClear _) => true | _ => false end.

(** "The stream is released before the caller is notified", on a trace: at
    every [onScanSuccess] a [stop()] has already completed.  [done] tells
    whether one has completed so far. *)
Fixpoint released_before_notify (done : bool) (tr : list event) : bool :=
  match tr with
  | [] => true
  | e :: t =>
      if is_notify e then done && released_before_notify done t
      else released_before_notify (done || is_stop_done e) t
  end.

(** The requests to open: a render with [open = true], a click on
    "Start Camera". *)
Definition is_open_request (i : input) : bool :=
  match i with
  | SetOpen true | ClickStart => true
  | _ => false
  end.

(** [close()] carried through: [stopScanning] is called, then its [stop()]
    settles with [r1] and its [clear()] with [r2], as far as they were
    issued.  Each is the operation parked last. *)
Definition close_with (r1 r2 : outcome value) (c : conf) : conf :=
  let n := List.length (pending c) in
  resolve n r2 (resolve n r1 (run stopScanning c)).

Definition resolved : outcome value := Resolved VUndefined.

(** Two states whose traces hold the same calls of [onScanSuccess]. *)
Definition sameNotifications (s s' : state) : Prop :=
  successes (trace s) = successes (trace s').

(** The permission query answered "denied". *)
Definition deniedOutright (q : outcome value) : bool :=
  match q with
  | Resolved (VPermission st) => st =? "denied"
  | _ => false
  end.

(** *** Invariants of the session *)

(** The state cells agree with each other and with what is pending: the
    permission hint comes with an error message, the scanning flag with an
    engine in [scannerRef], the spinner with a [getUserMedia] in flight. *)
Definition consistent (s : state) (ops : list op) : Prop :=
  (permissionError s = true -> truthy (error s) = true) /\
  (isScanning s = true -> scannerRef s <> None) /\
  (isRequestingPermission s = true -> In GetUserMedia ops).

(** May [e] follow [prev] in a trace?  [clear()] is called only right after
    a [stop()] has resolved, [start] only on the engine just created. *)
Definition allowed (prev : option event) (e : event) : bool :=
  match e with
  | Call (EngClear _) =>
      match prev with
      | Some (Settled (EngStop _) (Resolved _)) => true
      | _ => false
      end
  | Call (EngStart h) =>
      match prev with
      | Some (NewScanner h') => Nat.eqb h h'
      | _ => false
      end
  | _ => true
  end.

Fixpoint in_order (prev : option event) (tr : list event) : bool :=
  match tr with
  | [] => true
  | e :: t => allowed prev e && in_order (Some e) t
  end.

Definition sound (s : state) (ops : list op) : Prop :=
  consistent s ops /\ in_order None (trace s) = true.

(** *** Sample sessions *)

(** A platform with camera capture and the permission query, and one
    without the query. *)
Definition full : platform := mkPlatform true true.
Definition noQuery : platform := mkPlatform true false.

(** A session opened on [full] that reached the scanning hint: permission
    granted, a one-track probe stream, engine [0] started. *)
Definition scanning : conf :=
  steps full
    [Settle 0 (Resolved (VPermission "granted"));
     Settle 0 (Resolved (VStream [7]));
     Settle 0 resolved]
    (mount full true).

(** The same session closed by the caller while [getUserMedia] was still in
    flight. *)
Definition closedInFlight : conf :=
  steps full
    [Settle 0 (Resolved (VPermission "granted"));
     SetOpen false]
    (mount full true).

(** That session opened again before the acquisition of its first run has
    settled: the first run's [getUserMedia] and the new run's permission
    query are both in flight. *)
Definition reopenedInFlight : conf :=
  steps full [SetOpen true] closedInFlight.

(** What [stopScanning] has parked while [stop()] is in flight: the rest
    of its [try] (lines 168-170) under its [catch], then line 175. *)
Definition resumeStop (r : outcome value) : task unit :=
  try_catch
    (match r with Resolved v => Ret v | Rejected e => Throw e end ;;
     Get (fun s' =>
       match scannerRef s' with
       | Some h' => await (EngClear h') ;; setScannerRef None
       | None =>
           Throw (type_error "Cannot read properties of null (reading 'clear')")
       end))
    (fun err => emit (ConsoleError "Error stopping QR scanner:")) ;;
  setIsScanning false.

(** A platform without camera capture. *)
Definition noCamera : platform := mkPlatform false true.

(** The scanning session closed and opened again at once: the [stop()]
    calls on engine [0] (two for the close, one for the cleanup before the
    effect runs again) are still pending when the new run has created and
    started engine [1]. *)
Definition reopened : conf :=
  steps full
    [SetOpen false;
     SetOpen true;
     Settle 3 (Resolved (VPermission "granted"));
     Settle 3 (Resolved (VStream [8]));
     Settle 3 resolved]
    scanning.

(** A session opened on [noQuery] whose acquisition found no camera. *)
Definition failed : conf :=
  steps noQuery
    [Settle 0 (Rejected (JsError "NotFoundError" "Requested device not found"))]
    (mount noQuery true).

End Scanner.

(** ** The admin route guard, [AdminRoute] *)

Module AdminRoute.

Inductive op : Type :=
| GetProfile.

(** What [apiClient.getProfile()] resolves with: a [User], of which only
    [isAdmin] is read. *)
Inductive value : Type :=
| VUser (isAdmin : bool)
| VUndefined.

Inductive event : Type :=
| Call (o : op)
| Settled (o : op) (r : outcome value)
| ToastError (msg : string)
| Navigate (path : string)
| ClearToken
| ConsoleError (msg : string).

(** The [checking] cell and the trace of calls. *)
Record state : Type := mkState {
  checking : bool;
  trace : list event
}.

Definition task : Type -> Type := async state op value.
Definition conf : Type := config state op value.

Definition with_checking (b : bool) (s : state) : state := mkState b (trace s).
Definition log (e : event) (s : state) : state := mkState (checking s) (trace s ++ [e]).

Definition setChecking (b : bool) : task unit := modify (with_checking b).
Definition emit (e : event) : task unit := modify (log e).

(** [user.isAdmin]. *)
Definition isAdminOf (user : value) : task bool :=
  match user with
  | VUser isAdmin => Ret isAdmin
  | VUndefined => Throw (JsError "TypeError" "Cannot read properties of undefined")
  end.

(** Lines 17-40; [token] is what [localStorage.getItem("auth_token")]
    returns. *)
Definition verifyAdmin (token : option string) : task unit :=
  if negb (truthy token) then
    emit (ToastError "Please login first") ;;
    emit (Navigate "/login") ;;
    Ret tt
  else
    try_catch
      (user <- await GetProfile ;;
       isAdmin <- isAdminOf user ;;
       if negb isAdmin then
         emit (ToastError "Access denied: Admins only") ;;
         emit (Navigate "/dashboard") ;;
         Ret tt
       else
         setChecking false)
      (fun err =>
         emit (ConsoleError "Failed to verify admin:") ;;
         emit (ToastError "Session expired. Please login again") ;;
         emit ClearToken ;;
         emit (Navigate "/login")).

(** Lines 45-56. *)
Inductive view : Type :=
| Loader
| Children.

Definition render (s : state) : view :=
  if checking s then Loader else Children.

Definition on_call (o : op) : state -> state := log (Call o).
Definition on_settle (o : op) (r : outcome value) : state -> state := log (Settled o r).

Definition run (p : task unit) (c : conf) : conf := exec on_call p c.
Definition resolve (i : nat) (r : outcome value) (c : conf) : conf :=
  settle on_call on_settle i r c.

(** The effect runs [verifyAdmin] at mount and whenever [navigate] changes;
    the environment settles pending profile fetches. *)
Inductive input : Type :=
| RunEffect (token : option string)
| Settle (i : nat) (r : outcome value).

Definition step (i : input) (c : conf) : conf :=
  match i with
  | RunEffect token => run (Spawn (verifyAdmin token) (Ret tt)) c
  | Settle i r => resolve i r c
  end.

Definition steps (ins : list input) (c : conf) : conf :=
  fold_left (fun c i => step i c) ins c.

(** [useState(true)]. *)
Definition initial : conf := mkConfig (mkState true []) [] [].

(** A profile fetch has completed successfully and reported an admin. *)
Definition adminConfirmed (tr : list event) : Prop :=
  In (Settled GetProfile (Resolved (VUser true))) tr.

(** The children are on display only with an admin confirmed. *)
Definition guarded (s : state) : Prop :=
  checking s = false -> adminConfirmed (trace s).

Definition keepsGuard (s s' : state) : Prop := guarded s -> guarded s'.

(** [checking], once lowered, stays lowered. *)
Definition staysShown (s s' : state) : Prop :=
  checking s = false -> checking s' = false.

(** A mounted guard: a token in [localStorage], the profile fetch in
    flight. *)
Definition fetching : conf := step (RunEffect (Some "token")) initial.

End AdminRoute.

(** ** The language switcher, [src/components/LanguageSwitcher.tsx] *)

Module LanguageSwitcher.

Record Language : Type := mkLanguage {
  code : string;
  name : string;
  nativeName : string;
  countryCode : string;
  abbreviation : string
}.

(** Lines 21-43. *)
Definition languages : list Language :=
  [ mkLanguage "en" "English" "English" "US" "us";
    mkLanguage "ar" "Arabic" "العربية" "SA" "ar";
    mkLanguage "fr" "French" "Français" "FR" "fr" ].

(** Line 49: [languages.find(...) || languages[0]]; [language] is
    [i18n.language]. *)
Definition currentLanguage (language : string) : option Language :=
  match find (fun lang => code lang =? language) languages with
  | Some lang => Some lang
  | None => nth_error languages 0
  end.

(** Line 102: the check mark of a menu item. *)
Definition checked (language : string) (item : Language) : bool :=
  language =? code item.

(** [classList.toggle(token, force)] on the ordered set of class names. *)
Definition toggle (token : string) (force : bool) (classes : list string) : list string :=
  if force then
    if existsb (String.eqb token) classes then classes else classes ++ [token]
  else filter (fun c => negb (c =? token)) classes.

(** The [isOpen] cell, the attributes [dir] and [lang] of the document
    element, the classes of the body, and the calls of
    [i18n.changeLanguage]. *)
Record state : Type := mkState {
  isOpen : bool;
  dir : string;
  lang : string;
  bodyClasses : list string;
  changes : list string
}.

(** Lines 51-62. *)
Definition changeLanguage (languageCode : string) (s : state) : state :=
  let isRTL := languageCode =? "ar" in
  mkState false
          (if isRTL then "rtl" else "ltr")
          languageCode
          (toggle "rtl" isRTL (bodyClasses s))
          (changes s ++ [languageCode]).

(** Line 87: the menu items call [changeLanguage] with the codes of the
    table. *)
Definition clickItem (i : nat) (s : state) : state :=
  match nth_error languages i with
  | Some language => changeLanguage (code language) s
  | None => s
  end.

End LanguageSwitcher.

(** ** Regular expressions over UTF-16 code units *)

(** A JavaScript string is a sequence of 16-bit code units; [length] counts
    them and a character class of a pattern without the [u] flag matches
    one of them. *)
Definition jsstring : Type := list N.

(** An ASCII literal as a JavaScript string. *)
Definition js (s : string) : jsstring := map N_of_ascii (list_ascii_of_string s).

Definition jseq (a b : jsstring) : bool :=
  if list_eq_dec N.eq_dec a b then true else false.

(** [!s] on a string: the empty string is falsy. *)
Definition isEmpty (s : jsstring) : bool :=
  match s with [] => true | _ => false end.

Module Regex.

Inductive regex : Type :=
| Void
| Eps
| Class (p : N -> bool)
| Seq (r1 r2 : regex)
| Alt (r1 r2 : regex)
| Star (r : regex).

Definition Chr (c : N) : regex := Class (N.eqb c).
Definition Plus (r : regex) : regex := Seq r (Star r).

Fixpoint nullable (r : regex) : bool :=
  match r with
  | Void => false
  | Eps => true
  | Class _ => false
  | Seq r1 r2 => nullable r1 && nullable r2
  | Alt r1 r2 => nullable r1 || nullable r2
  | Star _ => true
  end.

(** What is left of [r] to match after the code unit [c]. *)
Fixpoint deriv (c : N) (r : regex) : regex :=
  match r with
  | Void => Void
  | Eps => Void
  | Class p => if p c then Eps else Void
  | Seq r1 r2 =>
      if nullable r1 then Alt (Seq (deriv c r1) r2) (deriv c r2)
      else Seq (deriv c r1) r2
  | Alt r1 r2 => Alt (deriv c r1) (deriv c r2)
  | Star r1 => Seq (deriv c r1) (Star r1)
  end.

(** [/^r$/.test(s)]. *)
Definition test (r : regex) (s : jsstring) : bool :=
  nullable (fold_left (fun r c => deriv c r) s r).

(** The strings a pattern stands for. *)
Inductive star (L : jsstring -> Prop) : jsstring -> Prop :=
| star_nil : star L []
| star_app (s1 s2 : jsstring) : L s1 -> star L s2 -> star L (s1 ++ s2).

Fixpoint lang (r : regex) (s : jsstring) : Prop :=
  match r with
  | Void => False
  | Eps => s = []
  | Class p => exists c, s = [c] /\ p c = true
  | Seq r1 r2 => exists s1 s2, s = s1 ++ s2 /\ lang r1 s1 /\ lang r2 s2
  | Alt r1 r2 => lang r1 s \/ lang r2 s
  | Star r1 => star (lang r1) s
  end.

(** [\s]: the white space and line terminator code units of ECMAScript. *)
Definition isSpace (c : N) : bool :=
  ((9 <=? c) && (c <=? 13) || (c =? 32) || (c =? 160) || (c =? 5760)
   || (8192 <=? c) && (c <=? 8202)
   || (c =? 8232) || (c =? 8233) || (c =? 8239) || (c =? 8287)
   || (c =? 12288) || (c =? 65279))%N.

End Regex.

(** ** The profile page, [src/pages/Profile.tsx]: the forms *)

Module Profile.
Import Regex.

(** Line 199: [/^[^\s@]+@[^\s@]+\.[^\s@]+$/]. *)
Definition plain (c : N) : bool := negb (isSpace c || (c =? 64)%N).

Definition emailRegex : regex :=
  Seq (Plus (Class plain))
      (Seq (Chr 64)
           (Seq (Plus (Class plain))
                (Seq (Chr 46) (Plus (Class plain))))).

(** A [File] of the file input: its MIME type and its size in bytes. *)
Record file : Type := mkFile {
  fileId : nat;
  fileType : jsstring;
  fileSize : N
}.

(** A text shown in a toast: a literal of the source, or a string that came
    from the server. *)
Inductive text : Type :=
| Lit (s : string)
| Dyn (s : jsstring).

(** What the operations below resolve with: a [Response] with its [ok], a
    parsed body with its [message] (or [null]), the result of a reader. *)
Inductive value : Type :=
| VUndefined
| VResponse (ok : bool)
| VBody (message : option jsstring)
| VNull
| VData (result : jsstring).

(** The argument of [updateProfileMutation.mutateAsync]; the avatar is
    [reader.result] as the reader gave it. *)
Inductive update : Type :=
| UpdEmail (email : jsstring)
| UpdUsername (username : jsstring)
| UpdAvatar (avatar : value).

(** The operations the handlers wait for: the [fetch] of line 130 with its
    token and its JSON body, [res.json()], [mutateAsync] of the profile
    mutation, and the two [FileReader] reads. *)
Inductive op : Type :=
| ChangePasswordRequest (token : option jsstring) (currentPassword newPassword : jsstring)
| ResJson
| MutateAsync (u : update)
| ReadAsDataURL (f : file)
| ReadPreview (f : file).

Inductive event : Type :=
| Call (o : op)
| Settled (o : op) (r : outcome value)
| Toast (title : string) (description : text) (destructive : bool)
| ClearFileInput.

Record passwords : Type := mkPasswords {
  currentPassword : jsstring;
  newPassword : jsstring;
  confirmPassword : jsstring
}.

Record emails : Type := mkEmails {
  newEmail : jsstring;
  confirmEmail : jsstring
}.

(** The cells written by the handlers (lines 47-66) and the trace. *)
Record state : Type := mkState {
  changing : bool;
  passwordData : passwords;
  changingEmail : bool;
  changingUsername : bool;
  emailData : emails;
  newUsername : jsstring;
  profilePicture : option file;
  profilePicturePreview : option jsstring;
  uploadingPicture : bool;
  trace : list event
}.

Definition task : Type -> Type := async state op value.
Definition conf : Type := config state op value.

Definition with_changing (b : bool) (s : state) : state :=
  mkState b (passwordData s) (changingEmail s) (changingUsername s) (emailData s)
          (newUsername s) (profilePicture s) (profilePicturePreview s)
          (uploadingPicture s) (trace s).
Definition with_passwordData (d : passwords) (s : state) : state :=
  mkState (changing s) d (changingEmail s) (changingUsername s) (emailData s)
          (newUsername s) (profilePicture s) (profilePicturePreview s)
          (uploadingPicture s) (trace s).
Definition with_changingEmail (b : bool) (s : state) : state :=
  mkState (changing s) (passwordData s) b (changingUsername s) (emailData s)
          (newUsername s) (profilePicture s) (profilePicturePreview s)
          (uploadingPicture s) (trace s).
Definition with_changingUsername (b : bool) (s : state) : state :=
  mkState (changing s) (passwordData s) (changingEmail s) b (emailData s)
          (newUsername s) (profilePicture s) (profilePicturePreview s)
          (uploadingPicture s) (trace s).
Definition with_emailData (d : emails) (s : state) : state :=
  mkState (changing s) (passwordData s) (changingEmail s) (changingUsername s) d
          (newUsername s) (profilePicture s) (profilePicturePreview s)
          (uploadingPicture s) (trace s).
Definition with_newUsername (u : jsstring) (s : state) : state :=
  mkState (changing s) (passwordData s) (changingEmail s) (changingUsername s)
          (emailData s) u (profilePicture s) (profilePicturePreview s)
          (uploadingPicture s) (trace s).
Definition with_profilePicture (f : option file) (s : state) : state :=
  mkState (changing s) (passwordData s) (changingEmail s) (changingUsername s)
          (emailData s) (newUsername s) f (profilePicturePreview s)
          (uploadingPicture s) (trace s).
Definition with_profilePicturePreview (d : option jsstring) (s : state) : state :=
  mkState (changing s) (passwordData s) (changingEmail s) (changingUsername s)
          (emailData s) (newUsername s) (profilePicture s) d
          (uploadingPicture s) (trace s).
Definition with_uploadingPicture (b : bool) (s : state) : state :=
  mkState (changing s) (passwordData s) (changingEmail s) (changingUsername s)
          (emailData s) (newUsername s) (profilePicture s) (profilePicturePreview s)
          b (trace s).
Definition log (e : event) (s : state) : state :=
  mkState (changing s) (passwordData s) (changingEmail s) (changingUsername s)
          (emailData s) (newUsername s) (profilePicture s) (profilePicturePreview s)
          (uploadingPicture s) (trace s ++ [e]).

Definition setChanging (b : bool) : task unit := modify (with_changing b).
Definition setPasswordData (d : passwords) : task unit := modify (with_passwordData d).
Definition setChangingEmail (b : bool) : task unit := modify (with_changingEmail b).
Definition setChangingUsername (b : bool) : task unit := modify (with_changingUsername b).
Definition setEmailData (d : emails) : task unit := modify (with_emailData d).
Definition setUsernameData (u : jsstring) : task unit := modify (with_newUsername u).
Definition setProfilePicture (f : option file) : task unit := modify (with_profilePicture f).
Definition setProfilePicturePreview (d : option jsstring) : task unit :=
  modify (with_profilePicturePreview d).
Definition setUploadingPicture (b : bool) : task unit := modify (with_uploadingPicture b).
Definition emit (e : event) : task unit := modify (log e).

Definition toast (title : string) (description : text) (destructive : bool) : task unit :=
  emit (Toast title description destructive).

(** [try { m } finally { f }]. *)
Definition finally {A : Type} (m : task A) (f : task unit) : task A :=
  a <- try_catch m (fun e => f ;; Throw e) ;;
  f ;;
  Ret a.

Definition type_error : thrown :=
  JsError "TypeError" "Cannot read properties of null".

(** [res.ok] and [res.json()] need a response. *)
Definition okOf (res : value) : task bool :=
  match res with
  | VResponse ok => Ret ok
  | _ => Throw type_error
  end.

(** [data.message || "An unknown error occurred."]; reading [message] off
    [null] or [undefined] throws. *)
Definition messageOf (data : value) : task text :=
  match data with
  | VNull => Throw type_error
  | VUndefined => Throw type_error
  | VBody (Some m) => Ret (if isEmpty m then Lit "An unknown error occurred." else Dyn m)
  | _ => Ret (Lit "An unknown error occurred.")
  end.

Section Handlers.

(** [localStorage.getItem("auth_token")], [profile?.email] and
    [profile?.username] as the render has them, and the text that
    [error?.response?.data?.message || error?.message || "An unknown error
    occurred."] makes of what was caught. *)
Variable token : option jsstring.
Variable profileEmail : option jsstring.
Variable profileUsername : option jsstring.
Variable describe : thrown -> text.

(** Lines 100-175. *)
Definition handleChangePassword : task unit :=
  Get (fun s =>
    let d := passwordData s in
    if isEmpty (currentPassword d) || isEmpty (newPassword d)
       || isEmpty (confirmPassword d) then
      toast "⚠️ Missing fields" (Lit "Please fill in all password fields.") true
    else if negb (jseq (newPassword d) (confirmPassword d)) then
      toast "❌ Passwords do not match"
            (Lit "Make sure the new and confirm passwords are identical.") true
    else
      finally
        (try_catch
           (setChanging true ;;
            res <- await (ChangePasswordRequest token (currentPassword d) (newPassword d)) ;;
            ok <- okOf res ;;
            data <- await ResJson ;;
            if ok then
              toast "✅ Password changed successfully!"
                    (Lit "Your password has been updated securely.") false ;;
              setPasswordData (mkPasswords [] [] [])
            else
              description <- messageOf data ;;
              toast "❌ Failed to change password" description true)
           (fun _ =>
              toast "⚠️ Network error"
                    (Lit "Something went wrong. Please try again later.") true))
        (setChanging false)).

(** Lines 177-246. *)
Definition handleChangeEmail : task unit :=
  Get (fun s =>
    let d := emailData s in
    if isEmpty (newEmail d) || isEmpty (confirmEmail d) then
      toast "⚠️ Missing fields" (Lit "Please fill in both email fields.") true
    else if negb (jseq (newEmail d) (confirmEmail d)) then
      toast "❌ Emails do not match"
            (Lit "Make sure both email addresses are identical.") true
    else if negb (test emailRegex (newEmail d)) then
      toast "❌ Invalid email" (Lit "Please enter a valid email address.") true
    else if match profileEmail with
            | Some email => jseq (newEmail d) email
            | None => false
            end then
      toast "⚠️ Same email" (Lit "This is already your current email address.") true
    else
      finally
        (try_catch
           (setChangingEmail true ;;
            await (MutateAsync (UpdEmail (newEmail d))) ;;
            toast "✅ Email changed successfully!"
                  (Lit "Your email address has been updated.") false ;;
            setEmailData (mkEmails [] []))
           (fun error => toast "❌ Failed to change email" (describe error) true))
        (setChangingEmail false)).

(** Lines 338-395. *)
Definition handleChangeUsername : task unit :=
  Get (fun s =>
    let u := newUsername s in
    if isEmpty u then
      toast "⚠️ Missing field" (Lit "Please enter a new username.") true
    else if (List.length u <? 3)%nat then
      toast "❌ Invalid username" (Lit "Username must be at least 3 characters long.") true
    else if match profileUsername with
            | Some username => jseq u username
            | None => false
            end then
      toast "⚠️ Same username" (Lit "This is already your current username.") true
    else
      finally
        (try_catch
           (setChangingUsername true ;;
            await (MutateAsync (UpdUsername u)) ;;
            toast "✅ Username changed successfully!"
                  (Lit "Your username has been updated.") false ;;
            setUsernameData [])
           (fun error => toast "❌ Failed to change username" (describe error) true))
        (setChangingUsername false)).

(** Line 263. *)
Definition validImageTypes : list jsstring :=
  [js "image/png"; js "image/jpeg"; js "image/jpg"; js "image/gif"; js "image/webp"].

(** Lines 258-293; [selected] is [e.target.files?.[0]]. *)
Definition handleProfilePictureChange (selected : option file) : task unit :=
  match selected with
  | None => Ret tt
  | Some f =>
      if negb (existsb (jseq (fileType f)) validImageTypes) then
        toast "❌ Invalid file type"
              (Lit "Please select an image file (PNG, JPG, GIF, or WEBP).") true
      else if (5 * 1024 * 1024 <? fileSize f)%N then
        toast "❌ File too large" (Lit "Profile picture must be smaller than 5MB.") true
      else
        setProfilePicture (Some f) ;;
        Await (ReadPreview f)
          (fun r =>
             match r with
             | Resolved (VData result) => setProfilePicturePreview (Some result)
             | _ => setProfilePicturePreview None
             end)
  end.

(** Lines 295-336, with [fileToBase64] of lines 249-256. *)
Definition handleUploadProfilePicture : task unit :=
  Get (fun s =>
    match profilePicture s with
    | None =>
        toast "⚠️ No file selected" (Lit "Please select a profile picture to upload.") true
    | Some f =>
        finally
          (try_catch
             (setUploadingPicture true ;;
              imageData <- await (ReadAsDataURL f) ;;
              await (MutateAsync (UpdAvatar imageData)) ;;
              toast "✅ Profile picture updated!"
                    (Lit "Your profile picture has been updated successfully.") false ;;
              setProfilePicture None ;;
              setProfilePicturePreview None ;;
              emit ClearFileInput)
             (fun error => toast "❌ Failed to upload profile picture" (describe error) true))
          (setUploadingPicture false)
    end).

(** Lines 772-777, the "Cancel" button of the picture. *)
Definition cancelPicture : task unit :=
  setProfilePicture None ;;
  setProfilePicturePreview None ;;
  emit ClearFileInput.

End Handlers.

Definition on_call (o : op) : state -> state := log (Call o).
Definition on_settle (o : op) (r : outcome value) : state -> state := log (Settled o r).

Definition run (p : task unit) (c : conf) : conf := exec on_call p c.
Definition resolve (i : nat) (r : outcome value) (c : conf) : conf :=
  settle on_call on_settle i r c.

(** *** The page and its user *)

(** The three password inputs, by the [key] of lines 805-817. *)
Inductive field : Type := Current | New | Confirm.

(** Lines 831-836: [{ ...passwordData, [key + "Password"]: e.target.value }]. *)
Definition typePassword (k : field) (v : jsstring) : task unit :=
  Get (fun s =>
    let d := passwordData s in
    setPasswordData
      match k with
      | Current => mkPasswords v (newPassword d) (confirmPassword d)
      | New => mkPasswords (currentPassword d) v (confirmPassword d)
      | Confirm => mkPasswords (currentPassword d) (newPassword d) v
      end).

(** Lines 905-907 and 919-921. *)
Definition typeNewEmail (v : jsstring) : task unit :=
  Get (fun s => setEmailData (mkEmails v (confirmEmail (emailData s)))).
Definition typeConfirmEmail (v : jsstring) : task unit :=
  Get (fun s => setEmailData (mkEmails (newEmail (emailData s)) v)).

(** Lines 972-974. *)
Definition typeUsername (v : jsstring) : task unit := setUsernameData v.

(** Lines 760-781: the "Upload Picture" and "Cancel" buttons are rendered
    when a file is chosen and disabled while it is uploaded. *)
Definition pictureButtons (s : state) : bool :=
  match profilePicture s with
  | Some _ => negb (uploadingPicture s)
  | None => false
  end.

(** What the user and the world do to the page.  A click carries what the
    render it was made on had read: the stored token, [profile?.email],
    [profile?.username]. *)
Inductive input : Type :=
| TypePassword (k : field) (v : jsstring)
| TypeNewEmail (v : jsstring)
| TypeConfirmEmail (v : jsstring)
| TypeUsername (v : jsstring)
| ClickChangePassword (token : option jsstring)
| ClickChangeEmail (profileEmail : option jsstring)
| ClickChangeUsername (profileUsername : option jsstring)
| ChooseFile (selected : option file)
| ClickUpload
| ClickCancel
| Settle (i : nat) (r : outcome value).

(** A click on a disabled button does nothing (lines 764, 778, 863, 931,
    986). *)
Definition step (describe : thrown -> text) (i : input) (c : conf) : conf :=
  match i with
  | TypePassword k v => run (typePassword k v) c
  | TypeNewEmail v => run (typeNewEmail v) c
  | TypeConfirmEmail v => run (typeConfirmEmail v) c
  | TypeUsername v => run (typeUsername v) c
  | ClickChangePassword token =>
      if changing (st c) then c else run (handleChangePassword token) c
  | ClickChangeEmail profileEmail =>
      if changingEmail (st c) then c
      else run (handleChangeEmail profileEmail describe) c
  | ClickChangeUsername profileUsername =>
      if changingUsername (st c) then c
      else run (handleChangeUsername profileUsername describe) c
  | ChooseFile selected => run (handleProfilePictureChange selected) c
  | ClickUpload =>
      if pictureButtons (st c) then run (handleUploadProfilePicture describe) c else c
  | ClickCancel =>
      if pictureButtons (st c) then run cancelPicture c else c
  | Settle i r => resolve i r c
  end.

Definition steps (describe : thrown -> text) (ins : list input) (c : conf) : conf :=
  fold_left (fun c i => step describe i c) ins c.

(** Lines 47-66: the cells as [useState] initialises them. *)
Definition initial : conf :=
  mkConfig
    (mkState false (mkPasswords [] [] []) false false (mkEmails [] []) []
             None None false [])
    [] [].

(** The operations in flight that belong to one form. *)
Definition isPasswordOp (o : op) : bool :=
  match o with ChangePasswordRequest _ _ _ | ResJson => true | _ => false end.
Definition isEmailOp (o : op) : bool :=
  match o with MutateAsync (UpdEmail _) => true | _ => false end.
Definition isUsernameOp (o : op) : bool :=
  match o with MutateAsync (UpdUsername _) => true | _ => false end.
Definition isUploadOp (o : op) : bool :=
  match o with ReadAsDataURL _ | MutateAsync (UpdAvatar _) => true | _ => false end.

Definition inFlight (kind : op -> bool) (ops : list op) : nat :=
  List.length (filter kind ops).

(** Each busy flag is up exactly while one operation of its form is in
    flight. *)
Definition busy (s : state) (ops : list op) : Prop :=
  inFlight isPasswordOp ops = Nat.b2n (changing s) /\
  inFlight isEmailOp ops = Nat.b2n (changingEmail s) /\
  inFlight isUsernameOp ops = Nat.b2n (changingUsername s) /\
  inFlight isUploadOp ops = Nat.b2n (uploadingPicture s).

(** The toasts shown since [c]. *)
Definition toasts (tr : list event) : list event :=
  filter (fun e => match e with Toast _ _ _ => true | _ => false end) tr.

Definition calls (tr : list event) : list op :=
  flat_map (fun e => match e with Call o => [o] | _ => [] end) tr.

End Profile.

(** * Facts about the machine *)

Module AsyncFacts.

Section Bodies.
Context {St Op Val : Type}.

Local Abbreviation body := (async St Op Val).

(** Awaiting a body as the last statement of a task is starting it. *)
Lemma bind_ret_unit (p : body unit) : bind p (fun _ => Ret tt) = p.
Proof.
  induction p using task_ind; cbn [bind].
  - now destruct a.
  - reflexivity.
  - f_equal. apply functional_extensionality. assumption.
  - now f_equal.
  - f_equal. apply functional_extensionality. assumption.
  - now f_equal.
Qed.

(** *** Bodies that never throw *)

Lemma never_throws_bind {A B} (m : body A) (f : A -> body B) :
  never_throws m -> (forall a, never_throws (f a)) -> never_throws (bind m f).
Proof.
  intros Hm Hf. induction m; cbn [bind never_throws] in Hm |- *;
    try contradiction; intuition auto.
Qed.

(** A [try] whose handler never throws never throws, whatever its body
    does, as long as the bodies spawned inside do not throw either. *)
Lemma never_throws_try_catch {A} (m : body A) (h : thrown -> body A) :
  spawns_calm m -> (forall e, never_throws (h e)) -> never_throws (try_catch m h).
Proof.
  intros Hm Hh. induction m; cbn [try_catch never_throws spawns_calm] in Hm |- *;
    intuition auto.
Qed.

Lemma spawns_calm_bind {A B} (m : body A) (f : A -> body B) :
  spawns_calm m -> (forall a, spawns_calm (f a)) -> spawns_calm (bind m f).
Proof.
  intros Hm Hf. induction m; cbn [bind spawns_calm] in Hm |- *; intuition auto.
Qed.

Lemma never_throws_calm {A} (m : body A) : never_throws m -> spawns_calm m.
Proof.
  induction m; cbn [never_throws spawns_calm]; intuition auto.
Qed.

Lemma never_throws_forEach {X} (f : X -> body unit) (l : list X) :
  (forall x, never_throws (f x)) -> never_throws (forEach f l).
Proof.
  intro Hf. induction l as [|x l IH]; cbn [forEach]; [exact I|].
  apply never_throws_bind; auto.
Qed.

End Bodies.

Section Facts.
Context {St Op Val : Type}.
Variable on_call : Op -> St -> St.
Variable on_settle : Op -> outcome Val -> St -> St.

Local Abbreviation body := (async St Op Val).
Local Abbreviation cfg := (config St Op Val).

(** *** Relations kept by bodies *)

Section Keeps.
Variable R : St -> St -> Prop.
Hypothesis R_refl : forall s, R s s.
Hypothesis R_trans : forall s1 s2 s3, R s1 s2 -> R s2 s3 -> R s1 s3.
Hypothesis R_call : forall op s, R s (on_call op s).
Hypothesis R_settle : forall op o s, R s (on_settle op o s).

Local Abbreviation keeps := (Async.keeps on_settle R).
Local Abbreviation quiet := (Async.quiet on_settle R).
Local Abbreviation parked_ok := (Async.parked_ok on_settle R).

Lemma keeps_bind {A B} (m : body A) (f : A -> body B) :
  (forall a, quiet (f a)) -> forall s, keeps s m -> keeps s (bind m f).
Proof.
  intro Hf. induction m; cbn [bind Async.keeps]; intros s0 Hm; auto.
  - apply Hf.
  - destruct Hm; split; auto.
  - destruct Hm; split; auto.
Qed.

Lemma quiet_bind {A B} (m : body A) (f : A -> body B) :
  quiet m -> (forall a, quiet (f a)) -> quiet (bind m f).
Proof. intros Hm Hf s. apply keeps_bind; auto. Qed.

Lemma keeps_try_catch {A} (m : body A) (h : thrown -> body A) :
  (forall e, quiet (h e)) -> forall s, keeps s m -> keeps s (try_catch m h).
Proof.
  intro Hh. induction m; cbn [try_catch Async.keeps]; intros s0 Hm; auto.
  - apply Hh.
  - destruct Hm; split; auto.
  - destruct Hm; split; auto.
Qed.

Lemma quiet_try_catch {A} (m : body A) (h : thrown -> body A) :
  quiet m -> (forall e, quiet (h e)) -> quiet (try_catch m h).
Proof. intros Hm Hh s. apply keeps_try_catch; auto. Qed.

Lemma quiet_ret {A} (a : A) : quiet (Ret a : body A).
Proof. intro s. exact I. Qed.

Lemma quiet_throw {A} (e : thrown) : quiet (Throw e : body A).
Proof. intro s. exact I. Qed.

Lemma quiet_modify (f : St -> St) : (forall s, R s (f s)) -> quiet (modify f).
Proof. intros Hf s. cbn. auto. Qed.

Lemma quiet_await (op : Op) : quiet (await op : body Val).
Proof. intros s o s'. destruct o; exact I. Qed.

Lemma quiet_spawn {A} (q : body unit) (k : body A) :
  quiet q -> quiet k -> quiet (Spawn q k).
Proof. intros Hq Hk s. cbn. auto. Qed.

Lemma quiet_get {A} (k : St -> body A) : (forall s, quiet (k s)) -> quiet (Get k).
Proof. intros Hk s. cbn. apply Hk. Qed.

Lemma quiet_forEach {X} (f : X -> body unit) (l : list X) :
  (forall x, quiet (f x)) -> quiet (forEach f l).
Proof.
  intro Hf. induction l as [|x l IH]; cbn [forEach].
  - apply quiet_ret.
  - apply quiet_bind; auto.
Qed.

(** Running a task that keeps [R], from a configuration whose parked
    continuations keep [R], ends in an [R]-related state and parks only
    continuations that keep [R]. *)
Lemma exec_keeps (p : body unit) :
  forall c : cfg,
    keeps (st c) p -> Forall parked_ok (pending c) ->
    R (st c) (st (exec on_call p c)) /\ Forall parked_ok (pending (exec on_call p c)).
Proof.
  induction p using task_ind; cbn [exec Async.keeps]; intros c Hk Hp.
  - auto.
  - auto.
  - apply H; auto.
  - destruct Hk as [HR Hk].
    destruct (IHp (mkConfig s (pending c) (unhandled c)) Hk Hp) as [H1 H2].
    split; [eapply R_trans; eauto | assumption].
  - split; cbn; [apply R_call|].
    apply Forall_app; split; [assumption|].
    constructor; [|constructor]. exact Hk.
  - destruct Hk as [Hq Hk].
    destruct (IHp1 c Hq Hp) as [H1 H2].
    destruct (IHp2 (exec on_call p1 c) (Hk _) H2) as [H3 H4].
    split; [eapply R_trans; eauto | assumption].
Qed.

Lemma Forall_remove_nth {X} (P : X -> Prop) (i : nat) (l : list X) :
  Forall P l -> Forall P (remove_nth i l).
Proof.
  intro H. revert i. induction H as [|x l Hx Hl IH]; intros [|i]; cbn; auto.
Qed.

Lemma settle_keeps (i : nat) (o : outcome Val) (c : cfg) :
  Forall parked_ok (pending c) ->
  R (st c) (st (settle on_call on_settle i o c)) /\
  Forall parked_ok (pending (settle on_call on_settle i o c)).
Proof.
  intro Hp. unfold settle.
  destruct (nth_error (pending c) i) as [[op k]|] eqn:E; [|auto].
  assert (Hk : parked_ok (op, k)).
  { eapply Forall_forall; [exact Hp|]. eapply nth_error_In; eauto. }
  set (c1 := mkConfig (on_settle op o (st c)) (remove_nth i (pending c)) (unhandled c)).
  destruct (exec_keeps (k o) c1) as [H1 H2].
  - apply (Hk o (st c)).
  - apply Forall_remove_nth. assumption.
  - split; [|assumption].
    eapply R_trans; [apply (R_settle op o)|exact H1].
Qed.

End Keeps.

(** *** Tasks that never throw *)

(** A task that never throws adds no unhandled rejection, and parks only
    continuations that never throw. *)
Lemma exec_never_throws (p : body unit) :
  forall c : cfg,
    never_throws p -> Forall parked_calm (pending c) ->
    unhandled (exec on_call p c) = unhandled c /\
    Forall parked_calm (pending (exec on_call p c)).
Proof.
  induction p using task_ind; cbn [exec never_throws]; intros c Hn Hp.
  - auto.
  - contradiction.
  - apply H; auto.
  - apply (IHp (mkConfig s (pending c) (unhandled c))); auto.
  - split; [reflexivity|]. cbn.
    apply Forall_app; split; [assumption|].
    constructor; [|constructor]. exact Hn.
  - destruct Hn as [Hq Hk].
    destruct (IHp1 c Hq Hp) as [H1 H2].
    destruct (IHp2 (exec on_call p1 c) Hk H2) as [H3 H4].
    split; [congruence | assumption].
Qed.

Lemma settle_never_throws (i : nat) (o : outcome Val) (c : cfg) :
  Forall parked_calm (pending c) ->
  unhandled (settle on_call on_settle i o c) = unhandled c /\
  Forall parked_calm (pending (settle on_call on_settle i o c)).
Proof.
  intro Hp. unfold settle.
  destruct (nth_error (pending c) i) as [[op k]|] eqn:E; [|auto].
  assert (Hk : parked_calm (op, k)).
  { eapply Forall_forall; [exact Hp|]. eapply nth_error_In; eauto. }
  apply (exec_never_throws (k o)
           (mkConfig (on_settle op o (st c)) (remove_nth i (pending c)) (unhandled c))).
  - apply (Hk o).
  - cbn. clear E Hk. revert i.
    induction Hp as [|x l Hx Hl IH]; intros [|i]; cbn; auto.
Qed.

(** *** Invariants at rest *)

Section Rest.
Variable I : St -> list Op -> Prop.

Local Abbreviation rest := (Async.rest on_call on_settle I).
Local Abbreviation parked_rest := (Async.parked_rest on_call on_settle I).

Lemma rest_mono (p : body unit) :
  forall s ops (K K' : St -> list Op -> Prop),
    (forall s1 ops1, K s1 ops1 -> K' s1 ops1) ->
    rest p s ops K -> rest p s ops K'.
Proof.
  induction p using task_ind; cbn [Async.rest]; intros s0 ops K K' HK Hr; auto.
  - eapply H; eauto.
  - eapply IHp; eauto.
  - destruct Hr as [H1 H2]. split; auto.
  - eapply IHp1; [|exact Hr]. cbn beta. intros s1 ops1 Hk. eapply IHp2; eauto.
Qed.

Lemma exec_rest (p : body unit) :
  forall (c : cfg) (K : St -> list Op -> Prop),
    rest p (st c) (map fst (pending c)) K ->
    Forall parked_rest (pending c) ->
    K (st (exec on_call p c)) (map fst (pending (exec on_call p c))) /\
    Forall parked_rest (pending (exec on_call p c)).
Proof.
  induction p using task_ind; cbn [exec Async.rest]; intros c K Hr Hp.
  - auto.
  - auto.
  - apply H; auto.
  - apply (IHp (mkConfig s (pending c) (unhandled c))); auto.
  - destruct Hr as [H1 H2]. cbn. rewrite map_app. cbn. split; [exact H1|].
    apply Forall_app; split; [assumption|].
    constructor; [|constructor]. exact H2.
  - destruct (IHp1 c _ Hr Hp) as [H1 H2]. apply IHp2; assumption.
Qed.

Lemma map_remove_nth {X Y} (f : X -> Y) (i : nat) (l : list X) :
  map f (remove_nth i l) = remove_nth i (map f l).
Proof.
  revert i. induction l as [|x l IH]; intros [|i]; cbn; auto. now rewrite IH.
Qed.

Lemma settle_rest (i : nat) (o : outcome Val) (c : cfg) :
  I (st c) (map fst (pending c)) ->
  Forall parked_rest (pending c) ->
  I (st (settle on_call on_settle i o c))
    (map fst (pending (settle on_call on_settle i o c))) /\
  Forall parked_rest (pending (settle on_call on_settle i o c)).
Proof.
  intros Hi Hp. unfold settle.
  destruct (nth_error (pending c) i) as [[op k]|] eqn:E; [|auto].
  assert (Hk : parked_rest (op, k)).
  { eapply Forall_forall; [exact Hp|]. eapply nth_error_In; eauto. }
  apply (exec_rest (k o)
           (mkConfig (on_settle op o (st c)) (remove_nth i (pending c)) (unhandled c))).
  - cbn [st pending]. rewrite map_remove_nth.
    apply (Hk o (st c) (map fst (pending c)) i Hi).
    cbn. rewrite nth_error_map, E. reflexivity.
  - cbn [pending]. apply Forall_remove_nth. assumption.
Qed.

Lemma In_remove_nth {X} (x y : X) (i : nat) (l : list X) :
  nth_error l i = Some y -> x <> y -> In x l -> In x (remove_nth i l).
Proof.
  revert i. induction l as [|z l IH]; intros [|i]; cbn; try discriminate.
  - intros E Hn [H|H]; [congruence | exact H].
  - intros E Hn [H|H]; [left; exact H | right; eapply IH; eauto].
Qed.

End Rest.

(** *** Settling a parked operation *)

Lemma nth_error_parked {X} (l r : list X) (x : X) :
  nth_error (l ++ x :: r) (List.length l) = Some x.
Proof. induction l; cbn; auto. Qed.

Lemma remove_nth_parked {X} (l r : list X) (x : X) :
  remove_nth (List.length l) (l ++ x :: r) = l ++ r.
Proof. induction l; cbn; [reflexivity | now f_equal]. Qed.

Lemma settle_at (i : nat) (o : outcome Val) (c : cfg) op k :
  nth_error (pending c) i = Some (op, k) ->
  settle on_call on_settle i o c =
  exec on_call (k o)
    (mkConfig (on_settle op o (st c)) (remove_nth i (pending c)) (unhandled c)).
Proof. intro E. unfold settle. now rewrite E. Qed.

Lemma settle_last (o : outcome Val) s p u op k :
  settle on_call on_settle (List.length p) o (mkConfig s (p ++ [(op, k)]) u) =
  exec on_call (k o) (mkConfig (on_settle op o s) p u).
Proof.
  unfold settle. cbn [pending st unhandled].
  rewrite nth_error_parked, remove_nth_parked, app_nil_r. reflexivity.
Qed.

Lemma settle_none (o : outcome Val) s p u :
  settle on_call on_settle (List.length p) o (mkConfig s p u) = mkConfig s p u.
Proof.
  unfold settle. cbn [pending].
  now replace (nth_error p (List.length p)) with
    (@None (Op * (outcome Val -> body unit)))
    by (symmetry; apply nth_error_None; auto).
Qed.

End Facts.
End AsyncFacts.

(** * The scanner: the claims *)

Module ScannerSpec.
Import Scanner AsyncFacts.

(** ** The text filters on the messages of the engine *)

Example includes_inside : includes "OverconstrainedError: camera" "camera" = true.
Proof. reflexivity. Qed.

Example includes_case_sensitive : includes "Camera failed" "camera" = false.
Proof. reflexivity. Qed.

Example includes_empty_needle : includes "abc" "" = true.
Proof. reflexivity. Qed.

Example benign_no_reader :
  benign "No MultiFormat Readers were able to detect the code" = true.
Proof. reflexivity. Qed.

Example frame_error_no_reader_ignored :
  step full (FrameError "No MultiFormat Readers were able to detect the code") scanning
  = scanning.
Proof. reflexivity. Qed.

Example frame_error_not_allowed :
  phase_of (st (step full (FrameError "NotAllowedError: Permission denied") scanning))
  = PermissionDenied.
Proof. reflexivity. Qed.

(** Without the permission query: the acquisition resolves, the tracks of
    the probe stream are stopped once each, the session scans. *)
Example open_without_query :
  let c := steps noQuery [Settle 0 (Resolved (VStream [7; 8])); Settle 0 resolved]
                 (mount noQuery true) in
  phase_of (st c) = Scanning /\
  filter (fun e => match e with TrackStop _ => true | _ => false end) (trace (st c))
  = [TrackStop 7; TrackStop 8].
Proof. vm_compute. split; reflexivity. Qed.

Lemma successes_app (t1 t2 : list event) :
  successes (t1 ++ t2) = successes t1 ++ successes t2.
Proof.
  induction t1 as [|e t1 IH]; cbn; [reflexivity|].
  destruct e; cbn; rewrite IH; reflexivity.
Qed.

Lemma acquisitions_app (t1 t2 : list event) :
  acquisitions (t1 ++ t2) = acquisitions t1 + acquisitions t2.
Proof.
  induction t1 as [|e t1 IH]; cbn; [reflexivity|].
  destruct e as [[]| | | | | | |]; cbn; rewrite IH; reflexivity.
Qed.

Lemma engineStarts_app (t1 t2 : list event) :
  engineStarts (t1 ++ t2) = engineStarts t1 + engineStarts t2.
Proof.
  induction t1 as [|e t1 IH]; cbn; [reflexivity|].
  destruct e as [[]| | | | | | |]; cbn; rewrite IH; reflexivity.
Qed.

Ltac open_conf c :=
  let s := fresh "s" in
  destruct c as [s ? ?]; destruct s; cbn [st pending unhandled] in *;
  cbn [open isScanning error permissionError isRequestingPermission
       scannerRef nextId trace] in *.

(** ** What is parked while the probe acquisition is in flight *)

Lemma acquisition_parked (pf : platform) (c : conf) :
  hasGetUserMedia pf = true ->
  hasPermQuery pf = false ->
  run (checkPermissionsAndStart pf) c =
  mkConfig (log (Call GetUserMedia) (with_isRequestingPermission true (st c)))
           (pending c ++ [(GetUserMedia, resumeAcquisition)])
           (unhandled c).
Proof.
  intros Hg Hq.
  unfold run, checkPermissionsAndStart, checkCameraPermissions, queryPermission.
  rewrite Hg, Hq. reflexivity.
Qed.

(** With the permission query: once the query has settled with anything but
    "denied" (a rejection included), the same continuation is parked. *)
Lemma acquisition_parked_after_query (pf : platform) (c : conf) (q : outcome value) :
  hasGetUserMedia pf = true ->
  hasPermQuery pf = true ->
  deniedOutright q = false ->
  let c1 := resolve (List.length (pending c)) q (run (checkPermissionsAndStart pf) c) in
  pending c1 = pending c ++ [(GetUserMedia, resumeAcquisition)] /\
  isRequestingPermission (st c1) = true /\
  acquisitions (trace (st c1)) = S (acquisitions (trace (st c))).
Proof.
  intros Hg Hq Hd. open_conf c.
  unfold run, resolve, checkPermissionsAndStart, checkCameraPermissions, queryPermission.
  rewrite Hg, Hq. cbn. unfold park. cbn [st pending unhandled].
  rewrite settle_last.
  destruct q as [[|perm|tracks]|e]; cbn in Hd |- *; try rewrite Hd; cbn;
    unfold park; cbn; rewrite !acquisitions_app; cbn;
    repeat split; lia.
Qed.

(** Opening the dialog, or retrying, parks the acquisition with the
    permission flag down. *)
Lemma open_parks_acquisition (pf : platform) (c : conf) (p : task unit) :
  hasGetUserMedia pf = true ->
  hasPermQuery pf = false ->
  p = effect pf true \/ p = handleRetry pf ->
  nth_error (pending (run p c)) (List.length (pending c)) =
    Some (GetUserMedia, resumeAcquisition) /\
  permissionError (st (run p c)) = false.
Proof.
  intros Hg Hq Hp.
  assert (E : run p c = run (effect pf true) c).
  { destruct Hp; subst p; [reflexivity|].
    unfold run, handleRetry, effect.
    cbn [bind setError setPermissionError modify exec].
    rewrite bind_ret_unit. reflexivity. }
  rewrite E. unfold effect, run. cbn [bind setError setPermissionError modify exec].
  fold (run (checkPermissionsAndStart pf)
          (mkConfig (with_permissionError false (with_error None (st c)))
                    (pending c) (unhandled c))).
  rewrite acquisition_parked by assumption.
  cbn [pending st]. split; [apply nth_error_parked | reflexivity].
Qed.

(** ** C1 *)

(** C1 fails as stated: in the scanning session, when the engine decodes
    "ABC123" the caller is notified while [stop()] is still pending; no
    [stop()] has completed and [clear()] has not been called. *)
Lemma C1_counterexample :
  let c := step full (Decoded "ABC123") scanning in
  trace (st c) = trace (st scanning) ++ [Call (EngStop 0); ScanSuccess "ABC123"; Close] /\
  map fst (pending c) = [EngStop 0] /\
  existsb is_stop_done (trace (st c)) = false /\
  existsb is_clear_call (trace (st c)) = false /\
  released_before_notify false (trace (st c)) = false.
Proof. vm_compute. repeat split. Qed.

(** What the decode callback does, line by line: [stopScanning()] runs up
    to its first [await], then the two callbacks of the caller run. *)
Lemma onDecoded_runs (c : conf) (text : string) :
  let c1 := run (onDecoded text) c in
  match scannerRef (st c) with
  | Some h =>
      trace (st c1) = trace (st c) ++ [Call (EngStop h); ScanSuccess text; Close] /\
      isScanning (st c1) = isScanning (st c) /\
      scannerRef (st c1) = Some h /\
      map fst (pending c1) = map fst (pending c) ++ [EngStop h] /\
      forall v,
        let c2 := resolve (List.length (pending c)) (Resolved v) c1 in
        trace (st c2) = trace (st c1) ++ [Settled (EngStop h) (Resolved v); Call (EngClear h)]
  | None =>
      trace (st c1) = trace (st c) ++ [ScanSuccess text; Close] /\
      pending c1 = pending c
  end.
Proof.
  open_conf c. unfold run, onDecoded, stopScanning.
  destruct scannerRef0 as [h|]; cbn.
  - unfold park. cbn. rewrite map_app, <- !app_assoc. cbn.
    repeat split. intro v.
    unfold resolve. rewrite settle_last. cbn.
    rewrite <- !app_assoc. reflexivity.
  - rewrite <- !app_assoc. split; reflexivity.
Qed.

(** C1, as the code has it: the decode callback calls [stopScanning]
    without awaiting it.  With an engine in [scannerRef], [stop()] has been
    called, and only called, when [onScanSuccess] and [onClose] run: it is
    still pending after the callback, the scanning flag is still up, and
    [clear()] is called once that [stop()] has settled.  With no engine in
    [scannerRef] the caller is notified without any [stop()]. *)
Theorem C1_stop_called_not_awaited (pf : platform) (c : conf) (text : string) :
  let c1 := step pf (Decoded text) c in
  match scannerRef (st c) with
  | Some h =>
      trace (st c1) = trace (st c) ++ [Call (EngStop h); ScanSuccess text; Close] /\
      isScanning (st c1) = isScanning (st c) /\
      scannerRef (st c1) = Some h /\
      map fst (pending c1) = map fst (pending c) ++ [EngStop h] /\
      forall v,
        let c2 := resolve (List.length (pending c)) (Resolved v) c1 in
        trace (st c2) = trace (st c1) ++ [Settled (EngStop h) (Resolved v); Call (EngClear h)]
  | None =>
      trace (st c1) = trace (st c) ++ [ScanSuccess text; Close] /\
      pending c1 = pending c
  end.
Proof. cbn [step]. exact (onDecoded_runs c text). Qed.

(** ** C2 *)

(** C2 fails as stated: the session is closed while [getUserMedia] is in
    flight and opened again before it settles.  When the acquisition of
    the first run then resolves, that run creates engine [0] and calls
    [start] on it; the run of the second opening creates and starts engine
    [1], which replaces it in [scannerRef].  When the dialog is closed and
    everything has settled, [stop()] was called on engine [1] only: engine
    [0], started for the session that was closed, was never stopped. *)
Lemma C2_counterexample :
  let c := step full (Settle 0 (Resolved (VStream [7]))) reopenedInFlight in
  let d := steps full
             [Settle 0 (Resolved (VPermission "granted"));
              Settle 1 (Resolved (VStream [8]));
              Settle 0 resolved;
              Settle 0 resolved;
              SetOpen false;
              Settle 0 resolved;
              Settle 0 resolved;
              Settle 0 resolved;
              Settle 0 resolved] c in
  map fst (pending reopenedInFlight) = [GetUserMedia; PermQuery] /\
  engineStarts (trace (st reopenedInFlight)) = 0 /\
  trace (st c) =
    trace (st reopenedInFlight)
    ++ [Settled GetUserMedia (Resolved (VStream [7])); TrackStop 7;
        NewScanner 0; Call (EngStart 0)] /\
  filter is_start_call (trace (st d)) = [Call (EngStart 0); Call (EngStart 1)] /\
  In (Settled (EngStart 0) resolved) (trace (st d)) /\
  filter is_stop_call (trace (st d)) = [Call (EngStop 1); Call (EngStop 1)] /\
  open (st d) = false /\
  pending d = [].
Proof. vm_compute. repeat split. auto 30. Qed.

Lemma exec_stop_tracks (tracks : list nat) :
  forall (k : unit -> task bool) (h : thrown -> task bool) (k' : bool -> task unit)
         (s : state) p u,
    exec on_call
      (bind (try_catch (bind (forEach (fun track => emit (TrackStop track)) tracks) k) h) k')
      (mkConfig s p u) =
    exec on_call (bind (try_catch (k tt) h) k')
      (mkConfig (mkState (open s) (isScanning s) (error s) (permissionError s)
                         (isRequestingPermission s) (scannerRef s) (nextId s)
                         (trace s ++ map TrackStop tracks)) p u).
Proof.
  induction tracks as [|t tracks IH]; intros k h k' s p u.
  - cbn. rewrite app_nil_r. destruct s; reflexivity.
  - cbn [forEach emit modify bind try_catch exec st pending unhandled].
    rewrite IH. cbn. rewrite <- app_assoc. reflexivity.
Qed.

(** C2, as the code has it: whenever the probe acquisition of
    [checkPermissionsAndStart] resolves, in whatever configuration the
    component is by then, every track of the probe stream is stopped at
    once, before anything else is done.  There is no check that the
    session is still the one that asked: [startScanning] is called all the
    same.  With the dialog rendered open (also when it was closed and
    opened again in between) an engine is created and [start] called on
    it.  With the dialog closed the constructor of the engine throws, as
    its element is not in the document: no engine is created or started,
    and the failure is recorded as an error, with the scanning flag
    down. *)
Theorem C2_probe_released_no_session_check (c : conf) (i : nat) (tracks : list nat) :
  nth_error (pending c) i = Some (GetUserMedia, resumeAcquisition) ->
  let c' := resolve i (Resolved (VStream tracks)) c in
  let h := nextId (st c) in
  open (st c') = open (st c) /\
  isRequestingPermission (st c') = false /\
  permissionError (st c') = false /\
  unhandled c' = unhandled c /\
  if open (st c) then
    trace (st c') =
      trace (st c) ++ Settled GetUserMedia (Resolved (VStream tracks))
        :: map TrackStop tracks ++ [NewScanner h; Call (EngStart h)] /\
    error (st c') = None /\
    isScanning (st c') = true /\
    scannerRef (st c') = Some h /\
    map fst (pending c') = map fst (remove_nth i (pending c)) ++ [EngStart h]
  else
    trace (st c') =
      trace (st c) ++ Settled GetUserMedia (Resolved (VStream tracks))
        :: map TrackStop tracks ++ [ConsoleError "Error starting QR scanner:"] /\
    error (st c') =
      Some "Failed to start camera. Please ensure camera permissions are granted." /\
    isScanning (st c') = false /\
    scannerRef (st c') = scannerRef (st c) /\
    pending c' = remove_nth i (pending c).
Proof.
  intro Hp. unfold resolve. rewrite (settle_at _ _ _ _ _ _ _ Hp).
  open_conf c.
  unfold resumeAcquisition, releaseProbe.
  cbn [bind getTracks try_catch].
  rewrite exec_stop_tracks. destruct open0; cbn.
  - unfold park. cbn. rewrite map_app, <- !app_assoc. cbn. repeat split.
  - rewrite <- !app_assoc. cbn. repeat split.
Qed.

(** The session closed in flight, its acquisition resolving with two
    tracks: both are stopped, no engine is created.  The same session
    opened again in between: an engine is created and started. *)
Lemma C2_probe_released_no_session_check_witness :
  let c1 := step full (Settle 0 (Resolved (VStream [7; 8]))) closedInFlight in
  let c2 := step full (Settle 0 (Resolved (VStream [7; 8]))) reopenedInFlight in
  trace (st c1) =
    trace (st closedInFlight) ++ Settled GetUserMedia (Resolved (VStream [7; 8]))
      :: [TrackStop 7; TrackStop 8; ConsoleError "Error starting QR scanner:"] /\
  scannerRef (st c1) = None /\
  pending c1 = [] /\
  trace (st c2) =
    trace (st reopenedInFlight) ++ Settled GetUserMedia (Resolved (VStream [7; 8]))
      :: [TrackStop 7; TrackStop 8; NewScanner 0; Call (EngStart 0)].
Proof.
  destruct (C2_probe_released_no_session_check closedInFlight 0 [7; 8])
    as (_ & _ & _ & _ & H1 & _ & _ & H2 & H3); [reflexivity|].
  destruct (C2_probe_released_no_session_check reopenedInFlight 0 [7; 8])
    as (_ & _ & _ & _ & H4 & _); [reflexivity|].
  split; [exact H1|]. split; [exact H2|]. split; [exact H3 | exact H4].
Defined.

(** ** C3 *)

(** C3: while the dialog is open and scanning, a render with [open] still
    true does not re-run the effect and the "Start Camera" button is not
    rendered, so requests to open change nothing: no further acquisition. *)
Theorem C3_open_while_scanning_is_noop (pf : platform) (c : conf) (ins : list input) :
  open (st c) = true ->
  phase_of (st c) = Scanning ->
  forallb is_open_request ins = true ->
  steps pf ins c = c /\
  acquisitions (trace (st (steps pf ins c))) = acquisitions (trace (st c)).
Proof.
  intros Ho Hph Hins.
  assert (E : steps pf ins c = c).
  { induction ins as [|i ins IH]; [reflexivity|].
    cbn in Hins. apply andb_prop in Hins as [Hi Hins].
    unfold steps in *. cbn [fold_left].
    assert (Es : step pf i c = c).
    { destruct i as [[|]| | | | | | |]; try discriminate Hi; cbn [step].
      - rewrite Ho. reflexivity.
      - unfold startOffered. unfold phase_of in Hph.
        destruct (isRequestingPermission (st c)); [discriminate|].
        destruct (truthy (error (st c))).
        + destruct (permissionError (st c)); discriminate.
        + destruct (isScanning (st c)); [|discriminate].
          rewrite Ho. reflexivity. }
    rewrite Es. apply IH. assumption. }
  split; [exact E | now rewrite E].
Qed.

(** Four requests to open on the scanning session: one acquisition in
    all. *)
Lemma C3_open_while_scanning_is_noop_witness :
  steps full [SetOpen true; ClickStart; SetOpen true; ClickStart] scanning = scanning /\
  acquisitions (trace (st (steps full [SetOpen true; ClickStart; SetOpen true; ClickStart] scanning))) = 1.
Proof.
  destruct (C3_open_while_scanning_is_noop full scanning
              [SetOpen true; ClickStart; SetOpen true; ClickStart])
    as [H1 H2]; [reflexivity | reflexivity | reflexivity |].
  split; [exact H1|]. rewrite H2. reflexivity.
Defined.

(** ** C4 *)

(** C4 fails as stated: the engine hands over a second decoded text while
    the [stop()] issued for the first is still pending, and the caller is
    notified twice in one session. *)
Lemma C4_counterexample :
  let c1 := step full (Decoded "ABC123") scanning in
  let c2 := step full (Decoded "ABC123") c1 in
  map fst (pending c1) = [EngStop 0] /\
  existsb is_stop_done (trace (st c1)) = false /\
  successes (trace (st c2)) = ["ABC123"; "ABC123"] /\
  List.length (successes (trace (st c2))) = 2.
Proof. vm_compute. repeat split. Qed.

(** Two engines, each decoding once.  "Start Camera" is offered while the
    permission query of the opening run is pending; clicking it starts a
    second run, and the engine of the first is dropped from [scannerRef]
    when the second is created.  Both decode: two notifications, and the
    first engine is never asked to stop. *)
Lemma two_engines_two_notifications :
  let c :=
    steps full
      [ClickStart;
       Settle 0 (Resolved (VPermission "granted"));
       Settle 0 (Resolved (VPermission "granted"));
       Settle 0 (Resolved (VStream [7]));
       Settle 0 (Resolved (VStream [8]));
       Settle 0 resolved;
       Settle 0 resolved;
       Decoded "ABC123";
       Decoded "ABC123"]
      (mount full true) in
  startOffered (st (mount full true)) = true /\
  engineStarts (trace (st c)) = 2 /\
  successes (trace (st c)) = ["ABC123"; "ABC123"] /\
  filter is_stop_call (trace (st c)) = [Call (EngStop 1); Call (EngStop 1)].
Proof. vm_compute. repeat split. Qed.

Section Notifications.

Local Abbreviation quiet := (Async.quiet on_settle sameNotifications).
Local Abbreviation parked_ok := (Async.parked_ok on_settle sameNotifications).

Lemma same_refl s : sameNotifications s s.
Proof. reflexivity. Qed.

Lemma same_trans s1 s2 s3 :
  sameNotifications s1 s2 -> sameNotifications s2 s3 -> sameNotifications s1 s3.
Proof. unfold sameNotifications. congruence. Qed.

Lemma same_call o s : sameNotifications s (on_call o s).
Proof. unfold sameNotifications. cbn. rewrite successes_app, app_nil_r. reflexivity. Qed.

Lemma same_settle o r s : sameNotifications s (on_settle o r s).
Proof. unfold sameNotifications. cbn. rewrite successes_app, app_nil_r. reflexivity. Qed.

Lemma same_log e s : is_notify e = false -> sameNotifications s (log e s).
Proof.
  intro H. unfold sameNotifications. cbn. rewrite successes_app.
  destruct e; try discriminate H; cbn; rewrite app_nil_r; reflexivity.
Qed.

Lemma quiet_emit e : is_notify e = false -> quiet (emit e).
Proof. intro H. apply quiet_modify. intro s. apply same_log. exact H. Qed.

Lemma quiet_newHtml5Qrcode : quiet newHtml5Qrcode.
Proof.
  intro s. cbn. destruct (open s); cbn; [|exact I]. split; [|exact I].
  unfold sameNotifications. cbn. rewrite successes_app, app_nil_r. reflexivity.
Qed.

Ltac quiet_step :=
  lazymatch goal with
  | |- Async.quiet _ _ newHtml5Qrcode => apply quiet_newHtml5Qrcode
  | |- Async.quiet _ _ (Ret _) => apply quiet_ret
  | |- Async.quiet _ _ (Throw _) => apply quiet_throw
  | |- Async.quiet _ _ (await _) => apply quiet_await
  | |- Async.quiet _ _ (emit _) => apply quiet_emit; reflexivity
  | |- Async.quiet _ _ (modify _) => apply quiet_modify; intro; reflexivity
  | |- Async.quiet _ _ (bind _ _) => apply quiet_bind; [|intro]
  | |- Async.quiet _ _ (try_catch _ _) => apply quiet_try_catch; [|intro]
  | |- Async.quiet _ _ (Spawn _ _) => apply quiet_spawn
  | |- Async.quiet _ _ (Get _) => apply quiet_get; intro
  | |- Async.quiet _ _ (forEach _ _) => apply quiet_forEach; intro
  | |- Async.quiet _ _ (match ?x with _ => _ end) => destruct x
  end.

Ltac quiet_tac := repeat quiet_step.

Lemma quiet_stopScanning : quiet stopScanning.
Proof. unfold stopScanning, setIsScanning, setScannerRef. quiet_tac. Qed.

Lemma quiet_startScanning : quiet startScanning.
Proof.
  unfold startScanning, classifyStartError, setIsScanning,
    setScannerRef, setError, setPermissionError.
  quiet_tac.
Qed.

Lemma quiet_checkPermissionsAndStart pf : quiet (checkPermissionsAndStart pf).
Proof.
  unfold checkPermissionsAndStart, checkCameraPermissions, queryPermission,
    acquireProbe, releaseProbe, getTracks, classifyAcquisitionError,
    startIfPermitted, setIsRequestingPermission, setError, setPermissionError.
  quiet_tac; apply quiet_startScanning.
Qed.

Lemma quiet_handleRetry pf : quiet (handleRetry pf).
Proof.
  unfold handleRetry, setError, setPermissionError.
  quiet_tac. apply quiet_checkPermissionsAndStart.
Qed.

Lemma quiet_effect pf b : quiet (effect pf b).
Proof.
  unfold effect, setError, setPermissionError.
  quiet_tac; first [apply quiet_checkPermissionsAndStart | apply quiet_stopScanning].
Qed.

Lemma quiet_cleanup : quiet cleanup.
Proof. unfold cleanup. quiet_tac. apply quiet_stopScanning. Qed.

Lemma quiet_onFrameError msg : quiet (onFrameError msg).
Proof.
  unfold onFrameError, setError, setPermissionError, setIsScanning. quiet_tac.
Qed.

Lemma quiet_onClose : quiet onClose.
Proof. unfold onClose. quiet_tac. Qed.

(** A task that notifies nobody, run from the event loop. *)
Lemma run_quiet (p : task unit) (c : conf) :
  quiet p -> Forall parked_ok (pending c) ->
  successes (trace (st (run p c))) = successes (trace (st c)) /\
  Forall parked_ok (pending (run p c)).
Proof.
  intros Hq Hp.
  destruct (exec_keeps on_call on_settle sameNotifications same_refl same_trans
              same_call p c (Hq _) Hp) as [H1 H2].
  split; [symmetry; exact H1 | exact H2].
Qed.

Lemma step_notifications (pf : platform) (i : input) (c : conf) :
  Forall parked_ok (pending c) ->
  successes (trace (st (step pf i c))) = successes (trace (st c)) ++ decodedTexts [i] /\
  Forall parked_ok (pending (step pf i c)).
Proof.
  intro Hp.
  destruct i as [b| | | | |n r|text|msg]; cbn [step decodedTexts];
    rewrite ?app_nil_r.
  - destruct (Bool.eqb b (open (st c))); [auto|].
    destruct (run_quiet cleanup (render_open b c) quiet_cleanup Hp) as [H1 H2].
    destruct (run_quiet (effect pf b) _ (quiet_effect pf b) H2) as [H3 H4].
    split; [|exact H4]. rewrite H3, H1. reflexivity.
  - apply run_quiet; [apply quiet_cleanup | exact Hp].
  - destruct (startOffered (st c)); [|auto].
    apply run_quiet; [apply quiet_checkPermissionsAndStart | exact Hp].
  - destruct (retryOffered (st c)); [|auto].
    apply run_quiet; [apply quiet_handleRetry | exact Hp].
  - destruct (open (st c)); [|auto].
    apply run_quiet; [apply quiet_onClose | exact Hp].
  - destruct (settle_keeps on_call on_settle sameNotifications same_refl same_trans
                same_call same_settle n r c Hp) as [H1 H2].
    split; [symmetry; exact H1 | exact H2].
  - unfold run, onDecoded. cbn [exec].
    destruct (run_quiet stopScanning c quiet_stopScanning Hp) as [H1 H2].
    unfold run in H1, H2.
    destruct (exec on_call stopScanning c) as [s1 p1 u1].
    cbn in *. rewrite !successes_app, H1. cbn. rewrite app_nil_r.
    split; [reflexivity | exact H2].
  - apply run_quiet; [apply quiet_onFrameError | exact Hp].
Qed.

Lemma decodedTexts_cons (i : input) (ins : list input) :
  decodedTexts (i :: ins) = decodedTexts [i] ++ decodedTexts ins.
Proof. destruct i; reflexivity. Qed.

Lemma steps_notifications (pf : platform) (ins : list input) :
  forall c : conf,
    Forall parked_ok (pending c) ->
    successes (trace (st (steps pf ins c))) =
    successes (trace (st c)) ++ decodedTexts ins.
Proof.
  induction ins as [|i ins IH]; intros c Hp.
  - cbn. now rewrite app_nil_r.
  - destruct (step_notifications pf i c Hp) as [H1 H2].
    unfold steps in *. cbn [fold_left].
    rewrite (decodedTexts_cons i ins), (IH _ H2), H1, app_assoc. reflexivity.
Qed.

Lemma mount_notifications (pf : platform) (b : bool) :
  successes (trace (st (mount pf b))) = [] /\
  Forall parked_ok (pending (mount pf b)).
Proof.
  unfold mount.
  apply (run_quiet (effect pf b) (initial b)); [apply quiet_effect | constructor].
Qed.

End Notifications.

(** C4, as the code has it: on any platform and under any behaviour of the
    environment, the texts handed to [onScanSuccess] are exactly the texts
    the engine handed to the decode callback, one call for each, in order;
    and each such call is followed at once by [onClose].  The component
    itself does not stop a second decode callback from notifying again. *)
Theorem C4_one_notification_per_decode (pf : platform) (isOpen : bool) (ins : list input) :
  successes (trace (st (steps pf ins (mount pf isOpen)))) = decodedTexts ins /\
  forall (c : conf) (text : string),
    exists calls,
      trace (st (step pf (Decoded text) c)) =
        trace (st c) ++ calls ++ [ScanSuccess text; Close] /\
      successes calls = [].
Proof.
  split.
  - destruct (mount_notifications pf isOpen) as [H1 H2].
    rewrite (steps_notifications pf ins _ H2), H1. reflexivity.
  - intros c text.
    cbn [step]. pose proof (onDecoded_runs c text) as H. cbn zeta in H.
    destruct (scannerRef (st c)) as [h|].
    + exists [Call (EngStop h)]. destruct H as [H _]. rewrite H. split; reflexivity.
    + exists []. destruct H as [H _]. rewrite H. split; reflexivity.
Qed.

(** ** C5 *)

(** C5: the "Retry" button exists only while an error is shown, so a retry
    does nothing in the idle, scanning and requesting phases.  In the two
    error phases (with the dialog rendered) it lowers the permission flag
    and runs the sequence of an opening, from the same first call on: with
    camera capture the error is cleared and the permission query (or, on a
    platform without it, [getUserMedia], with the spinner up) is called and
    left pending; without camera capture the "not supported" error is shown
    again and nothing is called.  The configuration it ends in is the one
    the effect of an opening ends in, continuation included. *)
Theorem C5_retry_only_from_error (pf : platform) (c : conf) :
  let c' := step pf ClickRetry c in
  let first := if hasPermQuery pf then PermQuery else GetUserMedia in
  match phase_of (st c) with
  | Idle | Scanning | RequestingPermission => c' = c
  | Error | PermissionDenied =>
      if open (st c) then
        c' = run (effect pf true) c /\
        permissionError (st c') = false /\
        isScanning (st c') = isScanning (st c) /\
        scannerRef (st c') = scannerRef (st c) /\
        unhandled c' = unhandled c /\
        if hasGetUserMedia pf then
          error (st c') = None /\
          isRequestingPermission (st c') = negb (hasPermQuery pf) /\
          trace (st c') = trace (st c) ++ [Call first] /\
          map fst (pending c') = map fst (pending c) ++ [first]
        else
          error (st c') = Some "Camera API is not supported in this browser" /\
          isRequestingPermission (st c') = false /\
          trace (st c') = trace (st c) /\
          pending c' = pending c
      else c' = c
  end.
Proof.
  cbn zeta. cbn [step]. unfold retryOffered, phase_of.
  destruct (isRequestingPermission (st c)) eqn:Hr.
  - rewrite !andb_false_r. reflexivity.
  - destruct (truthy (error (st c))) eqn:He.
    + rewrite !andb_true_r.
      assert (E : run (handleRetry pf) c = run (effect pf true) c).
      { unfold run, handleRetry, effect.
        cbn [bind setError setPermissionError modify exec].
        rewrite bind_ret_unit. reflexivity. }
      assert (G : if open (st c) then
                    run (handleRetry pf) c = run (effect pf true) c /\
                    permissionError (st (run (handleRetry pf) c)) = false /\
                    isScanning (st (run (handleRetry pf) c)) = isScanning (st c) /\
                    scannerRef (st (run (handleRetry pf) c)) = scannerRef (st c) /\
                    unhandled (run (handleRetry pf) c) = unhandled c /\
                    if hasGetUserMedia pf then
                      error (st (run (handleRetry pf) c)) = None /\
                      isRequestingPermission (st (run (handleRetry pf) c))
                        = negb (hasPermQuery pf) /\
                      trace (st (run (handleRetry pf) c)) =
                        trace (st c)
                        ++ [Call (if hasPermQuery pf then PermQuery else GetUserMedia)] /\
                      map fst (pending (run (handleRetry pf) c)) =
                        map fst (pending c)
                        ++ [if hasPermQuery pf then PermQuery else GetUserMedia]
                    else
                      error (st (run (handleRetry pf) c))
                        = Some "Camera API is not supported in this browser" /\
                      isRequestingPermission (st (run (handleRetry pf) c)) = false /\
                      trace (st (run (handleRetry pf) c)) = trace (st c) /\
                      pending (run (handleRetry pf) c) = pending c
                  else c = c).
      { destruct (open (st c)); [|reflexivity].
        split; [exact E|]. rewrite E. clear E.
        open_conf c. cbn in Hr. subst.
        unfold run, effect, checkPermissionsAndStart, checkCameraPermissions,
          queryPermission.
        destruct (hasGetUserMedia pf), (hasPermQuery pf); cbn;
          unfold park; cbn; rewrite ?map_app; repeat split. }
      destruct (permissionError (st c)), (open (st c)); exact G.
    + rewrite andb_false_r. cbn.
      destruct (isScanning (st c)); reflexivity.
Qed.

(** The session that shows "No camera found": a retry clears the message
    and calls [getUserMedia] again; on the scanning session it does
    nothing.  [handleRetry] has no guard of its own: the gate is the
    render. *)
Example retry_from_error :
  let c' := step noQuery ClickRetry failed in
  phase_of (st failed) = Error /\
  error (st c') = None /\
  phase_of (st c') = RequestingPermission /\
  acquisitions (trace (st c')) = 2 /\
  step full ClickRetry scanning = scanning /\
  run (handleRetry full) scanning <> scanning.
Proof. vm_compute. repeat split. discriminate. Qed.

(** ** C6 *)

(** C6 fails as stated: the frame-level error "Decoder crashed" is neither
    benign nor permission-like, and the session stays as it was, scanning,
    with no error; and the text "camera busy" is a permission denial on the
    frame channel but a plain error on the start-up channel. *)
Lemma C6_counterexample :
  benign "Decoder crashed" = false /\
  permissionLike "Decoder crashed" = false /\
  phase_of (st scanning) = Scanning /\
  step full (FrameError "Decoder crashed") scanning = scanning /\
  phase_of (st (step full (FrameError "Decoder crashed") scanning)) <> Error /\
  phase_of (st (step full (FrameError "camera busy") scanning)) = PermissionDenied /\
  phase_of (st (run (classifyStartError (JsError "Error" "camera busy")) scanning)) = Error.
Proof. vm_compute. repeat split. discriminate. Qed.

(** C6, as the code has it.  On the frame channel a text that is neither
    one of the four benign texts nor permission-like changes nothing at
    all, in any configuration, and a text that is not benign but
    permission-like (which includes every text that mentions "camera") is a
    permission denial with a fixed message.  A generic error comes from
    the start-up channel only: there, for any message without
    "Permission"/"permission" under a name other than [NotAllowedError],
    the message is kept when it mentions "camera" or "Camera" and replaced
    by a fixed text otherwise, and the permission flag is left as it is; a
    thrown value that is not an [Error] gets the fixed text as well. *)
Theorem C6_other_frame_errors_ignored (pf : platform) (c : conf) (msg : string) :
  (benign msg = false -> permissionLike msg = false ->
   step pf (FrameError msg) c = c) /\
  (benign msg = false -> permissionLike msg = true ->
   let c' := step pf (FrameError msg) c in
   permissionError (st c') = true /\
   error (st c') =
     Some "Camera permission was denied. Please allow camera access and try again." /\
   isScanning (st c') = false) /\
  (forall name,
     (name =? "NotAllowedError") = false ->
     includes msg "Permission" = false ->
     includes msg "permission" = false ->
     let c' := run (classifyStartError (JsError name msg)) c in
     error (st c') =
       Some (if includes msg "camera" || includes msg "Camera" then msg
             else "Failed to start camera. Please ensure camera permissions are granted.") /\
     permissionError (st c') = permissionError (st c) /\
     isScanning (st c') = false) /\
  (let c' := run (classifyStartError (JsOther msg)) c in
   error (st c') =
     Some "Failed to start camera. Please ensure camera permissions are granted." /\
   permissionError (st c') = permissionError (st c) /\
   isScanning (st c') = false).
Proof.
  split; [|split; [|split]].
  - intros Hb Hp. cbn [step]. unfold run, onFrameError. rewrite Hb, Hp. reflexivity.
  - intros Hb Hp. open_conf c. cbn [step]. unfold run, onFrameError.
    rewrite Hb, Hp. cbn. repeat split.
  - intros name Hn H1 H2. open_conf c.
    unfold run, classifyStartError. cbn.
    rewrite Hn, H1, H2. cbn.
    destruct (includes msg "camera" || includes msg "Camera"); cbn; auto.
  - open_conf c. cbn. repeat split.
Qed.

(** "Decoder crashed" is dropped on the frame channel and becomes the
    fixed text on the start-up channel; "camera busy" is a permission
    denial on the frame channel and is shown as it is on the start-up
    channel. *)
Lemma C6_other_frame_errors_ignored_witness :
  step full (FrameError "Decoder crashed") scanning = scanning /\
  error (st (run (classifyStartError (JsError "Error" "Decoder crashed")) scanning)) =
    Some "Failed to start camera. Please ensure camera permissions are granted." /\
  permissionError (st (step full (FrameError "camera busy") scanning)) = true /\
  error (st (run (classifyStartError (JsError "Error" "camera busy")) scanning)) =
    Some "camera busy".
Proof.
  destruct (C6_other_frame_errors_ignored full scanning "Decoder crashed")
    as (H1 & _ & H2 & _).
  destruct (C6_other_frame_errors_ignored full scanning "camera busy")
    as (_ & H3 & H4 & _).
  split; [apply H1; reflexivity|].
  split; [apply (H2 "Error"); reflexivity|].
  split; [apply H3; reflexivity|].
  apply (H4 "Error"); reflexivity.
Defined.

(** ** C7 *)

(** C7 fails as stated: the dialog is closed and opened again while the
    [getUserMedia] of its first run is in flight, and the permission query
    of the second run answers "denied".  The permission error and its
    message are recorded, but the spinner of the first run is still up:
    the session shows "Requesting camera permission...", not the
    permission-denied phase. *)
Lemma C7_counterexample :
  let c := step full (Settle 1 (Resolved (VPermission "denied"))) reopenedInFlight in
  map fst (pending reopenedInFlight) = [GetUserMedia; PermQuery] /\
  permissionError (st c) = true /\
  isRequestingPermission (st c) = true /\
  phase_of (st c) = RequestingPermission /\
  phase_of (st c) <> PermissionDenied.
Proof. vm_compute. repeat split. discriminate. Qed.

(** C7, as the code has it: when the permission query answers "denied",
    the permission error is recorded with its message, [getUserMedia] is
    not called by that run, no engine is started and nothing of the run is
    left pending.  The run does not touch the spinner: the session shows
    the permission-denied phase unless an acquisition of another run is in
    flight, whose spinner stays up. *)
Theorem C7_query_denied_no_acquisition (pf : platform) (c : conf) :
  hasGetUserMedia pf = true ->
  hasPermQuery pf = true ->
  let c1 := run (checkPermissionsAndStart pf) c in
  let c2 := resolve (List.length (pending c)) (Resolved (VPermission "denied")) c1 in
  trace (st c2) =
    trace (st c) ++ [Call PermQuery; Settled PermQuery (Resolved (VPermission "denied"))] /\
  permissionError (st c2) = true /\
  error (st c2) =
    Some "Camera permission is denied. Please enable camera access in your browser settings and try again." /\
  isRequestingPermission (st c2) = isRequestingPermission (st c) /\
  phase_of (st c2) =
    (if isRequestingPermission (st c) then RequestingPermission else PermissionDenied) /\
  acquisitions (trace (st c2)) = acquisitions (trace (st c)) /\
  engineStarts (trace (st c2)) = engineStarts (trace (st c)) /\
  pending c2 = pending c /\
  unhandled c2 = unhandled c.
Proof.
  intros Hg Hq. open_conf c.
  unfold run, resolve, checkPermissionsAndStart, checkCameraPermissions, queryPermission.
  rewrite Hg, Hq. cbn.
  unfold park. cbn [st pending unhandled].
  rewrite settle_last. cbn.
  rewrite !acquisitions_app, !engineStarts_app, <- !app_assoc. cbn.
  destruct isRequestingPermission0; repeat split; lia.
Qed.

(** A dialog opened on a platform whose permission query answers
    "denied". *)
Lemma C7_query_denied_no_acquisition_witness :
  let c2 := steps full [Settle 0 (Resolved (VPermission "denied"))] (mount full true) in
  phase_of (st c2) = PermissionDenied /\ acquisitions (trace (st c2)) = 0.
Proof.
  destruct (C7_query_denied_no_acquisition full (initial true))
    as (_ & _ & _ & _ & H1 & H3 & _); try reflexivity.
  split; [exact H1 | exact H3].
Defined.

(** ** C8 *)

(** C8 fails as stated: in the session of the counterexample to C7 the
    permission flag is up while the [getUserMedia] of the first run is
    still in flight; when that acquisition is rejected with
    [NotReadableError], the "in use" message is shown with the permission
    hint: the phase is permission-denied, not error. *)
Lemma C8_counterexample :
  let c := step full (Settle 1 (Resolved (VPermission "denied"))) reopenedInFlight in
  let c' := step full
              (Settle 0 (Rejected (JsError "NotReadableError" "Could not start video source")))
              c in
  map fst (pending c) = [GetUserMedia] /\
  error (st c') =
    Some "Camera is already in use by another application. Please close other apps using the camera and try again." /\
  permissionError (st c') = true /\
  phase_of (st c') = PermissionDenied /\
  phase_of (st c') <> Error.
Proof. vm_compute. repeat split. discriminate. Qed.

(** C8, as the code has it: when the probe acquisition is rejected with
    [NotReadableError] or [TrackStartError], the session shows the "in use"
    message, stops requesting and starts no engine.  The rejection neither
    raises nor lowers the permission flag: the phase is the error phase
    when the flag was down, as an opening or a retry leaves it, and the
    permission-denied phase when it was up. *)
Theorem C8_device_busy_is_error (c : conf) (i : nat) (name message : string) :
  nth_error (pending c) i = Some (GetUserMedia, resumeAcquisition) ->
  name = "NotReadableError" \/ name = "TrackStartError" ->
  let c' := resolve i (Rejected (JsError name message)) c in
  error (st c') =
    Some "Camera is already in use by another application. Please close other apps using the camera and try again." /\
  (exists m, error (st c') = Some m /\ includes m "in use" = true) /\
  permissionError (st c') = permissionError (st c) /\
  isRequestingPermission (st c') = false /\
  phase_of (st c') = (if permissionError (st c) then PermissionDenied else Error) /\
  engineStarts (trace (st c')) = engineStarts (trace (st c)) /\
  pending c' = remove_nth i (pending c) /\
  unhandled c' = unhandled c.
Proof.
  intros Hp Hn. unfold resolve. rewrite (settle_at _ _ _ _ _ _ _ Hp).
  open_conf c.
  assert (Hc : (name =? "NotAllowedError") || (name =? "PermissionDeniedError") = false
               /\ (name =? "NotFoundError") || (name =? "DevicesNotFoundError") = false
               /\ (name =? "NotReadableError") || (name =? "TrackStartError") = true)
    by (destruct Hn; subst name; repeat split; reflexivity).
  destruct Hc as (H1 & H2 & H3).
  unfold resumeAcquisition, classifyAcquisitionError. cbn.
  rewrite H1, H2, H3. cbn.
  rewrite engineStarts_app. cbn.
  repeat split; try lia.
  eexists; split; reflexivity.
Qed.

(** A dialog opened on a platform without the query, the camera held by
    another application: the opening has reset the permission flag, the
    phase is the error phase. *)
Lemma C8_device_busy_is_error_witness :
  let c' := steps noQuery [Settle 0 (Rejected (JsError "NotReadableError" "Could not start video source"))]
                  (mount noQuery true) in
  phase_of (st c') = Error /\
  exists m, error (st c') = Some m /\ includes m "in use" = true.
Proof.
  destruct (C8_device_busy_is_error (mount noQuery true) 0
              "NotReadableError" "Could not start video source")
    as (_ & H2 & _ & _ & H1 & _); [reflexivity | left; reflexivity |].
  split; [exact H1 | exact H2].
Defined.

(** ** C9 *)

(** C9 fails as stated: closing the session that shows "No camera found"
    leaves the error in place; the session is not idle. *)
Lemma C9_counterexample :
  let c := close_with resolved resolved failed in
  phase_of (st failed) = Error /\
  phase_of (st c) = Error /\
  phase_of (st c) <> Idle /\
  error (st c) = Some "No camera found. Please connect a camera and try again.".
Proof. vm_compute. repeat split. discriminate. Qed.

Section NoUnhandled.

Ltac calm_step :=
  lazymatch goal with
  | |- never_throws (Ret _) => exact I
  | |- spawns_calm (Ret _) => exact I
  | |- spawns_calm (Throw _) => exact I
  | |- never_throws (modify _) => intro; exact I
  | |- spawns_calm (modify _) => intro; exact I
  | |- never_throws (emit _) => intro; exact I
  | |- spawns_calm (emit _) => intro; exact I
  | |- spawns_calm (await _) => let o := fresh "o" in intro o; destruct o; exact I
  | |- spawns_calm newHtml5Qrcode =>
      let s := fresh "s" in intro s; destruct (open s); exact I
  | |- never_throws (bind _ _) => apply never_throws_bind; [|intro]
  | |- spawns_calm (bind _ _) => apply spawns_calm_bind; [|intro]
  | |- never_throws (try_catch _ _) => apply never_throws_try_catch; [|intro]
  | |- spawns_calm (try_catch _ _) => apply never_throws_calm
  | |- never_throws (forEach _ _) => apply never_throws_forEach; intro
  | |- spawns_calm (forEach _ _) => apply never_throws_calm
  | |- never_throws (Spawn _ _) => split
  | |- spawns_calm (Spawn _ _) => split
  | |- never_throws (Get _) => intro
  | |- spawns_calm (Get _) => intro
  | |- never_throws (match ?x with _ => _ end) => destruct x
  | |- spawns_calm (match ?x with _ => _ end) => destruct x
  end.

Ltac calm_tac := repeat calm_step.

Lemma calm_stopScanning : never_throws stopScanning.
Proof. unfold stopScanning, setIsScanning, setScannerRef. calm_tac. Qed.

Lemma calm_startScanning : never_throws startScanning.
Proof.
  unfold startScanning, classifyStartError, setIsScanning, setScannerRef,
    setError, setPermissionError.
  calm_tac.
Qed.

Lemma calm_checkPermissionsAndStart pf : never_throws (checkPermissionsAndStart pf).
Proof.
  unfold checkPermissionsAndStart, checkCameraPermissions, queryPermission,
    acquireProbe, releaseProbe, getTracks, classifyAcquisitionError,
    startIfPermitted, setIsRequestingPermission, setError, setPermissionError.
  calm_tac; apply calm_startScanning.
Qed.

Lemma calm_step_input (pf : platform) (i : input) (c : conf) :
  Forall parked_calm (pending c) ->
  unhandled (step pf i c) = unhandled c /\
  Forall parked_calm (pending (step pf i c)).
Proof.
  intro Hp.
  assert (Hrun : forall p c0, never_throws p -> Forall parked_calm (pending c0) ->
             unhandled (run p c0) = unhandled c0 /\
             Forall parked_calm (pending (run p c0)))
    by (intros; apply exec_never_throws; assumption).
  destruct i as [b| | | | |n r|text|msg]; cbn [step].
  - destruct (Bool.eqb b (open (st c))); [auto|].
    destruct (Hrun cleanup (render_open b c)) as [H1 H2];
      [split; [apply calm_stopScanning | exact I] | exact Hp |].
    destruct (Hrun (effect pf b) (run cleanup (render_open b c))) as [H3 H4];
      [|exact H2|split; [rewrite H3, H1; reflexivity | exact H4]].
    unfold effect, setError, setPermissionError.
    destruct b; calm_tac;
      first [apply calm_checkPermissionsAndStart | apply calm_stopScanning].
  - apply Hrun; [split; [apply calm_stopScanning | exact I] | exact Hp].
  - destruct (startOffered (st c)); [|auto].
    apply Hrun; [apply calm_checkPermissionsAndStart | exact Hp].
  - destruct (retryOffered (st c)); [|auto].
    apply Hrun; [|exact Hp].
    unfold handleRetry, setError, setPermissionError. calm_tac.
    apply calm_checkPermissionsAndStart.
  - destruct (open (st c)); [|auto].
    apply Hrun; [|exact Hp]. unfold onClose. calm_tac.
  - apply settle_never_throws. exact Hp.
  - apply Hrun; [|exact Hp].
    unfold onDecoded, onScanSuccess, onClose. calm_tac. apply calm_stopScanning.
  - apply Hrun; [|exact Hp].
    unfold onFrameError, setError, setPermissionError, setIsScanning. calm_tac.
Qed.

(** Nothing the component does ends in an unhandled rejection: every
    failure is caught where it arises. *)
Lemma no_unhandled (pf : platform) (isOpen : bool) (ins : list input) :
  unhandled (steps pf ins (mount pf isOpen)) = [].
Proof.
  assert (H0 : unhandled (mount pf isOpen) = [] /\
               Forall parked_calm (pending (mount pf isOpen))).
  { unfold mount. apply exec_never_throws; [|constructor].
    unfold effect, setError, setPermissionError.
    destruct isOpen; calm_tac;
      first [apply calm_checkPermissionsAndStart | apply calm_stopScanning]. }
  destruct H0 as [H0 H1]. revert H0 H1. generalize (mount pf isOpen).
  induction ins as [|i ins IH]; intros c H0 H1; [exact H0|].
  destruct (calm_step_input pf i c H1) as [H2 H3].
  unfold steps in *. cbn [fold_left]. apply IH; [congruence | exact H3].
Qed.

End NoUnhandled.

(** C9, as the code has it: no run of the component, whenever and however
    often it is closed, ends in an unhandled rejection, and [stopScanning]
    runs to its end whatever [stop()] and [clear()] answer.  It lowers the
    scanning flag
    and touches no other cell, so the scanning and idle phases end idle and
    the error, permission-denied and requesting phases are kept.  With no
    engine in [scannerRef] it calls nothing; with one it calls [stop()],
    then [clear()] only if [stop()] succeeded, and forgets the engine only
    if both succeeded.  After such a successful close, closing again
    changes nothing. *)
Theorem C9_close_never_throws
  (c : conf) (r1 r2 : outcome value)
  (pf : platform) (isOpen : bool) (ins : list input) :
  let c' := close_with r1 r2 c in
  unhandled (steps pf ins (mount pf isOpen)) = [] /\
  unhandled c' = unhandled c /\
  pending c' = pending c /\
  isScanning (st c') = false /\
  error (st c') = error (st c) /\
  permissionError (st c') = permissionError (st c) /\
  isRequestingPermission (st c') = isRequestingPermission (st c) /\
  open (st c') = open (st c) /\
  phase_of (st c') =
    match phase_of (st c) with Scanning => Idle | ph => ph end /\
  scannerRef (st c') =
    match scannerRef (st c), r1, r2 with
    | Some _, Resolved _, Resolved _ => None
    | ref, _, _ => ref
    end /\
  trace (st c') =
    trace (st c) ++
    match scannerRef (st c) with
    | None => []
    | Some h =>
        Call (EngStop h) :: Settled (EngStop h) r1 ::
        match r1 with
        | Resolved _ =>
            Call (EngClear h) :: Settled (EngClear h) r2 ::
            match r2 with
            | Resolved _ => []
            | Rejected _ => [ConsoleError "Error stopping QR scanner:"]
            end
        | Rejected _ => [ConsoleError "Error stopping QR scanner:"]
        end
    end /\
  forall r3 r4,
    scannerRef (st c') = None -> close_with r3 r4 c' = c'.
Proof.
  cbn zeta. split; [apply no_unhandled|].
  open_conf c. unfold close_with, run, resolve, stopScanning, phase_of.
  cbn [st pending unhandled].
  destruct scannerRef0 as [h|]; cbn.
  - unfold park. cbn [st pending unhandled]. rewrite settle_last.
    destruct r1 as [v1|e1]; cbn.
    + unfold park. cbn [st pending unhandled]. rewrite settle_last.
      destruct r2 as [v2|e2]; cbn; rewrite <- !app_assoc; cbn.
      * repeat split.
        -- destruct isRequestingPermission0, (truthy error0), permissionError0,
             isScanning0; reflexivity.
        -- intros r3 r4 _. rewrite !settle_none. reflexivity.
      * repeat split.
        -- destruct isRequestingPermission0, (truthy error0), permissionError0,
             isScanning0; reflexivity.
        -- discriminate.
    + rewrite settle_none. cbn. rewrite <- !app_assoc; cbn.
      repeat split.
      * destruct isRequestingPermission0, (truthy error0), permissionError0,
          isScanning0; reflexivity.
      * discriminate.
  - rewrite !settle_none. cbn. rewrite app_nil_r.
    repeat split.
    + destruct isRequestingPermission0, (truthy error0), permissionError0,
        isScanning0; reflexivity.
    + intros r3 r4 _. rewrite !settle_none. reflexivity.
Qed.

(** Closing the scanning session twice. *)
Lemma C9_close_never_throws_witness :
  close_with resolved (Rejected (JsOther "gone")) (close_with resolved resolved scanning) =
  close_with resolved resolved scanning.
Proof.
  destruct (C9_close_never_throws scanning resolved resolved full true [])
    as (_ & _ & _ & _ & _ & _ & _ & _ & _ & _ & _ & H).
  apply H. reflexivity.
Defined.

(** ** Invariants of every run *)

Section Invariants.

Local Abbreviation rest := (Async.rest on_call on_settle sound).
Local Abbreviation parked_rest := (Async.parked_rest on_call on_settle sound).

Lemma in_order_snoc (prev : option event) (tr : list event) (e : event) :
  in_order prev (tr ++ [e]) =
  in_order prev tr && allowed (fold_left (fun _ x => Some x) tr prev) e.
Proof.
  revert prev. induction tr as [|x tr IH]; intro prev; cbn [app in_order fold_left].
  - now rewrite andb_true_r.
  - rewrite IH, andb_assoc. reflexivity.
Qed.

Lemma last_snoc (prev : option event) (tr : list event) (e : event) :
  fold_left (fun _ x => Some x) (tr ++ [e]) prev = Some e.
Proof. rewrite fold_left_app. reflexivity. Qed.

Lemma In_survives (i : nat) (o : op) (ops : list op) :
  nth_error ops i = Some o -> o <> GetUserMedia ->
  In GetUserMedia ops -> In GetUserMedia (remove_nth i ops).
Proof. intros E Hn Hin. eapply In_remove_nth; eauto. Qed.

Lemma includes_nonempty (m x : string) :
  includes m x = true -> x <> "" -> truthy (Some m) = true.
Proof.
  intros H Hx. destruct m; [|reflexivity].
  destruct x; [congruence | discriminate H].
Qed.

Lemma or_else_truthy (m d : string) : d <> "" -> truthy (Some (or_else m d)) = true.
Proof.
  intro Hd. unfold or_else, truthy.
  destruct (m =? "") eqn:E.
  - destruct (d =? "") eqn:E'; [apply String.eqb_eq in E'; contradiction | reflexivity].
  - now rewrite E.
Qed.

Lemma in_order_tracks (prev : option event) (tr : list event) (tracks : list nat) :
  in_order prev (tr ++ map TrackStop tracks) = in_order prev tr.
Proof.
  induction tracks as [|t tracks IH] using rev_ind.
  - cbn. now rewrite app_nil_r.
  - rewrite map_app. cbn [map].
    rewrite app_assoc, in_order_snoc, IH. cbn. apply andb_true_r.
Qed.

Lemma rest_stop_tracks (I : state -> list op -> Prop) (tracks : list nat) :
  forall (k : unit -> task bool) (h : thrown -> task bool) (k' : bool -> task unit)
         (s : state) ops K,
    Async.rest on_call on_settle I
      (bind (try_catch (bind (forEach (fun track => emit (TrackStop track)) tracks) k) h) k')
      s ops K =
    Async.rest on_call on_settle I (bind (try_catch (k tt) h) k')
      (mkState (open s) (isScanning s) (error s) (permissionError s)
               (isRequestingPermission s) (scannerRef s) (nextId s)
               (trace s ++ map TrackStop tracks)) ops K.
Proof.
  induction tracks as [|t tracks IH]; intros k h k' s ops K.
  - cbn. rewrite app_nil_r. destruct s; reflexivity.
  - cbn [forEach emit modify bind try_catch Async.rest].
    rewrite IH. cbn. rewrite <- app_assoc. reflexivity.
Qed.

Lemma camera_message_nonempty (m : string) :
  includes m "camera" || includes m "Camera" = true -> negb (m =? "") = true.
Proof. destruct m; [discriminate | reflexivity]. Qed.

Ltac sound_tac :=
  unfold sound, consistent in *; cbn in *;
  repeat (rewrite in_order_snoc || rewrite last_snoc || rewrite in_order_tracks); cbn;
  rewrite ?Nat.eqb_refl, ?andb_true_r;
  repeat match goal with
    | H : _ /\ _ |- _ => destruct H
    end;
  repeat split; intros;
  try discriminate; try congruence; auto;
  try (apply camera_message_nonempty; assumption);
  try (rewrite ?andb_true_r; assumption);
  try (apply in_or_app; auto; right; left; reflexivity);
  try (apply in_or_app; left; eapply In_survives; eauto; discriminate);
  try (eapply In_survives; eauto; discriminate);
  try (eapply includes_nonempty; eauto; discriminate);
  try (apply or_else_truthy; discriminate).

Ltac rest_step :=
  lazymatch goal with
  | |- Async.rest _ _ _
         (bind (try_catch (bind (forEach _ _) _) _) _) _ _ _ =>
      rewrite rest_stop_tracks; cbn
  | |- Async.rest _ _ _ ?p _ _ _ =>
      match p with
      | context [match ?x with _ => _ end] => destruct x eqn:?; cbn
      end
  | |- _ /\ _ => split
  | |- forall (o : outcome value) (s' : state), _ =>
      let s' := fresh "s'" in
      let H1 := fresh "Hs" in
      let H2 := fresh "Hn" in
      intros ? s' ? ? H1 H2; destruct s'; cbn
  end.

Lemma rest_stopScanning (s : state) (ops : list op) :
  sound s ops -> rest stopScanning s ops sound.
Proof.
  intro H. destruct s. unfold stopScanning, setIsScanning, setScannerRef. cbn.
  repeat rest_step.
  all: solve [sound_tac].
Qed.

Lemma rest_startScanning (s : state) (ops : list op) :
  sound s ops -> rest startScanning s ops sound.
Proof.
  intro H. destruct s.
  unfold startScanning, classifyStartError, newHtml5Qrcode, setIsScanning,
    setScannerRef, setError, setPermissionError. cbn.
  repeat rest_step.
  all: solve [sound_tac].
Qed.

Ltac rest_spawn lem :=
  eapply rest_mono; [|apply lem; sound_tac]; cbn; auto.

Lemma rest_checkPermissionsAndStart (pf : platform) (s : state) (ops : list op) :
  sound s ops -> rest (checkPermissionsAndStart pf) s ops sound.
Proof.
  intro H. destruct s.
  unfold checkPermissionsAndStart, checkCameraPermissions, queryPermission,
    acquireProbe, releaseProbe, getTracks, classifyAcquisitionError,
    startIfPermitted, setIsRequestingPermission, setError, setPermissionError.
  destruct (hasGetUserMedia pf), (hasPermQuery pf); cbn.
  all: repeat rest_step.
  all: try solve [sound_tac].
  all: try solve [rest_spawn rest_startScanning].
Qed.

Lemma rest_handleRetry (pf : platform) (s : state) (ops : list op) :
  sound s ops -> rest (handleRetry pf) s ops sound.
Proof.
  intro H. unfold handleRetry. rewrite bind_ret_unit.
  unfold setError, setPermissionError. cbn.
  apply rest_checkPermissionsAndStart. destruct s. sound_tac.
Qed.

Lemma rest_effect (pf : platform) (b : bool) (s : state) (ops : list op) :
  sound s ops -> rest (effect pf b) s ops sound.
Proof.
  intro H. unfold effect, setError, setPermissionError. destruct b; cbn.
  - apply rest_checkPermissionsAndStart. destruct s. sound_tac.
  - apply rest_stopScanning. exact H.
Qed.

Lemma rest_cleanup (s : state) (ops : list op) :
  sound s ops -> rest cleanup s ops sound.
Proof. intro H. unfold cleanup. cbn. apply rest_stopScanning. exact H. Qed.

Lemma rest_onDecoded (text : string) (s : state) (ops : list op) :
  sound s ops -> rest (onDecoded text) s ops sound.
Proof.
  intro H. unfold onDecoded, onScanSuccess, onClose. cbn.
  eapply rest_mono; [|apply rest_stopScanning; exact H].
  cbn. intros s1 ops1 H1. destruct s1. sound_tac.
Qed.

Lemma rest_onFrameError (msg : string) (s : state) (ops : list op) :
  sound s ops -> rest (onFrameError msg) s ops sound.
Proof.
  intro H. destruct s.
  unfold onFrameError, setError, setPermissionError, setIsScanning.
  destruct (negb (benign msg)), (permissionLike msg); cbn; sound_tac.
Qed.

Lemma rest_onClose (s : state) (ops : list op) :
  sound s ops -> rest onClose s ops sound.
Proof. intro H. destruct s. unfold onClose. cbn. sound_tac. Qed.

Lemma run_sound (p : task unit) (c : conf) :
  (forall s ops, sound s ops -> rest p s ops sound) ->
  sound (st c) (map fst (pending c)) ->
  Forall parked_rest (pending c) ->
  sound (st (run p c)) (map fst (pending (run p c))) /\
  Forall parked_rest (pending (run p c)).
Proof. intros Hp Hs Hf. apply exec_rest; auto. Qed.

Lemma step_sound (pf : platform) (i : input) (c : conf) :
  sound (st c) (map fst (pending c)) ->
  Forall parked_rest (pending c) ->
  sound (st (step pf i c)) (map fst (pending (step pf i c))) /\
  Forall parked_rest (pending (step pf i c)).
Proof.
  intros Hs Hf.
  destruct i as [b| | | | |n r|text|msg]; cbn [step].
  - destruct (Bool.eqb b (open (st c))); [auto|].
    assert (Hr : sound (st (render_open b c)) (map fst (pending (render_open b c))))
      by (destruct c as [[] ? ?]; sound_tac).
    destruct (run_sound cleanup (render_open b c) rest_cleanup Hr Hf) as [H1 H2].
    apply run_sound; auto. intros. now apply rest_effect.
  - apply run_sound; auto. apply rest_cleanup.
  - destruct (startOffered (st c)); [|auto].
    apply run_sound; auto. intros. now apply rest_checkPermissionsAndStart.
  - destruct (retryOffered (st c)); [|auto].
    apply run_sound; auto. intros. now apply rest_handleRetry.
  - destruct (open (st c)); [|auto].
    apply run_sound; auto. apply rest_onClose.
  - apply settle_rest; auto.
  - apply run_sound; auto. intros. now apply rest_onDecoded.
  - apply run_sound; auto. intros. now apply rest_onFrameError.
Qed.

Lemma reach_sound (pf : platform) (isOpen : bool) (ins : list input) :
  let c := steps pf ins (mount pf isOpen) in
  sound (st c) (map fst (pending c)).
Proof.
  cbn zeta.
  assert (H0 : sound (st (mount pf isOpen)) (map fst (pending (mount pf isOpen))) /\
               Forall parked_rest (pending (mount pf isOpen))).
  { unfold mount. apply run_sound.
    - intros. now apply rest_effect.
    - cbn. unfold sound, consistent. cbn. repeat split; intros; discriminate.
    - constructor. }
  destruct H0 as [H0 H1]. revert H0 H1. generalize (mount pf isOpen).
  induction ins as [|i ins IH]; intros c H0 H1; [exact H0|].
  destruct (step_sound pf i c H0 H1) as [H2 H3].
  unfold steps in *. cbn [fold_left]. apply IH; assumption.
Qed.

End Invariants.

(** X1: in every configuration a mounted scanner can reach, the state
    cells agree: when the permission flag is up an error message is on
    display, and when the scanning flag is up an engine is held in
    [scannerRef] (so that closing will call [stop()] on it). *)
Theorem X1_flags_consistent (pf : platform) (isOpen : bool) (ins : list input) :
  let s := st (steps pf ins (mount pf isOpen)) in
  (permissionError s = true -> truthy (error s) = true) /\
  (isScanning s = true -> scannerRef s <> None).
Proof.
  destruct (reach_sound pf isOpen ins) as [(H1 & H2 & _) _].
  cbn zeta. split; assumption.
Qed.

(** The scanning session: the flag is up and engine [0] is held. *)
Lemma X1_flags_consistent_witness :
  isScanning (st scanning) = true /\ scannerRef (st scanning) <> None.
Proof.
  destruct (X1_flags_consistent full true
              [Settle 0 (Resolved (VPermission "granted"));
               Settle 0 (Resolved (VStream [7]));
               Settle 0 resolved]) as [_ H].
  split; [reflexivity | apply H; reflexivity].
Defined.

(** X2: the "Requesting camera permission..." spinner is up only while a
    [getUserMedia] call is in flight, in every configuration a mounted
    scanner can reach. *)
Theorem X2_spinner_means_acquisition_pending
  (pf : platform) (isOpen : bool) (ins : list input) :
  let c := steps pf ins (mount pf isOpen) in
  isRequestingPermission (st c) = true -> In GetUserMedia (map fst (pending c)).
Proof.
  destruct (reach_sound pf isOpen ins) as [(_ & _ & H) _]. exact H.
Qed.

(** A dialog opened without the permission query: the spinner is up, the
    acquisition pending. *)
Lemma X2_spinner_means_acquisition_pending_witness :
  In GetUserMedia (map fst (pending (mount noQuery true))).
Proof.
  apply (X2_spinner_means_acquisition_pending noQuery true []). reflexivity.
Defined.

(** X3: in every trace of a mounted scanner, [clear()] is called only
    directly after a [stop()] has resolved, and [start] only on the engine
    created directly before it. *)
Theorem X3_calls_in_order (pf : platform) (isOpen : bool) (ins : list input) :
  in_order None (trace (st (steps pf ins (mount pf isOpen)))) = true.
Proof.
  destruct (reach_sound pf isOpen ins) as [_ H]. exact H.
Qed.

(** ** The classification of failures *)

(** X4: whatever [getUserMedia] is rejected with, the session ends with a
    non-empty error message on display, in the error or the
    permission-denied phase, with the spinner down; no engine is created or
    started, nothing is left pending and nothing escapes.  The permission
    hint is raised exactly by [NotAllowedError] and
    [PermissionDeniedError]. *)
Theorem X4_acquisition_failure_shows_error (c : conf) (i : nat) (e : thrown) :
  nth_error (pending c) i = Some (GetUserMedia, resumeAcquisition) ->
  let c' := resolve i (Rejected e) c in
  truthy (error (st c')) = true /\
  (phase_of (st c') = Error \/ phase_of (st c') = PermissionDenied) /\
  isRequestingPermission (st c') = false /\
  permissionError (st c') =
    (permissionError (st c) ||
     match e with
     | JsError name _ => (name =? "NotAllowedError") || (name =? "PermissionDeniedError")
     | JsOther _ => false
     end) /\
  trace (st c') = trace (st c) ++ [Settled GetUserMedia (Rejected e)] /\
  scannerRef (st c') = scannerRef (st c) /\
  isScanning (st c') = isScanning (st c) /\
  pending c' = remove_nth i (pending c) /\
  unhandled c' = unhandled c.
Proof.
  intros Hp. unfold resolve. rewrite (settle_at _ _ _ _ _ _ _ Hp).
  open_conf c. unfold resumeAcquisition, classifyAcquisitionError, phase_of.
  destruct e as [name message|text]; cbn.
  - destruct ((name =? "NotAllowedError") || (name =? "PermissionDeniedError"));
      [|destruct ((name =? "NotFoundError") || (name =? "DevicesNotFoundError"));
        [|destruct ((name =? "NotReadableError") || (name =? "TrackStartError"))]];
      cbn; rewrite ?orb_true_r, ?orb_false_r;
      try (pose proof (or_else_truthy message
             "Failed to access camera. Please check your browser settings.") as Ht;
           cbn in Ht; rewrite Ht by discriminate);
      repeat split; auto; destruct permissionError0; auto.
  - rewrite orb_false_r. repeat split; auto. destruct permissionError0; auto.
Qed.

(** The camera is refused by the user. *)
Lemma X4_acquisition_failure_shows_error_witness :
  let c' := step noQuery (Settle 0 (Rejected (JsError "NotAllowedError" ""))) (mount noQuery true) in
  truthy (error (st c')) = true /\ permissionError (st c') = true.
Proof.
  destruct (X4_acquisition_failure_shows_error (mount noQuery true) 0
              (JsError "NotAllowedError" "")) as (H1 & _ & _ & H2 & _);
    [reflexivity|].
  split; [exact H1 | exact H2].
Defined.

(** X5: on a platform without [getUserMedia], opening the dialog calls
    nothing in the browser: it shows "Camera API is not supported in this
    browser" at once, in the error phase, and a retry from there ends in the
    very same configuration. *)
Theorem X5_unsupported_platform (pf : platform) (c : conf) :
  hasGetUserMedia pf = false ->
  isRequestingPermission (st c) = false ->
  let c1 := run (effect pf true) c in
  phase_of (st c1) = Error /\
  error (st c1) = Some "Camera API is not supported in this browser" /\
  trace (st c1) = trace (st c) /\
  pending c1 = pending c /\
  unhandled c1 = unhandled c /\
  (open (st c) = true -> step pf ClickRetry c1 = c1).
Proof.
  intros Hg Hr. open_conf c. subst.
  unfold run, effect, checkPermissionsAndStart, checkCameraPermissions. rewrite Hg.
  cbn. repeat split.
  intro Ho. subst. cbn.
  unfold run, handleRetry, checkPermissionsAndStart, checkCameraPermissions.
  rewrite Hg. reflexivity.
Qed.

(** A browser without camera capture. *)
Lemma X5_unsupported_platform_witness :
  phase_of (st (mount noCamera true)) = Error /\
  step noCamera ClickRetry (mount noCamera true) = mount noCamera true.
Proof.
  destruct (X5_unsupported_platform noCamera (initial true))
    as (H1 & _ & _ & _ & _ & H2); [reflexivity | reflexivity |].
  split; [exact H1 | apply H2; reflexivity].
Defined.

(** X6: the permission query is advisory.  When it settles with anything
    but "denied" (granted, prompt, a malformed status, a rejection), the
    component goes on to call [getUserMedia] exactly once, with the spinner
    up and no error or permission flag set on the way. *)
Theorem X6_query_is_advisory (pf : platform) (c : conf) (q : outcome value) :
  hasGetUserMedia pf = true ->
  hasPermQuery pf = true ->
  deniedOutright q = false ->
  let c1 := resolve (List.length (pending c)) q (run (checkPermissionsAndStart pf) c) in
  pending c1 = pending c ++ [(GetUserMedia, resumeAcquisition)] /\
  isRequestingPermission (st c1) = true /\
  acquisitions (trace (st c1)) = S (acquisitions (trace (st c))) /\
  error (st c1) = error (st c) /\
  permissionError (st c1) = permissionError (st c) /\
  unhandled c1 = unhandled c.
Proof.
  intros Hg Hq Hd. open_conf c.
  unfold run, resolve, checkPermissionsAndStart, checkCameraPermissions, queryPermission.
  rewrite Hg, Hq. cbn. unfold park. cbn [st pending unhandled].
  rewrite settle_last.
  destruct q as [[|perm|tracks]|e]; cbn in Hd |- *; try rewrite Hd; cbn;
    unfold park; cbn; rewrite !acquisitions_app; cbn;
    repeat split; lia.
Qed.

(** A browser whose permission query is rejected. *)
Lemma X6_query_is_advisory_witness :
  let c1 := step full (Settle 0 (Rejected (JsOther "unsupported"))) (mount full true) in
  map fst (pending c1) = [GetUserMedia] /\ isRequestingPermission (st c1) = true.
Proof.
  destruct (X6_query_is_advisory full (initial true) (Rejected (JsOther "unsupported")))
    as (H1 & H2 & _); try reflexivity.
  split; [|exact H2].
  unfold step, mount. cbn zeta in H1. unfold resolve in H1.
  change (run (effect full true) (initial true))
    with (run (checkPermissionsAndStart full) (initial true)).
  change (List.length (pending (initial true))) with 0 in H1.
  unfold resolve. rewrite H1. reflexivity.
Defined.

(** What the [catch] of [startScanning] leaves behind, whatever it
    caught. *)
Lemma classifyStartError_runs (c : conf) (e : thrown) :
  let c' := run (classifyStartError e) c in
  truthy (error (st c')) = true /\
  isScanning (st c') = false /\
  scannerRef (st c') = scannerRef (st c) /\
  pending c' = pending c /\
  unhandled c' = unhandled c.
Proof.
  open_conf c. unfold run, classifyStartError.
  destruct e as [name message|text]; cbn -[truthy String.eqb includes orb].
  - destruct ((name =? "NotAllowedError") || includes message "Permission"
              || includes message "permission"); [cbn; repeat split|].
    destruct (includes message "camera" || includes message "Camera") eqn:E;
      [|cbn; repeat split].
    assert (Ht : truthy (Some message) = true)
      by (apply camera_message_nonempty; exact E).
    cbn -[truthy]. rewrite Ht. repeat split.
  - cbn. repeat split.
Qed.

(** X7: the two ways [startScanning] fails.  With the dialog rendered
    open an engine is created and [start] called on it; when that call is
    rejected, whatever with, a non-empty error message is shown and the
    scanning flag goes down, but the engine just created stays in
    [scannerRef].  With the dialog closed the constructor throws before
    any engine exists: the fixed "Failed to start camera" message is
    recorded at once, [scannerRef] is left as it was and [start] is never
    called.  Either way nothing is left pending and nothing escapes. *)
Theorem X7_start_failure (c : conf) (e : thrown) :
  let c1 := run startScanning c in
  let c2 := resolve (List.length (pending c)) (Rejected e) c1 in
  if open (st c) then
    map fst (pending c1) = map fst (pending c) ++ [EngStart (nextId (st c))] /\
    truthy (error (st c2)) = true /\
    isScanning (st c2) = false /\
    scannerRef (st c2) = Some (nextId (st c)) /\
    pending c2 = pending c /\
    unhandled c2 = unhandled c
  else
    trace (st c1) = trace (st c) ++ [ConsoleError "Error starting QR scanner:"] /\
    error (st c1) =
      Some "Failed to start camera. Please ensure camera permissions are granted." /\
    permissionError (st c1) = false /\
    isScanning (st c1) = false /\
    scannerRef (st c1) = scannerRef (st c) /\
    pending c1 = pending c /\
    unhandled c1 = unhandled c.
Proof.
  open_conf c. unfold run, resolve, startScanning.
  destruct open0; cbn -[truthy]; [|repeat split].
  unfold park. cbn [st pending unhandled]. rewrite settle_last.
  cbn [try_catch bind].
  match goal with
  | |- context [exec on_call (classifyStartError e) ?cfg] =>
      change (exec on_call (classifyStartError e) cfg)
        with (run (classifyStartError e) cfg);
      destruct (classifyStartError_runs cfg e) as (H1 & H2 & H3 & H4 & H5)
  end.
  rewrite H3, H4, H5, map_app. repeat split; assumption.
Qed.

(** X8: when the probe acquisition resolves while the dialog is rendered
    open and the engine then starts, the session is scanning, whatever it
    showed before: the error is cleared, the probe tracks have been
    stopped once each, one engine was created and started, and no further
    [getUserMedia] call was made. *)
Theorem X8_acquisition_then_start_scans
  (c : conf) (i : nat) (tracks : list nat) (v : value) :
  nth_error (pending c) i = Some (GetUserMedia, resumeAcquisition) ->
  open (st c) = true ->
  let c1 := resolve i (Resolved (VStream tracks)) c in
  let c2 := resolve (List.length (remove_nth i (pending c))) (Resolved v) c1 in
  let h := nextId (st c) in
  phase_of (st c2) = Scanning /\
  error (st c2) = None /\
  scannerRef (st c2) = Some h /\
  trace (st c2) =
    trace (st c) ++ Settled GetUserMedia (Resolved (VStream tracks))
      :: map TrackStop tracks
      ++ [NewScanner h; Call (EngStart h); Settled (EngStart h) (Resolved v)] /\
  acquisitions (trace (st c2)) = acquisitions (trace (st c)) /\
  pending c2 = remove_nth i (pending c) /\
  unhandled c2 = unhandled c.
Proof.
  intros Hp Ho. unfold resolve. rewrite (settle_at _ _ _ _ _ _ _ Hp).
  open_conf c. subst open0.
  unfold resumeAcquisition, releaseProbe.
  cbn [bind getTracks try_catch].
  rewrite exec_stop_tracks. cbn. unfold park. cbn [st pending unhandled].
  rewrite settle_last. cbn.
  rewrite <- !app_assoc. cbn.
  repeat split.
  rewrite !acquisitions_app. cbn. rewrite acquisitions_app.
  assert (H : forall l, acquisitions (map TrackStop l) = 0)
    by (induction l; cbn; auto).
  rewrite H. cbn. lia.
Qed.

(** The session that shows "No camera found" is closed and opened again:
    the camera is found this time and the engine starts. *)
Lemma X8_acquisition_then_start_scans_witness :
  let c := steps noQuery [SetOpen false; SetOpen true] failed in
  phase_of (st failed) = Error /\
  phase_of (st (steps noQuery [Settle 0 (Resolved (VStream [7])); Settle 0 resolved] c))
  = Scanning.
Proof.
  split; [reflexivity|].
  destruct (X8_acquisition_then_start_scans
              (steps noQuery [SetOpen false; SetOpen true] failed) 0 [7] VUndefined)
    as (H & _); [reflexivity | reflexivity | exact H].
Defined.

(** ** The frame-error callback and the close buttons *)

(** X9: a frame-level error never touches the engine: whatever the text,
    the callback calls nothing, leaves [scannerRef] and what is pending as
    they are and adds nothing to the trace, even when it lowers the
    scanning flag for a permission-like text.  A text with one of the four
    benign markers changes nothing at all, also when it mentions the camera
    or a permission. *)
Theorem X9_frame_error_never_stops_engine (pf : platform) (c : conf) (msg : string) :
  let c' := step pf (FrameError msg) c in
  trace (st c') = trace (st c) /\
  scannerRef (st c') = scannerRef (st c) /\
  pending c' = pending c /\
  unhandled c' = unhandled c /\
  isRequestingPermission (st c') = isRequestingPermission (st c) /\
  isScanning (st c') = (isScanning (st c) && (benign msg || negb (permissionLike msg))) /\
  (benign msg = true -> c' = c).
Proof.
  open_conf c. cbn [step]. unfold run, onFrameError.
  destruct (benign msg), (permissionLike msg); cbn;
    rewrite ?andb_true_r, ?andb_false_r; repeat split; intros; discriminate.
Qed.

(** A benign text that mentions the camera. *)
Lemma X9_frame_error_never_stops_engine_witness :
  step full (FrameError "NotFoundException: camera frame empty") scanning = scanning.
Proof.
  destruct (X9_frame_error_never_stops_engine full scanning
              "NotFoundException: camera frame empty")
    as (_ & _ & _ & _ & _ & _ & H).
  apply H. reflexivity.
Defined.

(** X11: when the [stop()] of a close resolves, [clear()] is called on
    whatever engine [scannerRef] holds by then, which need not be the
    engine that was stopped, and once that [clear()] resolves this engine is
    dropped from [scannerRef] and the scanning flag lowered.  If
    [scannerRef] is empty by then, the close ends with a logged error and
    nothing escapes. *)
Theorem X11_clear_goes_to_current_engine
  (c : conf) (i h : nat) (v v' : value) :
  nth_error (pending c) i = Some (EngStop h, resumeStop) ->
  let c1 := resolve i (Resolved v) c in
  match scannerRef (st c) with
  | Some h' =>
      trace (st c1) =
        trace (st c) ++ [Settled (EngStop h) (Resolved v); Call (EngClear h')] /\
      let c2 := resolve (List.length (remove_nth i (pending c))) (Resolved v') c1 in
      scannerRef (st c2) = None /\
      isScanning (st c2) = false /\
      existsb is_stop_call (skipn (List.length (trace (st c))) (trace (st c2))) = false /\
      pending c2 = remove_nth i (pending c)
  | None =>
      trace (st c1) =
        trace (st c) ++ [Settled (EngStop h) (Resolved v);
                         ConsoleError "Error stopping QR scanner:"] /\
      isScanning (st c1) = false /\
      pending c1 = remove_nth i (pending c) /\
      unhandled c1 = unhandled c
  end.
Proof.
  intro Hp. unfold resolve. rewrite (settle_at _ _ _ _ _ _ _ Hp).
  open_conf c. unfold resumeStop.
  destruct scannerRef0 as [h'|]; cbn.
  - unfold park. cbn [st pending unhandled]. rewrite settle_last. cbn.
    rewrite <- !app_assoc. cbn. repeat split.
    rewrite skipn_app, skipn_all, Nat.sub_diag. reflexivity.
  - rewrite <- !app_assoc. repeat split.
Qed.

(** The session closed and opened again at once: the [stop()] of the close
    was called on engine [0]; when it resolves, [clear()] is called on
    engine [1] of the new run, which is then dropped without having been
    stopped. *)
Lemma X11_clear_goes_to_current_engine_witness :
  let c1 := resolve 0 (Resolved VUndefined) reopened in
  let c2 := resolve (List.length (remove_nth 0 (pending reopened))) (Resolved VUndefined) c1 in
  scannerRef (st reopened) = Some 1 /\
  trace (st c1) =
    trace (st reopened) ++ [Settled (EngStop 0) (Resolved VUndefined); Call (EngClear 1)] /\
  scannerRef (st c2) = None.
Proof.
  assert (E : nth_error (pending reopened) 0 = Some (EngStop 0, resumeStop))
    by (vm_compute; reflexivity).
  assert (R : scannerRef (st reopened) = Some 1) by (vm_compute; reflexivity).
  pose proof (X11_clear_goes_to_current_engine reopened 0 0 VUndefined VUndefined E) as H.
  cbn zeta in H. rewrite R in H.
  destruct H as (H1 & H2 & _).
  cbn zeta. split; [exact R|]. split; [exact H1 | exact H2].
Defined.

End ScannerSpec.

(** * The admin route guard: the claim *)

Module AdminRouteSpec.
Import AdminRoute AsyncFacts.

Local Abbreviation parked_ok := (Async.parked_ok on_settle keepsGuard).

Lemma guard_refl s : keepsGuard s s.
Proof. unfold keepsGuard. auto. Qed.

Lemma guard_trans s1 s2 s3 : keepsGuard s1 s2 -> keepsGuard s2 s3 -> keepsGuard s1 s3.
Proof. unfold keepsGuard. auto. Qed.

Lemma guard_log e s : keepsGuard s (log e s).
Proof.
  unfold keepsGuard, guarded, adminConfirmed. cbn. intros H Hc.
  apply in_or_app. left. auto.
Qed.

Lemma guard_call o s : keepsGuard s (on_call o s).
Proof. apply guard_log. Qed.

Lemma guard_settle o r s : keepsGuard s (on_settle o r s).
Proof. apply guard_log. Qed.

(** The only write that lowers [checking] comes right after a profile fetch
    has settled with an admin. *)
Lemma verifyAdmin_keeps (token : option string) (s : state) :
  Async.keeps on_settle keepsGuard s (verifyAdmin token).
Proof.
  unfold verifyAdmin. destruct (negb (truthy token)); cbn.
  - repeat split; apply guard_log.
  - intros [[[|]|]|e] s'; cbn; repeat split; try apply guard_log.
    unfold keepsGuard, guarded, adminConfirmed. cbn. intros _ _.
    apply in_or_app. right. left. reflexivity.
Qed.

Lemma step_guarded (i : input) (c : conf) :
  guarded (st c) -> Forall parked_ok (pending c) ->
  guarded (st (step i c)) /\ Forall parked_ok (pending (step i c)).
Proof.
  intros Hg Hp. destruct i as [token|n r]; cbn [step].
  - destruct (exec_keeps on_call on_settle keepsGuard guard_refl guard_trans guard_call
                (Spawn (verifyAdmin token) (Ret tt)) c) as [H1 H2]; auto.
    cbn. split; [apply verifyAdmin_keeps | auto].
  - destruct (settle_keeps on_call on_settle keepsGuard guard_refl guard_trans
                guard_call guard_settle n r c Hp) as [H1 H2]; auto.
Qed.

Lemma steps_guarded (ins : list input) :
  forall c : conf,
    guarded (st c) -> Forall parked_ok (pending c) ->
    guarded (st (steps ins c)).
Proof.
  induction ins as [|i ins IH]; intros c Hg Hp; [exact Hg|].
  destruct (step_guarded i c Hg Hp) as [H1 H2].
  unfold steps in *. cbn [fold_left]. apply IH; assumption.
Qed.

(** C10: whatever the effect runs and the profile fetches answer, the
    children are rendered only after a profile fetch has resolved with an
    admin.  One run of [verifyAdmin] from a guard that shows the loader:
    without a token it toasts and navigates to the login page at once and
    fetches nothing; with a token it fetches the profile, and a rejected
    fetch clears the token and navigates to the login page, a non-admin
    navigates to the dashboard; in all three cases the loader stays and the
    children are not rendered.  Only an admin lowers [checking]. *)
Theorem C10_children_only_for_admin
  (ins : list input) (c : conf) (token : option string) (r : outcome value) :
  (render (st (steps ins initial)) = Children ->
   adminConfirmed (trace (st (steps ins initial)))) /\
  (checking (st c) = true ->
   truthy token = false ->
   let c' := step (RunEffect token) c in
   render (st c') = Loader /\
   trace (st c') = trace (st c) ++ [ToastError "Please login first"; Navigate "/login"] /\
   pending c' = pending c) /\
  (checking (st c) = true ->
   truthy token = true ->
   let c1 := step (RunEffect token) c in
   let c' := step (Settle (List.length (pending c)) r) c1 in
   render (st c1) = Loader /\
   pending c' = pending c /\
   unhandled c' = unhandled c /\
   match r with
   | Resolved (VUser true) =>
       render (st c') = Children /\
       trace (st c') = trace (st c) ++ [Call GetProfile; Settled GetProfile r]
   | Resolved (VUser false) =>
       render (st c') = Loader /\
       trace (st c') =
         trace (st c) ++
         [Call GetProfile; Settled GetProfile r;
          ToastError "Access denied: Admins only"; Navigate "/dashboard"]
   | _ =>
       render (st c') = Loader /\
       trace (st c') =
         trace (st c) ++
         [Call GetProfile; Settled GetProfile r;
          ConsoleError "Failed to verify admin:";
          ToastError "Session expired. Please login again";
          ClearToken; Navigate "/login"]
   end).
Proof.
  split; [|split].
  - intro Hr. unfold render in Hr.
    destruct (checking (st (steps ins initial))) eqn:E; [discriminate|].
    apply (steps_guarded ins initial); [discriminate | constructor | exact E].
  - intros Hc Ht. destruct c as [[chk tr] p u]. cbn in Hc. subst chk.
    cbn [step]. unfold run, verifyAdmin. rewrite Ht. cbn.
    rewrite <- app_assoc. repeat split.
  - intros Hc Ht. destruct c as [[chk tr] p u]. cbn in Hc. subst chk.
    cbn [step st pending unhandled]. unfold run, resolve, verifyAdmin. rewrite Ht. cbn.
    unfold park. cbn [st pending unhandled]. rewrite settle_last.
    destruct r as [[[|]|]|e]; cbn; rewrite <- !app_assoc; repeat split.
Qed.

(** An admin, a visitor without token, and a session whose profile fetch
    fails. *)
Lemma C10_children_only_for_admin_witness :
  let c1 := steps [RunEffect (Some "token"); Settle 0 (Resolved (VUser true))] initial in
  let c2 := steps [RunEffect None] initial in
  let c3 := step (Settle 0 (Rejected (JsError "Error" "401"))) fetching in
  adminConfirmed (trace (st c1)) /\
  render (st c2) = Loader /\
  render (st c3) = Loader.
Proof.
  destruct (C10_children_only_for_admin
              [RunEffect (Some "token"); Settle 0 (Resolved (VUser true))]
              initial None (Resolved (VUser true))) as (H1 & H2 & _).
  destruct (C10_children_only_for_admin
              [] initial (Some "token") (Rejected (JsError "Error" "401")))
    as (_ & _ & H3).
  split; [apply H1; reflexivity|].
  split; [apply H2; reflexivity|].
  apply H3; reflexivity.
Defined.

(** ** Once shown, always shown *)

Section Shown.

Local Abbreviation shown_ok := (Async.parked_ok on_settle staysShown).

Lemma shown_refl s : staysShown s s.
Proof. unfold staysShown. auto. Qed.

Lemma shown_trans s1 s2 s3 : staysShown s1 s2 -> staysShown s2 s3 -> staysShown s1 s3.
Proof. unfold staysShown. auto. Qed.

Lemma shown_log e s : staysShown s (log e s).
Proof. unfold staysShown. auto. Qed.

Lemma verifyAdmin_stays (token : option string) (s : state) :
  Async.keeps on_settle staysShown s (verifyAdmin token).
Proof.
  unfold verifyAdmin. destruct (negb (truthy token)); cbn.
  - repeat split; apply shown_log.
  - intros [[[|]|]|e] s'; cbn; repeat split; try apply shown_log;
      unfold staysShown; auto.
Qed.

Lemma step_stays (i : input) (c : conf) :
  Forall shown_ok (pending c) ->
  staysShown (st c) (st (step i c)) /\ Forall shown_ok (pending (step i c)).
Proof.
  intro Hp. destruct i as [token|n r]; cbn [step].
  - apply (exec_keeps on_call on_settle staysShown shown_refl shown_trans
             (fun o s => shown_log (Call o) s)); [|exact Hp].
    cbn. split; [apply verifyAdmin_stays | auto].
  - apply (settle_keeps on_call on_settle staysShown shown_refl shown_trans
             (fun o s => shown_log (Call o) s)
             (fun o r s => shown_log (Settled o r) s)); exact Hp.
Qed.

Lemma steps_stay (ins : list input) :
  forall c : conf,
    Forall shown_ok (pending c) ->
    staysShown (st c) (st (steps ins c)) /\ Forall shown_ok (pending (steps ins c)).
Proof.
  induction ins as [|i ins IH]; intros c Hp.
  - split; [apply shown_refl | exact Hp].
  - destruct (step_stays i c Hp) as [H1 H2].
    destruct (IH (step i c) H2) as [H3 H4].
    unfold steps in *. cbn [fold_left].
    split; [eapply shown_trans; eauto | exact H4].
Qed.

End Shown.

(** X12: once the guard renders its children it renders them for good:
    nothing raises [checking] again, so a later run of the effect whose
    profile fetch fails or reports a non-admin navigates away (and clears
    the token) but leaves the children on display. *)
Theorem X12_children_stay_shown (ins ins' : list input) :
  render (st (steps ins initial)) = Children ->
  render (st (steps (ins ++ ins') initial)) = Children.
Proof.
  unfold render. intro H.
  destruct (checking (st (steps ins initial))) eqn:E; [discriminate|].
  unfold steps in *. rewrite fold_left_app.
  destruct (steps_stay ins initial (Forall_nil _)) as [_ Hp].
  destruct (steps_stay ins' (steps ins initial) Hp) as [Hs _].
  unfold steps in *. rewrite (Hs E). reflexivity.
Qed.

(** An admin is shown the children; the effect runs again and the new
    profile fetch is rejected. *)
Lemma X12_children_stay_shown_witness :
  let c := steps ([RunEffect (Some "token"); Settle 0 (Resolved (VUser true))]
                  ++ [RunEffect (Some "token"); Settle 0 (Rejected (JsError "Error" "401"))])
                 initial in
  render (st c) = Children /\ In ClearToken (trace (st c)).
Proof.
  split.
  - apply (X12_children_stay_shown
             [RunEffect (Some "token"); Settle 0 (Resolved (VUser true))]
             [RunEffect (Some "token"); Settle 0 (Rejected (JsError "Error" "401"))]).
    reflexivity.
  - vm_compute. auto 20.
Defined.

End AdminRouteSpec.

(** * The language switcher *)

Module LanguageSwitcherSpec.
Import LanguageSwitcher.

(** X13: whatever [i18n.language] is, the trigger has a language to show,
    taken from the table.  At most one menu item carries the check mark; if
    one does, it is the language of the trigger, and if none does (a
    language outside the table, a regional variant such as "en-US") the
    trigger shows the first entry, English. *)
Theorem X13_current_language_defined (language : string) :
  match filter (checked language) languages with
  | [] => currentLanguage language = nth_error languages 0
  | [item] => currentLanguage language = Some item
  | _ => False
  end /\
  exists item, currentLanguage language = Some item /\ In item languages.
Proof.
  unfold currentLanguage, checked. cbn -[String.eqb].
  rewrite (String.eqb_sym "en" language), (String.eqb_sym "ar" language),
    (String.eqb_sym "fr" language).
  destruct (String.eqb_spec language "en") as [->|H1].
  - cbn. split; [reflexivity|]. eexists; split; [reflexivity | auto].
  - destruct (String.eqb_spec language "ar") as [->|H2].
    + cbn. split; [reflexivity|]. eexists; split; [reflexivity | auto].
    + destruct (String.eqb_spec language "fr") as [->|H3].
      * cbn. split; [reflexivity|]. eexists; split; [reflexivity | auto 6].
      * cbn. split; [reflexivity|]. eexists; split; [reflexivity | auto].
Qed.

Lemma toggle_spec (token : string) (force : bool) (classes : list string) :
  NoDup classes ->
  NoDup (toggle token force classes) /\
  (In token (toggle token force classes) <-> force = true) /\
  (forall c, c <> token -> (In c (toggle token force classes) <-> In c classes)) /\
  toggle token force (toggle token force classes) = toggle token force classes.
Proof.
  intro Hn. unfold toggle. destruct force.
  - destruct (existsb (String.eqb token) classes) eqn:E.
    + rewrite E. apply existsb_exists in E as (x & Hx & Hex).
      apply String.eqb_eq in Hex. subst x.
      repeat split; auto; tauto.
    + assert (Hni : ~ In token classes).
      { intro Hin. apply Bool.not_true_iff_false in E. apply E.
        apply existsb_exists. exists token. split; [exact Hin | apply String.eqb_refl]. }
      assert (E' : existsb (String.eqb token) (classes ++ [token]) = true).
      { apply existsb_exists. exists token.
        split; [apply in_or_app; right; left; reflexivity | apply String.eqb_refl]. }
      rewrite E'. repeat split; auto.
      * apply NoDup_app; [exact Hn | repeat constructor; intros [] | ].
        intros x Hx [<-|[]]. contradiction.
      * intros _. apply in_or_app. right. left. reflexivity.
      * intro Hin. apply in_app_or in Hin as [Hin|[<-|[]]]; [exact Hin | congruence].
      * intro Hin. apply in_or_app. left. exact Hin.
  - repeat split.
    + apply NoDup_filter. exact Hn.
    + intro Hin. apply filter_In in Hin as [_ Hf].
      rewrite String.eqb_refl in Hf. discriminate.
    + discriminate.
    + intro Hin. apply filter_In in Hin. tauto.
    + intro Hin. apply filter_In. split; [exact Hin|].
      apply Bool.negb_true_iff. apply String.eqb_neq. exact H.
    + induction classes as [|c classes IH]; cbn; [reflexivity|].
      inversion Hn; subst.
      destruct (c =? token) eqn:E; cbn; [auto|].
      rewrite E. cbn. f_equal. auto.
Qed.

Lemma classes_NoDup (codes : list string) (s : state) :
  NoDup (bodyClasses s) ->
  NoDup (bodyClasses (fold_left (fun s c => changeLanguage c s) codes s)).
Proof.
  revert s. induction codes as [|c codes IH]; intros s Hn; [exact Hn|].
  cbn [fold_left]. apply IH. cbn. apply toggle_spec. exact Hn.
Qed.

(** X14: after any series of language changes, the document follows the
    last one: [lang] is its code, [dir] is "rtl" exactly for Arabic, the
    body carries the class "rtl" exactly for Arabic, once, and every other
    class of the body is kept; the menu is closed.  Choosing the same
    language again leaves the document as it is. *)
Theorem X14_document_follows_last_choice
  (codes : list string) (languageCode : string) (s : state) :
  NoDup (bodyClasses s) ->
  let s' := fold_left (fun s c => changeLanguage c s) (codes ++ [languageCode]) s in
  lang s' = languageCode /\
  (dir s' = "rtl" <-> languageCode = "ar") /\
  (dir s' = "ltr" <-> languageCode <> "ar") /\
  (In "rtl" (bodyClasses s') <-> languageCode = "ar") /\
  NoDup (bodyClasses s') /\
  (forall c, c <> "rtl" -> (In c (bodyClasses s') <-> In c (bodyClasses s))) /\
  isOpen s' = false /\
  bodyClasses (changeLanguage languageCode s') = bodyClasses s' /\
  dir (changeLanguage languageCode s') = dir s' /\
  lang (changeLanguage languageCode s') = lang s'.
Proof.
  intro Hn. cbn zeta. rewrite fold_left_app. cbn [fold_left].
  set (s1 := fold_left (fun s c => changeLanguage c s) codes s).
  assert (Hn1 : NoDup (bodyClasses s1)) by (apply classes_NoDup; exact Hn).
  assert (Hkeep : forall c, c <> "rtl" -> (In c (bodyClasses s1) <-> In c (bodyClasses s))).
  { subst s1. clear Hn1. revert s Hn.
    induction codes as [|x codes IH]; intros s Hn c Hc; [tauto|].
    cbn [fold_left]. rewrite IH by (try (cbn; apply toggle_spec); assumption).
    cbn. apply toggle_spec; assumption. }
  destruct (toggle_spec "rtl" (languageCode =? "ar") (bodyClasses s1) Hn1)
    as (T1 & T2 & T3 & T4).
  assert (Hothers : forall c, c <> "rtl" ->
            (In c (toggle "rtl" (languageCode =? "ar") (bodyClasses s1))
             <-> In c (bodyClasses s))).
  { intros c Hc. rewrite (T3 c Hc). apply Hkeep. exact Hc. }
  cbn. rewrite T4.
  split; [reflexivity|].
  destruct (String.eqb_spec languageCode "ar") as [->|Hne].
  - split; [tauto|]. split; [split; [discriminate | congruence]|].
    split; [tauto|]. split; [exact T1|]. split; [exact Hothers|]. auto.
  - split; [split; [discriminate | contradiction]|].
    split; [tauto|].
    split; [split; [intro Hin; apply T2 in Hin; discriminate | contradiction]|].
    split; [exact T1|]. split; [exact Hothers|]. auto.
Qed.

(** From French to Arabic on a body that already has a class. *)
Lemma X14_document_follows_last_choice_witness :
  let s' := fold_left (fun s c => changeLanguage c s) (["fr"] ++ ["ar"])
              (mkState true "ltr" "en" ["dark"] []) in
  dir s' = "rtl" /\ In "rtl" (bodyClasses s') /\ In "dark" (bodyClasses s').
Proof.
  destruct (X14_document_follows_last_choice ["fr"] "ar"
              (mkState true "ltr" "en" ["dark"] []))
    as (_ & H1 & _ & H2 & _ & H3 & _).
  - repeat constructor. intros [].
  - split; [apply H1; reflexivity|].
    split; [apply H2; reflexivity|].
    apply H3; [discriminate | left; reflexivity].
Defined.

End LanguageSwitcherSpec.

(** * The profile page *)

Module RegexFacts.
Import Regex.

Lemma nullable_lang (r : regex) : nullable r = true <-> lang r [].
Proof.
  induction r; cbn.
  - split; [discriminate | contradiction].
  - tauto.
  - split; [discriminate | intros (c & H & _); discriminate].
  - rewrite andb_true_iff, IHr1, IHr2. split.
    + intros [H1 H2]. exists [], []. auto.
    + intros (s1 & s2 & E & H1 & H2). symmetry in E.
      apply app_eq_nil in E as [-> ->]. auto.
  - rewrite orb_true_iff, IHr1, IHr2. tauto.
  - split; [constructor | reflexivity].
Qed.

Lemma star_cons (L : jsstring -> Prop) (c : N) (s : jsstring) :
  star L (c :: s) ->
  exists s1 s2, s = s1 ++ s2 /\ L (c :: s1) /\ star L s2.
Proof.
  intro H. remember (c :: s) as t eqn:E. revert c s E.
  induction H as [|s1 s2 H1 H2 IH]; intros c s E; [discriminate|].
  destruct s1 as [|x s1]; cbn in E.
  - apply IH. exact E.
  - injection E as -> <-. exists s1, s2. auto.
Qed.

Lemma deriv_lang (r : regex) :
  forall (c : N) (s : jsstring), lang (deriv c r) s <-> lang r (c :: s).
Proof.
  induction r; intros c s; cbn.
  - tauto.
  - split; [contradiction | discriminate].
  - destruct (p c) eqn:E; cbn.
    + split.
      * intros ->. exists c. auto.
      * intros (x & H & _). now injection H.
    + split; [contradiction|].
      intros (x & H & Hp). injection H as -> _. congruence.
  - destruct (nullable r1) eqn:E; cbn.
    + split.
      * intros [(s1 & s2 & -> & H1 & H2)|H].
        -- exists (c :: s1), s2. rewrite <- IHr1. auto.
        -- exists [], (c :: s). rewrite <- IHr2, <- nullable_lang. auto.
      * intros (s1 & s2 & Heq & H1 & H2).
        destruct s1 as [|x s1]; cbn in Heq.
        -- right. subst s2. now apply IHr2.
        -- left. injection Heq as <- ->. exists s1, s2. rewrite IHr1. auto.
    + split.
      * intros (s1 & s2 & -> & H1 & H2).
        exists (c :: s1), s2. rewrite <- IHr1. auto.
      * intros (s1 & s2 & Heq & H1 & H2).
        destruct s1 as [|x s1]; cbn in Heq.
        -- apply nullable_lang in H1. congruence.
        -- injection Heq as <- ->. exists s1, s2. rewrite IHr1. auto.
  - rewrite IHr1, IHr2. tauto.
  - split.
    + intros (s1 & s2 & -> & H1 & H2).
      apply (star_app _ (c :: s1) s2); [now apply IHr | exact H2].
    + intro H. apply star_cons in H as (s1 & s2 & -> & H1 & H2).
      exists s1, s2. rewrite IHr. auto.
Qed.

(** The matcher decides the language of the pattern. *)
Lemma test_lang (s : jsstring) : forall r : regex, test r s = true <-> lang r s.
Proof.
  unfold test. induction s as [|c s IH]; intro r; cbn [fold_left].
  - apply nullable_lang.
  - rewrite IH. apply deriv_lang.
Qed.

Lemma lang_Chr (c : N) (s : jsstring) : lang (Chr c) s <-> s = [c].
Proof.
  cbn. split.
  - intros (x & -> & H). apply N.eqb_eq in H. now subst.
  - intros ->. exists c. split; [reflexivity | apply N.eqb_refl].
Qed.

Lemma lang_Star_Class (p : N -> bool) (s : jsstring) :
  lang (Star (Class p)) s <-> Forall (fun c => p c = true) s.
Proof.
  cbn. split.
  - induction 1 as [|s1 s2 (c & -> & Hc) H2 IH]; [constructor|].
    cbn. constructor; assumption.
  - induction 1 as [|c s Hc Hs IH]; [constructor|].
    apply (star_app _ [c] s); [exists c; auto | exact IH].
Qed.

Lemma lang_Plus_Class (p : N -> bool) (s : jsstring) :
  lang (Plus (Class p)) s <-> s <> [] /\ Forall (fun c => p c = true) s.
Proof.
  unfold Plus. cbn [lang]. split.
  - intros (s1 & s2 & -> & (c & -> & Hc) & H2).
    apply lang_Star_Class in H2. split; [discriminate | constructor; assumption].
  - intros [Hn H]. destruct H as [|c s Hc Hs]; [contradiction|].
    exists [c], s. split; [reflexivity|]. split; [exists c; auto|].
    apply lang_Star_Class. exact Hs.
Qed.

End RegexFacts.

Module ProfileSpec.
Import Regex RegexFacts Profile AsyncFacts.

Example email_plain : test emailRegex (js "a@b.c") = true.
Proof. reflexivity. Qed.

Example email_no_dot : test emailRegex (js "user@localhost") = false.
Proof. reflexivity. Qed.

Example email_space : test emailRegex (js "a b@c.d") = false.
Proof. reflexivity. Qed.

Example email_two_ats : test emailRegex (js "a@b@c.d") = false.
Proof. reflexivity. Qed.

Example email_trailing_dot : test emailRegex (js "a@b.") = false.
Proof. reflexivity. Qed.

Example email_double_dot : test emailRegex (js "a@b..c") = true.
Proof. reflexivity. Qed.

Example email_no_break_space : test emailRegex [97; 160; 64; 98; 46; 99]%N = false.
Proof. reflexivity. Qed.

(** X15: the pattern of line 199 accepts exactly the strings made of a
    non-empty local part, one "@", and a domain with a "." that is neither
    its first nor its last code unit, where no code unit besides that "@"
    is an "@" or white space.  So an accepted address has exactly one "@"
    and no white space; dots are free otherwise. *)
Theorem X15_email_pattern (s : jsstring) :
  (test emailRegex s = true <->
   exists local a b,
     s = local ++ 64%N :: a ++ 46%N :: b /\
     local <> [] /\ a <> [] /\ b <> [] /\
     Forall (fun c => plain c = true) (local ++ a ++ b)) /\
  (test emailRegex s = true ->
   count_occ N.eq_dec s 64%N = 1 /\ forallb (fun c => negb (isSpace c)) s = true).
Proof.
  assert (Hiff : test emailRegex s = true <->
            exists local a b,
              s = local ++ 64%N :: a ++ 46%N :: b /\
              local <> [] /\ a <> [] /\ b <> [] /\
              Forall (fun c => plain c = true) (local ++ a ++ b)).
  { rewrite test_lang. unfold emailRegex. cbn [lang]. split.
    - intros (l & r1 & -> & Hl & (at1 & r2 & -> & Hat & (a & r3 & -> & Ha &
               (dot & b & -> & Hdot & Hb)))).
      change (lang (Chr 64) at1) in Hat. change (lang (Chr 46) dot) in Hdot.
      apply lang_Chr in Hat, Hdot. subst at1 dot.
      change (lang (Plus (Class plain)) l) in Hl.
      change (lang (Plus (Class plain)) a) in Ha.
      change (lang (Plus (Class plain)) b) in Hb.
      apply lang_Plus_Class in Hl as [Hl1 Hl2].
      apply lang_Plus_Class in Ha as [Ha1 Ha2].
      apply lang_Plus_Class in Hb as [Hb1 Hb2].
      exists l, a, b. cbn. repeat split; auto.
      apply Forall_app; split; [exact Hl2|]. apply Forall_app; split; assumption.
    - intros (l & a & b & -> & Hl & Ha & Hb & Hall).
      apply Forall_app in Hall as [Hl2 Hall]. apply Forall_app in Hall as [Ha2 Hb2].
      exists l, (64%N :: a ++ 46%N :: b). split; [reflexivity|].
      split; [change (lang (Plus (Class plain)) l); apply lang_Plus_Class; auto|].
      exists [64%N], (a ++ 46%N :: b). split; [reflexivity|].
      split; [change (lang (Chr 64) [64%N]); now apply lang_Chr|].
      exists a, (46%N :: b). split; [reflexivity|].
      split; [change (lang (Plus (Class plain)) a); apply lang_Plus_Class; auto|].
      exists [46%N], b. split; [reflexivity|].
      split; [change (lang (Chr 46) [46%N]); now apply lang_Chr|].
      change (lang (Plus (Class plain)) b). apply lang_Plus_Class; auto. }
  split; [exact Hiff|].
  intro H. apply Hiff in H as (l & a & b & -> & _ & _ & _ & Hall).
  assert (Hp : forall t, Forall (fun c => plain c = true) t ->
            count_occ N.eq_dec t 64%N = 0 /\
            forallb (fun c => negb (isSpace c)) t = true).
  { induction 1 as [|c t Hc Ht [IH1 IH2]]; [split; reflexivity|].
    unfold plain in Hc. apply negb_true_iff, orb_false_iff in Hc as [Hs Hat].
    cbn. rewrite Hs, IH2. cbn. split; [|reflexivity].
    destruct (N.eq_dec c 64) as [->|Hne]; [discriminate Hat | exact IH1]. }
  apply Forall_app in Hall as [Hl Hall]. apply Forall_app in Hall as [Ha Hb].
  destruct (Hp l Hl) as [L1 L2], (Hp a Ha) as [A1 A2], (Hp b Hb) as [B1 B2].
  split.
  - rewrite count_occ_app. cbn. rewrite count_occ_app. cbn. lia.
  - rewrite forallb_app. cbn. rewrite forallb_app. cbn.
    rewrite L2, A2, B2. reflexivity.
Qed.

(** The address "a@b.c". *)
Lemma X15_email_pattern_witness :
  test emailRegex (js "a@b.c") = true /\
  count_occ N.eq_dec (js "a@b.c") 64%N = 1 /\
  forallb (fun c => negb (isSpace c)) (js "a@b.c") = true.
Proof.
  split; [reflexivity|].
  apply (X15_email_pattern (js "a@b.c")). reflexivity.
Defined.

(** ** The form handlers *)

Lemma toasts_app (t1 t2 : list event) : toasts (t1 ++ t2) = toasts t1 ++ toasts t2.
Proof. unfold toasts. apply filter_app. Qed.

Lemma calls_app (t1 t2 : list event) : calls (t1 ++ t2) = calls t1 ++ calls t2.
Proof. unfold calls. apply flat_map_app. Qed.

Ltac open_profile c :=
  let s := fresh "s" in
  destruct c as [s ? ?]; destruct s; cbn [st pending unhandled] in *;
  cbn [changing passwordData changingEmail changingUsername emailData newUsername
       profilePicture profilePicturePreview uploadingPicture trace] in *.

(** X16: the password form.  Unless the three fields are filled in and the
    new password equals its confirmation, no request is made: one
    destructive toast is shown and nothing else changes.  Otherwise one
    request carries the current and the new password, with the busy flag up
    while it is pending; and however the request and the parsing of its
    body end, the busy flag is lowered again, nothing is left pending,
    nothing escapes and exactly one toast is shown.  The fields are cleared
    exactly when the response was [ok] and its body could be parsed. *)
Theorem X16_change_password
  (token : option jsstring) (c : conf) (r1 r2 : outcome value) :
  let d := passwordData (st c) in
  let n := List.length (pending c) in
  let request := ChangePasswordRequest token (currentPassword d) (newPassword d) in
  let c1 := run (handleChangePassword token) c in
  let c3 := resolve n r2 (resolve n r1 c1) in
  if isEmpty (currentPassword d) || isEmpty (newPassword d)
     || isEmpty (confirmPassword d) || negb (jseq (newPassword d) (confirmPassword d))
  then
    calls (trace (st c1)) = calls (trace (st c)) /\
    (exists title description, trace (st c1) = trace (st c) ++ [Toast title description true]) /\
    pending c1 = pending c /\
    passwordData (st c1) = d /\
    changing (st c1) = changing (st c)
  else
    trace (st c1) = trace (st c) ++ [Call request] /\
    changing (st c1) = true /\
    map fst (pending c1) = map fst (pending c) ++ [request] /\
    changing (st c3) = false /\
    pending c3 = pending c /\
    unhandled c3 = unhandled c /\
    List.length (toasts (trace (st c3))) = S (List.length (toasts (trace (st c)))) /\
    calls (trace (st c3)) =
      calls (trace (st c)) ++ request ::
      match r1 with Resolved (VResponse _) => [ResJson] | _ => [] end /\
    passwordData (st c3) =
      match r1, r2 with
      | Resolved (VResponse true), Resolved _ => mkPasswords [] [] []
      | _, _ => d
      end.
Proof.
  open_profile c. destruct passwordData0 as [cur new conf0]. cbn zeta.
  cbn [currentPassword newPassword confirmPassword].
  unfold run, handleChangePassword.
  cbn [exec st passwordData currentPassword newPassword confirmPassword].
  destruct (isEmpty cur || isEmpty new || isEmpty conf0) eqn:E1.
  - cbn. rewrite calls_app. cbn. rewrite app_nil_r. repeat split. eauto.
  - destruct (jseq new conf0) eqn:E2; cbn -[jseq isEmpty].
    + unfold park. cbn [st pending unhandled]. rewrite map_app. cbn [map fst].
      repeat split.
      all: unfold resolve; rewrite settle_last.
      all: destruct r1 as [[|[|]|m| |dd]|e1]; cbn;
        try (unfold park; cbn [st pending unhandled]; rewrite settle_last;
             destruct r2 as [[|?|[m2|]| |?]|e2]; cbn;
             try destruct (isEmpty m2));
        rewrite ?settle_none; cbn;
        rewrite ?toasts_app, ?calls_app, ?length_app; cbn;
        rewrite ?toasts_app, ?calls_app, ?length_app; cbn;
        rewrite <- ?app_assoc; cbn; try reflexivity; try lia.
    + rewrite calls_app. cbn. rewrite app_nil_r. repeat split. eauto.
Qed.

(** X17: the email form.  A change is requested only for an address that
    is filled in, equals its confirmation, matches the pattern of line 199
    and differs from the current address of the profile; otherwise one
    destructive toast is shown and nothing else happens.  The request
    carries that address; however it ends, the busy flag is lowered again,
    nothing is left pending, nothing escapes and one toast is shown, and
    the two fields are cleared exactly when the request succeeded. *)
Theorem X17_change_email
  (profileEmail : option jsstring) (describe : thrown -> text)
  (c : conf) (r : outcome value) :
  let d := emailData (st c) in
  let n := List.length (pending c) in
  let c1 := run (handleChangeEmail profileEmail describe) c in
  let c2 := resolve n r c1 in
  if negb (isEmpty (newEmail d)) && negb (isEmpty (confirmEmail d))
     && jseq (newEmail d) (confirmEmail d)
     && test emailRegex (newEmail d)
     && negb match profileEmail with
             | Some email => jseq (newEmail d) email
             | None => false
             end
  then
    trace (st c1) = trace (st c) ++ [Call (MutateAsync (UpdEmail (newEmail d)))] /\
    changingEmail (st c1) = true /\
    map fst (pending c1) = map fst (pending c) ++ [MutateAsync (UpdEmail (newEmail d))] /\
    changingEmail (st c2) = false /\
    pending c2 = pending c /\
    unhandled c2 = unhandled c /\
    List.length (toasts (trace (st c2))) = S (List.length (toasts (trace (st c)))) /\
    calls (trace (st c2)) = calls (trace (st c)) ++ [MutateAsync (UpdEmail (newEmail d))] /\
    emailData (st c2) = match r with Resolved _ => mkEmails [] [] | Rejected _ => d end
  else
    calls (trace (st c1)) = calls (trace (st c)) /\
    (exists title description, trace (st c1) = trace (st c) ++ [Toast title description true]) /\
    pending c1 = pending c /\
    emailData (st c1) = d /\
    changingEmail (st c1) = changingEmail (st c).
Proof.
  open_profile c. destruct emailData0 as [new conf0]. cbn zeta.
  cbn [newEmail confirmEmail].
  unfold run, handleChangeEmail.
  cbn [exec st emailData newEmail confirmEmail].
  rewrite <- negb_orb.
  destruct (isEmpty new || isEmpty conf0) eqn:E1; cbn [negb andb].
  { cbn. rewrite calls_app. cbn. rewrite app_nil_r. repeat split. eauto. }
  destruct (jseq new conf0) eqn:E2; cbn [negb andb].
  2:{ cbn. rewrite calls_app. cbn. rewrite app_nil_r. repeat split. eauto. }
  destruct (test emailRegex new) eqn:E3; cbn [negb andb].
  2:{ cbn. rewrite calls_app. cbn. rewrite app_nil_r. repeat split. eauto. }
  destruct (match profileEmail with
            | Some email => jseq new email
            | None => false
            end) eqn:E4; cbn [negb andb].
  { cbn. rewrite calls_app. cbn. rewrite app_nil_r. repeat split. eauto. }
  cbn -[jseq isEmpty test]. unfold park. cbn [st pending unhandled].
  rewrite map_app. cbn [map fst].
  repeat split.
  all: unfold resolve; rewrite settle_last.
  all: destruct r as [v|e]; cbn;
    rewrite ?toasts_app, ?calls_app, ?length_app; cbn;
    rewrite ?toasts_app, ?calls_app, ?length_app; cbn;
    rewrite <- ?app_assoc; cbn; try reflexivity; try lia.
Qed.

(** X18: the username form.  A change is requested only for a name that is
    filled in, has at least three code units and differs from the current
    name of the profile; otherwise one destructive toast is shown and
    nothing else happens.  However the request ends, the busy flag is
    lowered again, nothing is left pending, nothing escapes and one toast
    is shown, and the field is cleared exactly when the request
    succeeded. *)
Theorem X18_change_username
  (profileUsername : option jsstring) (describe : thrown -> text)
  (c : conf) (r : outcome value) :
  let u := newUsername (st c) in
  let n := List.length (pending c) in
  let c1 := run (handleChangeUsername profileUsername describe) c in
  let c2 := resolve n r c1 in
  if (3 <=? List.length u)%nat
     && negb match profileUsername with
             | Some username => jseq u username
             | None => false
             end
  then
    trace (st c1) = trace (st c) ++ [Call (MutateAsync (UpdUsername u))] /\
    changingUsername (st c1) = true /\
    map fst (pending c1) = map fst (pending c) ++ [MutateAsync (UpdUsername u)] /\
    changingUsername (st c2) = false /\
    pending c2 = pending c /\
    unhandled c2 = unhandled c /\
    List.length (toasts (trace (st c2))) = S (List.length (toasts (trace (st c)))) /\
    calls (trace (st c2)) = calls (trace (st c)) ++ [MutateAsync (UpdUsername u)] /\
    newUsername (st c2) = match r with Resolved _ => [] | Rejected _ => u end
  else
    calls (trace (st c1)) = calls (trace (st c)) /\
    (exists title description, trace (st c1) = trace (st c) ++ [Toast title description true]) /\
    pending c1 = pending c /\
    newUsername (st c1) = u /\
    changingUsername (st c1) = changingUsername (st c).
Proof.
  open_profile c. cbn zeta.
  unfold run, handleChangeUsername. cbn [exec st newUsername].
  destruct newUsername0 as [|x1 [|x2 [|x3 u]]];
    try (cbn; rewrite calls_app; cbn; rewrite app_nil_r; repeat split; eauto; fail).
  cbn [isEmpty List.length Nat.ltb Nat.leb andb].
  destruct (match profileUsername with
            | Some username => jseq (x1 :: x2 :: x3 :: u) username
            | None => false
            end) eqn:E; cbn [negb andb].
  { cbn. rewrite calls_app. cbn. rewrite app_nil_r. repeat split. eauto. }
  cbn -[jseq]. unfold park. cbn [st pending unhandled].
  rewrite map_app. cbn [map fst].
  repeat split.
  all: unfold resolve; rewrite settle_last.
  all: destruct r as [v|e]; cbn;
    rewrite ?toasts_app, ?calls_app, ?length_app; cbn;
    rewrite ?toasts_app, ?calls_app, ?length_app; cbn;
    rewrite <- ?app_assoc; cbn; try reflexivity; try lia.
Qed.

(** X19: choosing a picture.  A file is taken exactly when its type is one
    of the five image types and its size is at most 5242880 bytes (5 MB
    itself passes).  A file that is refused leaves the earlier choice and
    its preview in place and shows one destructive toast; no file at all
    changes nothing.  A file that is taken becomes the choice at once and
    its preview is read: the preview is the data read, or nothing if the
    read failed. *)
Theorem X19_choose_picture (c : conf) (f : file) (r : outcome value) :
  let n := List.length (pending c) in
  let c1 := run (handleProfilePictureChange (Some f)) c in
  let c2 := resolve n r c1 in
  run (handleProfilePictureChange None) c = c /\
  if existsb (jseq (fileType f)) validImageTypes && (fileSize f <=? 5242880)%N
  then
    profilePicture (st c1) = Some f /\
    profilePicturePreview (st c1) = profilePicturePreview (st c) /\
    trace (st c1) = trace (st c) ++ [Call (ReadPreview f)] /\
    profilePicture (st c2) = Some f /\
    profilePicturePreview (st c2) =
      match r with Resolved (VData result) => Some result | _ => None end /\
    pending c2 = pending c /\
    unhandled c2 = unhandled c
  else
    profilePicture (st c1) = profilePicture (st c) /\
    profilePicturePreview (st c1) = profilePicturePreview (st c) /\
    (exists title description, trace (st c1) = trace (st c) ++ [Toast title description true]) /\
    pending c1 = pending c.
Proof.
  open_profile c. cbn zeta. split; [reflexivity|].
  unfold run, handleProfilePictureChange.
  destruct (existsb (jseq (fileType f)) validImageTypes) eqn:E1; cbn [negb andb].
  2:{ cbn. repeat split. eauto. }
  replace (5 * 1024 * 1024 <? fileSize f)%N with (negb (fileSize f <=? 5242880)%N)
    by (change (5 * 1024 * 1024)%N with 5242880%N;
        rewrite N.leb_antisym, negb_involutive; reflexivity).
  destruct (fileSize f <=? 5242880)%N eqn:E2; cbn [negb].
  2:{ cbn. repeat split. eauto. }
  cbn. unfold park. cbn [st pending unhandled].
  repeat split.
  all: unfold resolve; rewrite settle_last.
  all: destruct r as [[| | | |dd]|e]; cbn; reflexivity.
Qed.

(** X20: uploading the picture.  With no file chosen nothing is read or
    sent: one destructive toast.  With a file chosen, the file is read and
    what was read is sent as the avatar; the choice, its preview and the
    file input are cleared exactly when both the read and the request
    succeeded, and are kept otherwise, so that the upload can be tried
    again.  In every case the busy flag is lowered again, nothing is left
    pending, nothing escapes and one toast is shown. *)
Theorem X20_upload_picture
  (describe : thrown -> text) (c : conf) (r1 r2 : outcome value) :
  let n := List.length (pending c) in
  let c1 := run (handleUploadProfilePicture describe) c in
  let c3 := resolve n r2 (resolve n r1 c1) in
  match profilePicture (st c) with
  | None =>
      calls (trace (st c1)) = calls (trace (st c)) /\
      (exists title description, trace (st c1) = trace (st c) ++ [Toast title description true]) /\
      pending c1 = pending c /\
      uploadingPicture (st c1) = uploadingPicture (st c)
  | Some f =>
      trace (st c1) = trace (st c) ++ [Call (ReadAsDataURL f)] /\
      uploadingPicture (st c1) = true /\
      uploadingPicture (st c3) = false /\
      pending c3 = pending c /\
      unhandled c3 = unhandled c /\
      List.length (toasts (trace (st c3))) = S (List.length (toasts (trace (st c)))) /\
      calls (trace (st c3)) =
        calls (trace (st c)) ++ ReadAsDataURL f ::
        match r1 with
        | Resolved imageData => [MutateAsync (UpdAvatar imageData)]
        | Rejected _ => []
        end /\
      match r1, r2 with
      | Resolved _, Resolved _ =>
          profilePicture (st c3) = None /\
          profilePicturePreview (st c3) = None /\
          In ClearFileInput (skipn (List.length (trace (st c))) (trace (st c3)))
      | _, _ =>
          profilePicture (st c3) = Some f /\
          profilePicturePreview (st c3) = profilePicturePreview (st c) /\
          ~ In ClearFileInput (skipn (List.length (trace (st c))) (trace (st c3)))
      end
  end.
Proof.
  open_profile c. cbn zeta.
  unfold run, handleUploadProfilePicture. cbn [exec st profilePicture].
  destruct profilePicture0 as [f|].
  2:{ cbn. rewrite calls_app. cbn. rewrite app_nil_r. repeat split. eauto. }
  cbn. unfold park. cbn [st pending unhandled].
  repeat split.
  all: unfold resolve; rewrite settle_last.
  all: destruct r1 as [v1|e1]; cbn;
    try (unfold park; cbn [st pending unhandled]; rewrite settle_last;
         destruct r2 as [v2|e2]; cbn);
    rewrite ?settle_none; cbn;
    rewrite ?toasts_app, ?calls_app, ?length_app; cbn;
    rewrite ?toasts_app, ?calls_app, ?length_app; cbn;
    rewrite <- ?app_assoc; cbn; try reflexivity; try lia.
  all: rewrite skipn_app, skipn_all, Nat.sub_diag; cbn.
  all: repeat split; auto 10.
  all: intros H; repeat (destruct H as [H|H]; [discriminate H|]); exact H.
Qed.

(** ** Every run of the page *)

Section Runs.
Variable describe : thrown -> text.

Local Abbreviation rest := (Async.rest on_call on_settle busy).
Local Abbreviation parked_rest := (Async.parked_rest on_call on_settle busy).

Lemma inFlight_app (kind : op -> bool) (ops : list op) (o : op) :
  inFlight kind (ops ++ [o]) = (inFlight kind ops + Nat.b2n (kind o))%nat.
Proof.
  unfold inFlight. rewrite filter_app, length_app. cbn.
  destruct (kind o); reflexivity.
Qed.

Lemma inFlight_remove_nth (kind : op -> bool) (i : nat) (ops : list op) (o : op) :
  nth_error ops i = Some o ->
  inFlight kind ops = (inFlight kind (remove_nth i ops) + Nat.b2n (kind o))%nat.
Proof.
  unfold inFlight. revert i.
  induction ops as [|x ops IH]; intros [|i]; cbn; try discriminate.
  - intros [= ->]. destruct (kind o); cbn; lia.
  - intro E. specialize (IH i E). destruct (kind x); cbn; lia.
Qed.

Lemma b2n_le_1 (b : bool) : (Nat.b2n b <= 1)%nat.
Proof. destruct b; cbn; lia. Qed.

Ltac busy_tac :=
  unfold busy in *;
  cbn [changing changingEmail changingUsername uploadingPicture
       on_call on_settle log with_changing with_passwordData with_changingEmail
       with_changingUsername with_emailData with_newUsername with_profilePicture
       with_profilePicturePreview with_uploadingPicture] in *;
  repeat match goal with
    | H : _ /\ _ |- _ => destruct H
    | H : nth_error ?l ?i = Some ?o |- _ =>
        pose proof (inFlight_remove_nth isPasswordOp i l o H);
        pose proof (inFlight_remove_nth isEmailOp i l o H);
        pose proof (inFlight_remove_nth isUsernameOp i l o H);
        pose proof (inFlight_remove_nth isUploadOp i l o H);
        clear H
    end;
  rewrite ?inFlight_app;
  cbn [isPasswordOp isEmailOp isUsernameOp isUploadOp] in *;
  repeat match goal with
    | H : _ = Nat.b2n ?b |- _ =>
        is_var b;
        lazymatch goal with
        | _ : (Nat.b2n b <= 1)%nat |- _ => fail
        | _ => pose proof (b2n_le_1 b)
        end
    end;
  cbn [Nat.b2n] in *;
  repeat split; lia.

Ltac rest_step :=
  lazymatch goal with
  | |- Async.rest _ _ _ ?p _ _ _ =>
      match p with
      | context [match ?x with _ => _ end] => destruct x eqn:?; cbn
      end
  | |- _ /\ _ => split
  | |- forall (o : outcome value) (s' : state), _ =>
      let s' := fresh "s'" in
      let H1 := fresh "Hs" in
      let H2 := fresh "Hn" in
      intros ? s' ? ? H1 H2; destruct s'; cbn
  end.

Ltac rest_tac := cbn; repeat rest_step; busy_tac.

Lemma rest_handleChangePassword token (s : state) (ops : list op) :
  busy s ops -> changing s = false -> rest (handleChangePassword token) s ops busy.
Proof.
  intros H Hf. destruct s. cbn in Hf. subst.
  unfold handleChangePassword, finally, setChanging, setPasswordData, toast, emit,
    okOf, messageOf.
  cbn [Async.rest passwordData].
  destruct (isEmpty (currentPassword passwordData0) || isEmpty (newPassword passwordData0)
            || isEmpty (confirmPassword passwordData0)); [cbn; busy_tac|].
  destruct (negb (jseq (newPassword passwordData0) (confirmPassword passwordData0)));
    [cbn; busy_tac|].
  rest_tac.
Qed.

Lemma rest_handleChangeEmail profileEmail (s : state) (ops : list op) :
  busy s ops -> changingEmail s = false ->
  rest (handleChangeEmail profileEmail describe) s ops busy.
Proof.
  intros H Hf. destruct s. cbn in Hf. subst.
  unfold handleChangeEmail, finally, setChangingEmail, setEmailData, toast, emit.
  cbn [Async.rest emailData].
  destruct (isEmpty (newEmail emailData0) || isEmpty (confirmEmail emailData0));
    [cbn; busy_tac|].
  destruct (negb (jseq (newEmail emailData0) (confirmEmail emailData0)));
    [cbn; busy_tac|].
  destruct (negb (test emailRegex (newEmail emailData0))); [cbn; busy_tac|].
  destruct (match profileEmail with
            | Some email => jseq (newEmail emailData0) email
            | None => false
            end); [cbn; busy_tac|].
  rest_tac.
Qed.

Lemma rest_handleChangeUsername profileUsername (s : state) (ops : list op) :
  busy s ops -> changingUsername s = false ->
  rest (handleChangeUsername profileUsername describe) s ops busy.
Proof.
  intros H Hf. destruct s. cbn in Hf. subst.
  unfold handleChangeUsername, finally, setChangingUsername, setUsernameData, toast, emit.
  cbn [Async.rest newUsername].
  destruct (isEmpty newUsername0); [cbn; busy_tac|].
  destruct (List.length newUsername0 <? 3)%nat; [cbn; busy_tac|].
  destruct (match profileUsername with
            | Some username => jseq newUsername0 username
            | None => false
            end); [cbn; busy_tac|].
  rest_tac.
Qed.

Lemma rest_handleProfilePictureChange selected (s : state) (ops : list op) :
  busy s ops -> rest (handleProfilePictureChange selected) s ops busy.
Proof.
  intros H. destruct s.
  unfold handleProfilePictureChange, setProfilePicture, setProfilePicturePreview,
    toast, emit.
  destruct selected as [f|]; [|exact H].
  destruct (negb (existsb (jseq (fileType f)) validImageTypes)); [cbn; busy_tac|].
  destruct (5 * 1024 * 1024 <? fileSize f)%N; [cbn; busy_tac|].
  rest_tac.
Qed.

Lemma rest_handleUploadProfilePicture (s : state) (ops : list op) :
  busy s ops -> uploadingPicture s = false ->
  rest (handleUploadProfilePicture describe) s ops busy.
Proof.
  intros H Hf. destruct s. cbn in Hf. subst.
  unfold handleUploadProfilePicture, finally, setUploadingPicture, setProfilePicture,
    setProfilePicturePreview, toast, emit.
  cbn [Async.rest profilePicture].
  destruct profilePicture0 as [f|]; [|cbn; busy_tac].
  rest_tac.
Qed.

Lemma run_busy (p : task unit) (c : conf) :
  rest p (st c) (map fst (pending c)) busy ->
  Forall parked_rest (pending c) ->
  busy (st (run p c)) (map fst (pending (run p c))) /\
  Forall parked_rest (pending (run p c)).
Proof. intros Hp Hf. apply exec_rest; auto. Qed.

Lemma step_busy (i : input) (c : conf) :
  busy (st c) (map fst (pending c)) ->
  Forall parked_rest (pending c) ->
  busy (st (step describe i c)) (map fst (pending (step describe i c))) /\
  Forall parked_rest (pending (step describe i c)).
Proof.
  intros Hs Hf.
  destruct i as [k v|v|v|v|token|profileEmail|profileUsername|selected| | |n r];
    cbn [step].
  - apply run_busy; [exact Hs | exact Hf].
  - apply run_busy; [exact Hs | exact Hf].
  - apply run_busy; [exact Hs | exact Hf].
  - apply run_busy; [exact Hs | exact Hf].
  - destruct (changing (st c)) eqn:E; [auto|].
    apply run_busy; auto. now apply rest_handleChangePassword.
  - destruct (changingEmail (st c)) eqn:E; [auto|].
    apply run_busy; auto. now apply rest_handleChangeEmail.
  - destruct (changingUsername (st c)) eqn:E; [auto|].
    apply run_busy; auto. now apply rest_handleChangeUsername.
  - apply run_busy; auto. now apply rest_handleProfilePictureChange.
  - destruct (pictureButtons (st c)) eqn:E; [|auto].
    apply run_busy; auto. apply rest_handleUploadProfilePicture; auto.
    unfold pictureButtons in E.
    destruct (profilePicture (st c)), (uploadingPicture (st c)); auto; discriminate.
  - destruct (pictureButtons (st c)) eqn:E; [|auto].
    apply run_busy; [exact Hs | exact Hf].
  - apply settle_rest; auto.
Qed.

Lemma reach_busy (ins : list input) :
  let c := steps describe ins initial in
  busy (st c) (map fst (pending c)).
Proof.
  cbn zeta.
  assert (H0 : busy (st initial) (map fst (pending initial))) by (cbn; repeat split).
  assert (H1 : Forall parked_rest (pending initial)) by constructor.
  revert H0 H1. generalize initial.
  induction ins as [|i ins IH]; intros c H0 H1; [exact H0|].
  destruct (step_busy i c H0 H1) as [H2 H3].
  unfold steps in *. cbn [fold_left]. apply IH; assumption.
Qed.

(** *** Nothing escapes *)

Ltac calm_step :=
  lazymatch goal with
  | |- True => exact I
  | |- _ /\ _ => split
  | |- forall _, _ => intro
  | |- never_throws ?p =>
      match p with
      | context [match ?x with _ => _ end] => destruct x; cbn
      end
  end.

Ltac calm_tac := cbn; repeat calm_step.

Lemma calm_handleChangePassword token : never_throws (handleChangePassword token).
Proof.
  unfold handleChangePassword, finally, setChanging, setPasswordData, toast, emit,
    okOf, messageOf.
  intro s. cbn [passwordData].
  destruct (isEmpty (currentPassword (passwordData s)) || isEmpty (newPassword (passwordData s))
            || isEmpty (confirmPassword (passwordData s))); [calm_tac|].
  destruct (negb (jseq (newPassword (passwordData s)) (confirmPassword (passwordData s))));
    calm_tac.
Qed.

Lemma calm_handleChangeEmail profileEmail :
  never_throws (handleChangeEmail profileEmail describe).
Proof.
  unfold handleChangeEmail, finally, setChangingEmail, setEmailData, toast, emit.
  intro s.
  destruct (isEmpty (newEmail (emailData s)) || isEmpty (confirmEmail (emailData s)));
    [calm_tac|].
  destruct (negb (jseq (newEmail (emailData s)) (confirmEmail (emailData s))));
    [calm_tac|].
  destruct (negb (test emailRegex (newEmail (emailData s)))); [calm_tac|].
  destruct (match profileEmail with
            | Some email => jseq (newEmail (emailData s)) email
            | None => false
            end); calm_tac.
Qed.

Lemma calm_handleChangeUsername profileUsername :
  never_throws (handleChangeUsername profileUsername describe).
Proof.
  unfold handleChangeUsername, finally, setChangingUsername, setUsernameData, toast, emit.
  intro s.
  destruct (isEmpty (newUsername s)); [calm_tac|].
  destruct (List.length (newUsername s) <? 3)%nat; [calm_tac|].
  destruct (match profileUsername with
            | Some username => jseq (newUsername s) username
            | None => false
            end); calm_tac.
Qed.

Lemma calm_handleProfilePictureChange selected :
  never_throws (handleProfilePictureChange selected).
Proof.
  unfold handleProfilePictureChange, setProfilePicture, setProfilePicturePreview,
    toast, emit.
  destruct selected as [f|]; [|exact I].
  destruct (negb (existsb (jseq (fileType f)) validImageTypes)); [calm_tac|].
  destruct (5 * 1024 * 1024 <? fileSize f)%N; calm_tac.
Qed.

Lemma calm_handleUploadProfilePicture :
  never_throws (handleUploadProfilePicture describe).
Proof.
  unfold handleUploadProfilePicture, finally, setUploadingPicture, setProfilePicture,
    setProfilePicturePreview, toast, emit.
  intro s. destruct (profilePicture s) as [f|]; calm_tac.
Qed.

Lemma calm_step_page (i : input) (c : conf) :
  Forall parked_calm (pending c) ->
  unhandled (step describe i c) = unhandled c /\
  Forall parked_calm (pending (step describe i c)).
Proof.
  intro Hp.
  assert (Hrun : forall p c0, never_throws p -> Forall parked_calm (pending c0) ->
             unhandled (run p c0) = unhandled c0 /\
             Forall parked_calm (pending (run p c0)))
    by (intros; apply exec_never_throws; assumption).
  destruct i as [k v|v|v|v|token|profileEmail|profileUsername|selected| | |n r];
    cbn [step].
  - apply Hrun; auto. cbn. auto.
  - apply Hrun; auto. cbn. auto.
  - apply Hrun; auto. cbn. auto.
  - apply Hrun; auto. cbn. auto.
  - destruct (changing (st c)); [auto|].
    apply Hrun; auto. apply calm_handleChangePassword.
  - destruct (changingEmail (st c)); [auto|].
    apply Hrun; auto. apply calm_handleChangeEmail.
  - destruct (changingUsername (st c)); [auto|].
    apply Hrun; auto. apply calm_handleChangeUsername.
  - apply Hrun; auto. apply calm_handleProfilePictureChange.
  - destruct (pictureButtons (st c)); [|auto].
    apply Hrun; auto. apply calm_handleUploadProfilePicture.
  - destruct (pictureButtons (st c)); [|auto].
    apply Hrun; auto. cbn. auto.
  - apply settle_never_throws. exact Hp.
Qed.

End Runs.

(** X21: in every configuration the page can reach, whatever is typed and
    clicked and however the requests end, each form has at most one
    operation in flight, and its busy flag (which shows the spinner and
    disables the button) is up exactly while it has one: the password form
    its request or the reading of the answer, the email and username forms
    their mutation, the picture its reading or its mutation. *)
Theorem X21_one_request_per_form (describe : thrown -> text) (ins : list input) :
  let c := steps describe ins initial in
  let ops := map fst (pending c) in
  inFlight isPasswordOp ops = (if changing (st c) then 1 else 0)%nat /\
  inFlight isEmailOp ops = (if changingEmail (st c) then 1 else 0)%nat /\
  inFlight isUsernameOp ops = (if changingUsername (st c) then 1 else 0)%nat /\
  inFlight isUploadOp ops = (if uploadingPicture (st c) then 1 else 0)%nat.
Proof. exact (reach_busy describe ins). Qed.

(** X22: no run of the page ends in an unhandled rejection: whatever the
    server, the mutation and the file readers answer, each handler catches
    it. *)
Theorem X22_nothing_escapes (describe : thrown -> text) (ins : list input) :
  unhandled (steps describe ins initial) = [].
Proof.
  assert (H0 : unhandled initial = []) by reflexivity.
  assert (H1 : Forall parked_calm (pending initial)) by constructor.
  revert H0 H1. generalize initial.
  induction ins as [|i ins IH]; intros c H0 H1; [exact H0|].
  destruct (calm_step_page describe i c H1) as [H2 H3].
  unfold steps in *. cbn [fold_left]. apply IH; [congruence | exact H3].
Qed.

Lemma resolve_first_of_two (o : outcome value) s p u e1 e2 :
  resolve (List.length p) o (mkConfig s (p ++ [e1; e2]) u) =
  exec on_call (snd e1 o) (mkConfig (on_settle (fst e1) o s) (p ++ [e2]) u).
Proof.
  destruct e1 as [op1 k1]. unfold resolve.
  rewrite (settle_at on_call on_settle _ _ _ op1 k1); cbn [pending st unhandled].
  - rewrite remove_nth_parked. reflexivity.
  - apply nth_error_parked.
Qed.

Lemma resolve_second_of_two (o : outcome value) s p u e1 e2 :
  resolve (S (List.length p)) o (mkConfig s (p ++ [e1; e2]) u) =
  exec on_call (snd e2 o) (mkConfig (on_settle (fst e2) o s) (p ++ [e1]) u).
Proof.
  destruct e2 as [op2 k2]. unfold resolve.
  replace (S (List.length p)) with (List.length (p ++ [e1]))
    by (rewrite length_app; cbn; lia).
  change (p ++ [e1; (op2, k2)]) with (p ++ [e1] ++ [(op2, k2)]).
  rewrite app_assoc. apply settle_last.
Qed.

(** X23: two pictures chosen one after the other.  The choice is the file
    chosen last, but the preview is that of the read that ended last: if
    the read of the first file ends after that of the second, the preview
    shows the first file while the second one is the choice. *)
Theorem X23_preview_of_last_read
  (c : conf) (f g : file) (df dg : jsstring)
  (Hf : existsb (jseq (fileType f)) validImageTypes && (fileSize f <=? 5242880)%N = true)
  (Hg : existsb (jseq (fileType g)) validImageTypes && (fileSize g <=? 5242880)%N = true) :
  let n := List.length (pending c) in
  let c2 := run (handleProfilePictureChange (Some g))
              (run (handleProfilePictureChange (Some f)) c) in
  let in_turn := resolve n (Resolved (VData dg)) (resolve n (Resolved (VData df)) c2) in
  let crossed := resolve n (Resolved (VData df)) (resolve (S n) (Resolved (VData dg)) c2) in
  map fst (pending c2) = map fst (pending c) ++ [ReadPreview f; ReadPreview g] /\
  profilePicture (st in_turn) = Some g /\
  profilePicturePreview (st in_turn) = Some dg /\
  profilePicture (st crossed) = Some g /\
  profilePicturePreview (st crossed) = Some df /\
  pending in_turn = pending c /\
  pending crossed = pending c.
Proof.
  open_profile c. cbn zeta.
  apply andb_prop in Hf, Hg. destruct Hf as [Hf1 Hf2], Hg as [Hg1 Hg2].
  assert (Sf : (5 * 1024 * 1024 <? fileSize f)%N = false)
    by (apply N.ltb_ge; apply N.leb_le; exact Hf2).
  assert (Sg : (5 * 1024 * 1024 <? fileSize g)%N = false)
    by (apply N.ltb_ge; apply N.leb_le; exact Hg2).
  unfold run, handleProfilePictureChange.
  rewrite Hf1, Hg1, Sf, Sg. cbn [negb].
  cbn. unfold park. cbn [st pending unhandled].
  rewrite <- app_assoc. cbn [app].
  split; [rewrite !map_app; reflexivity|].
  rewrite resolve_first_of_two, resolve_second_of_two. cbn.
  unfold resolve. rewrite !settle_last. cbn.
  repeat split.
Qed.

(** A PNG, then a GIF, on the fresh page; the GIF is read first. *)
Lemma X23_preview_of_last_read_witness :
  let f := mkFile 0 (js "image/png") 1000 in
  let g := mkFile 1 (js "image/gif") 2000 in
  let c2 := run (handleProfilePictureChange (Some g))
              (run (handleProfilePictureChange (Some f)) initial) in
  let crossed :=
    resolve 0 (Resolved (VData (js "f"))) (resolve 1 (Resolved (VData (js "g"))) c2) in
  existsb (jseq (fileType f)) validImageTypes && (fileSize f <=? 5242880)%N = true /\
  existsb (jseq (fileType g)) validImageTypes && (fileSize g <=? 5242880)%N = true /\
  profilePicture (st crossed) = Some g /\
  profilePicturePreview (st crossed) = Some (js "f").
Proof.
  cbn zeta.
  destruct (X23_preview_of_last_read initial
              (mkFile 0 (js "image/png") 1000) (mkFile 1 (js "image/gif") 2000)
              (js "f") (js "g") eq_refl eq_refl) as (_ & _ & _ & H1 & H2 & _).
  split; [reflexivity|]. split; [reflexivity|]. split; [exact H1 | exact H2].
Defined.

End ProfileSpec.
